(** * Loyalty tracker: metric calculation and history log

    A shallow embedding of [LoyaltyTracker] (its constructor,
    [calculate_metrics], [add_measurement] and the data [plot_analysis]
    prepares) and of the script that uses it, together with the part of
    Python's numeric semantics the methods rely on: the mixed
    [int]/[float] arithmetic, the two-argument [min]/[max] builtins,
    [round(x, ndigits)] and IEEE 754 binary64 arithmetic in the default
    rounding mode (to nearest, ties to even). *)

From Stdlib Require Import ZArith QArith Qround Qpower Qminmax Lia Lqa Bool List String.
From Stdlib Require Import SpecFloat.
Import ListNotations.

(** ** IEEE 754 binary64

    Floats are [spec_float] values (sign, mantissa, exponent; signed zeros,
    infinities and one NaN).  Every arithmetic operation is the one IEEE 754
    prescribes: the exact rational result, rounded once to the nearest
    representable number, ties going to the even mantissa.  Module
    [SpecFloatAgreement] below proves that on valid floats these are the
    operations [SFadd], [SFsub], [SFmul], [SFdiv] and [SFcompare] of the
    standard library. *)
Module Binary64.

Local Open Scope Q_scope.

Definition float := spec_float.

Definition prec : Z := 53.
Definition emax : Z := 1024.
(** Exponent of the least subnormal, [2 ^ emin]. *)
Definition emin : Z := -1074.

(** Nearest integer, ties to even. *)
Definition rhe (x : Q) : Z :=
  let f := Qfloor x in
  match Qcompare (x - inject_Z f) (1 # 2) with
  | Lt => f
  | Gt => (f + 1)%Z
  | Eq => if Z.even f then f else (f + 1)%Z
  end.

(** [floor (log2 x)] for a positive rational. *)
Definition ilog2 (x : Q) : Z :=
  let k := (Z.log2 (Qnum x) - Z.log2 (Zpos (Qden x)))%Z in
  if Qle_bool (2 ^ k) x then k else (k - 1)%Z.

(** Exponent of the unit in the last place around [x]. *)
Definition ulp_exp (x : Q) : Z := Z.max (ilog2 x - (prec - 1)) emin.

(** Mantissa and exponent of the binary64 number nearest to [x >= 0]
    (no bound on the exponent from above). *)
Definition round_pos (x : Q) : Z * Z :=
  let e := ulp_exp x in
  let m := rhe (x / 2 ^ e) in
  if (m =? 2 ^ prec)%Z then ((2 ^ (prec - 1))%Z, (e + 1)%Z) else (m, e).

Definition mkfloat (s : bool) (me : Z * Z) : float :=
  match fst me with
  | Zpos p =>
      if (snd me <=? emax - prec)%Z then S754_finite s p (snd me)
      else S754_infinity s
  | _ => S754_zero s
  end.

(** Round a rational to binary64. *)
Definition rnd (x : Q) : float :=
  match x ?= 0 with
  | Eq => S754_zero false
  | Gt => mkfloat false (round_pos x)
  | Lt => mkfloat true (round_pos (- x))
  end.

(** The rational a float stands for (0 for the infinities and NaN). *)
Definition val (f : float) : Q :=
  match f with
  | S754_finite s m e =>
      (if s then - inject_Z (Zpos m) else inject_Z (Zpos m)) * 2 ^ e
  | _ => 0
  end.

Definition finite (f : float) : bool :=
  match f with
  | S754_zero _ | S754_finite _ _ _ => true
  | _ => false
  end.

Definition is_zero (f : float) : bool := finite f && Qeq_bool (val f) 0.

Definition sign (f : float) : bool :=
  match f with
  | S754_zero s | S754_infinity s | S754_finite s _ _ => s
  | S754_nan => false
  end.

Definition fneg (f : float) : float :=
  match f with
  | S754_zero s => S754_zero (negb s)
  | S754_infinity s => S754_infinity (negb s)
  | S754_finite s m e => S754_finite (negb s) m e
  | S754_nan => S754_nan
  end.

Definition fadd (x y : float) : float :=
  match x, y with
  | S754_nan, _ | _, S754_nan => S754_nan
  | S754_infinity sx, S754_infinity sy =>
      if Bool.eqb sx sy then x else S754_nan
  | S754_infinity _, _ => x
  | _, S754_infinity _ => y
  | S754_zero sx, S754_zero sy => S754_zero (sx && sy)
  | _, _ => rnd (val x + val y)
  end.

Definition fsub (x y : float) : float := fadd x (fneg y).

Definition fmul (x y : float) : float :=
  match x, y with
  | S754_nan, _ | _, S754_nan => S754_nan
  | S754_infinity sx, _ | _, S754_infinity sx =>
      if is_zero x || is_zero y then S754_nan
      else S754_infinity (xorb (sign x) (sign y))
  | _, _ =>
      if is_zero x || is_zero y then S754_zero (xorb (sign x) (sign y))
      else rnd (val x * val y)
  end.

Definition fdiv (x y : float) : float :=
  match x, y with
  | S754_nan, _ | _, S754_nan => S754_nan
  | S754_infinity sx, S754_infinity sy => S754_nan
  | S754_infinity sx, _ => S754_infinity (xorb sx (sign y))
  | _, S754_infinity sy => S754_zero (xorb (sign x) sy)
  | _, _ =>
      if is_zero y then
        if is_zero x then S754_nan else S754_infinity (xorb (sign x) (sign y))
      else if is_zero x then S754_zero (xorb (sign x) (sign y))
      else rnd (val x / val y)
  end.

End Binary64.

(** ** The fragment of Python the tracker uses

    Numbers are Python [int]s (unbounded) or [float]s.  The operators follow
    CPython: [int op int] is exact for [+], [-] and [*]; [/] is true division
    and always yields a float; a mixed operation converts the [int] operand
    to a float first; comparisons between an [int] and a [float] compare the
    exact values; any comparison with NaN is false. *)
Module Py.

Import Binary64.
Local Open Scope Q_scope.

Inductive num : Type :=
  | PInt (z : Z)
  | PFloat (f : float).

Inductive exn : Type :=
  | ZeroDivisionError
  | OverflowError.

Inductive result (A : Type) : Type :=
  | Ok (a : A)
  | Raise (e : exn).
Arguments Ok {A} a.
Arguments Raise {A} e.

Definition bind {A B : Type} (c : result A) (k : A -> result B) : result B :=
  match c with
  | Ok a => k a
  | Raise e => Raise e
  end.

Notation "x <- c ;; k" := (bind c (fun x => k))
  (at level 61, c at next level, right associativity).

(** Extended rationals: what a number is worth in a comparison. *)
Inductive xval : Type :=
  | XNaN
  | XNegInf
  | XFin (q : Q)
  | XPosInf.

Definition xv (a : num) : xval :=
  match a with
  | PInt z => XFin (inject_Z z)
  | PFloat S754_nan => XNaN
  | PFloat (S754_infinity s) => if s then XNegInf else XPosInf
  | PFloat f => XFin (val f)
  end.

(** [None] when the operands are unordered (one of them is NaN). *)
Definition cmp (a b : num) : option comparison :=
  match xv a, xv b with
  | XNaN, _ | _, XNaN => None
  | XNegInf, XNegInf | XPosInf, XPosInf => Some Eq
  | XNegInf, _ | _, XPosInf => Some Lt
  | _, XNegInf | XPosInf, _ => Some Gt
  | XFin p, XFin q => Some (Qcompare p q)
  end.

Definition py_lt (a b : num) : bool :=
  match cmp a b with Some Lt => true | _ => false end.
Definition py_gt (a b : num) : bool :=
  match cmp a b with Some Gt => true | _ => false end.
Definition py_le (a b : num) : bool :=
  match cmp a b with Some Lt | Some Eq => true | _ => false end.
Definition py_ge (a b : num) : bool :=
  match cmp a b with Some Gt | Some Eq => true | _ => false end.

(** [min(a, b)] and [max(a, b)]: the builtin keeps its first argument unless
    the second one compares strictly smaller (resp. larger). *)
Definition py_min (a b : num) : num := if py_lt b a then b else a.
Definition py_max (a b : num) : num := if py_gt b a then b else a.

(** [float(z)] for an [int]: nearest float, [OverflowError] beyond the
    finite range. *)
Definition int_to_float (z : Z) : result float :=
  match rnd (inject_Z z) with
  | S754_infinity _ => Raise OverflowError
  | f => Ok f
  end.

Definition to_float (a : num) : result float :=
  match a with
  | PInt z => int_to_float z
  | PFloat f => Ok f
  end.

Definition py_add (a b : num) : result num :=
  match a, b with
  | PInt x, PInt y => Ok (PInt (x + y))
  | _, _ => x <- to_float a ;; y <- to_float b ;; Ok (PFloat (fadd x y))
  end.

Definition py_sub (a b : num) : result num :=
  match a, b with
  | PInt x, PInt y => Ok (PInt (x - y))
  | _, _ => x <- to_float a ;; y <- to_float b ;; Ok (PFloat (fsub x y))
  end.

Definition py_mul (a b : num) : result num :=
  match a, b with
  | PInt x, PInt y => Ok (PInt (x * y))
  | _, _ => x <- to_float a ;; y <- to_float b ;; Ok (PFloat (fmul x y))
  end.

(** True division.  [int / int] is the correctly rounded exact quotient. *)
Definition py_truediv (a b : num) : result num :=
  match a, b with
  | PInt x, PInt y =>
      if (y =? 0)%Z then Raise ZeroDivisionError
      else if (x =? 0)%Z then Ok (PFloat (S754_zero (y <? 0)%Z))
      else
        match rnd (inject_Z x / inject_Z y) with
        | S754_infinity _ => Raise OverflowError
        | f => Ok (PFloat f)
        end
  | _, _ =>
      x <- to_float a ;;
      y <- to_float b ;;
      if is_zero y then Raise ZeroDivisionError else Ok (PFloat (fdiv x y))
  end.

(** [round(x, ndigits)] for [ndigits >= 0].  An [int] is returned as it is.
    A finite float is rounded, ties to even, to [ndigits] decimals on its
    exact value, and the resulting decimal is converted to the nearest
    float; zeros, infinities and NaN are returned unchanged. *)
Definition py_round (a : num) (ndigits : nat) : num :=
  match a with
  | PInt z => PInt z
  | PFloat f =>
      match f with
      | S754_finite s _ _ =>
          let p := inject_Z (10 ^ Z.of_nat ndigits) in
          let q := rhe (val f * p) in
          if (q =? 0)%Z then PFloat (S754_zero s)
          else PFloat (rnd (inject_Z q / p))
      | _ => PFloat f
      end
  end.

(** A float literal of the source text, given by its decimal value. *)
Definition lit (q : Q) : num := PFloat (rnd q).

End Py.

(** ** The tracker *)

Import Binary64 Py.
Local Open Scope string_scope.

Record StateProps : Type := mkProps {
  color : string;
  threshold : num
}.

Record MetricRecord : Type := mkMetrics {
  timestamp : Z;
  satisfaction : num;
  true_satisfaction : num;
  dependency : num;
  manipulation : num;
  emotional_vulnerability : num;
  autonomy : num;
  power_imbalance : num;
  health_score : num;
  loyalty_state : string;
  risk_factors : list string
}.

(** The object's attributes.  [loyalty_states] is a [dict]; it is iterated
    in insertion order, so it is kept as the ordered list of its items. *)
Record LoyaltyTracker : Type := mkTracker {
  name : string;
  history : list MetricRecord;
  loyalty_states : list (string * StateProps)
}.

(** [LoyaltyTracker.__init__] *)
Definition __init__ (name : string) : LoyaltyTracker :=
  {| name := name;
     history := [];
     loyalty_states :=
       [ ("Healthy", {| color := "#2ecc71"; threshold := PInt 75 |});
         ("Stable", {| color := "#3498db"; threshold := PInt 60 |});
         ("At Risk", {| color := "#f1c40f"; threshold := PInt 50 |});
         ("Unstable", {| color := "#e67e22"; threshold := PInt 40 |});
         ("Toxic", {| color := "#e74c3c"; threshold := PInt 0 |}) ] |}.

(** The loop
    [for state, props in items: if health_score >= props["threshold"]:
       loyalty_state = state; break]
    started with [loyalty_state = default]. *)
Fixpoint determine_state (items : list (string * StateProps))
    (health_score : num) (default : string) : string :=
  match items with
  | [] => default
  | (state, props) :: rest =>
      if py_ge health_score (threshold props) then state
      else determine_state rest health_score default
  end.

(** [if c: risk_factors.append(flag)] *)
Definition append_if (c : bool) (flag : string) (l : list string) : list string :=
  if c then l ++ [flag] else l.

Definition calculate_metrics (self : LoyaltyTracker)
    (satisfaction dependency manipulation : num) : result MetricRecord :=
  (* Normalize inputs *)
  let satisfaction := py_max (PInt 0) (py_min (PInt 10) satisfaction) in
  let dependency := py_max (PInt 0) (py_min (PInt 10) dependency) in
  let manipulation := py_max (PInt 0) (py_min (PInt 10) manipulation) in
  (* Calculate core metrics *)
  t1 <- py_truediv manipulation (PInt 15) ;;
  t2 <- py_sub (PInt 1) t1 ;;
  true_satisfaction <- py_mul satisfaction t2 ;;
  e1 <- py_mul dependency (lit (7 # 10)) ;;
  e2 <- py_mul manipulation (lit (3 # 10)) ;;
  e3 <- py_add e1 e2 ;;
  let emotional_vulnerability := py_min (PInt 10) e3 in
  a1 <- py_mul dependency (lit (5 # 10)) ;;
  a2 <- py_mul manipulation (lit (5 # 10)) ;;
  a3 <- py_add a1 a2 ;;
  a4 <- py_sub (PInt 10) a3 ;;
  let autonomy := py_max (PInt 0) a4 in
  p1 <- py_mul manipulation (lit (6 # 10)) ;;
  p2 <- py_mul dependency (lit (4 # 10)) ;;
  p3 <- py_add p1 p2 ;;
  let power_imbalance := py_min (PInt 10) p3 in
  (* Calculate health score (0-100) *)
  q1 <- py_truediv true_satisfaction (PInt 10) ;;
  w1 <- py_mul q1 (PInt 30) ;;
  q2 <- py_truediv autonomy (PInt 10) ;;
  w2 <- py_mul q2 (PInt 25) ;;
  d3 <- py_sub (PInt 10) dependency ;;
  q3 <- py_truediv d3 (PInt 10) ;;
  w3 <- py_mul q3 (PInt 25) ;;
  d4 <- py_sub (PInt 10) power_imbalance ;;
  q4 <- py_truediv d4 (PInt 10) ;;
  w4 <- py_mul q4 (PInt 20) ;;
  s12 <- py_add w1 w2 ;;
  s123 <- py_add s12 w3 ;;
  health_score <- py_add s123 w4 ;;
  (* Calculate risk factors *)
  let risk_factors := [] in
  let risk_factors :=
    append_if (py_gt manipulation (PInt 6)) "High Manipulation" risk_factors in
  let risk_factors :=
    append_if (py_gt dependency (PInt 7)) "High Dependency" risk_factors in
  let risk_factors :=
    append_if (py_lt true_satisfaction (PInt 4)) "Low Satisfaction" risk_factors in
  let risk_factors :=
    append_if (py_lt autonomy (PInt 3)) "Low Autonomy" risk_factors in
  (* Determine loyalty state *)
  let loyalty_state :=
    determine_state (loyalty_states self) health_score "Toxic" in
  Ok {| timestamp := (Z.of_nat (List.length (history self)) + 1)%Z;
        satisfaction := satisfaction;
        true_satisfaction := py_round true_satisfaction 2;
        dependency := dependency;
        manipulation := manipulation;
        emotional_vulnerability := py_round emotional_vulnerability 2;
        autonomy := py_round autonomy 2;
        power_imbalance := py_round power_imbalance 2;
        health_score := py_round health_score 1;
        loyalty_state := loyalty_state;
        risk_factors := risk_factors |}.

(** The local variable [health_score] of [calculate_metrics] as lines 21 to
    37 compute it, before the [round(health_score, 1)] of the returned
    dict: the statements of [calculate_metrics] up to the assignment of
    line 32, in the order of the source.  It is the value the loop over
    [self.loyalty_states] compares with the thresholds. *)
Definition unrounded_health_score (satisfaction dependency manipulation : num)
    : result num :=
  (* Normalize inputs *)
  let satisfaction := py_max (PInt 0) (py_min (PInt 10) satisfaction) in
  let dependency := py_max (PInt 0) (py_min (PInt 10) dependency) in
  let manipulation := py_max (PInt 0) (py_min (PInt 10) manipulation) in
  (* Calculate core metrics *)
  t1 <- py_truediv manipulation (PInt 15) ;;
  t2 <- py_sub (PInt 1) t1 ;;
  true_satisfaction <- py_mul satisfaction t2 ;;
  e1 <- py_mul dependency (lit (7 # 10)) ;;
  e2 <- py_mul manipulation (lit (3 # 10)) ;;
  e3 <- py_add e1 e2 ;;
  a1 <- py_mul dependency (lit (5 # 10)) ;;
  a2 <- py_mul manipulation (lit (5 # 10)) ;;
  a3 <- py_add a1 a2 ;;
  a4 <- py_sub (PInt 10) a3 ;;
  let autonomy := py_max (PInt 0) a4 in
  p1 <- py_mul manipulation (lit (6 # 10)) ;;
  p2 <- py_mul dependency (lit (4 # 10)) ;;
  p3 <- py_add p1 p2 ;;
  let power_imbalance := py_min (PInt 10) p3 in
  (* Calculate health score (0-100) *)
  q1 <- py_truediv true_satisfaction (PInt 10) ;;
  w1 <- py_mul q1 (PInt 30) ;;
  q2 <- py_truediv autonomy (PInt 10) ;;
  w2 <- py_mul q2 (PInt 25) ;;
  d3 <- py_sub (PInt 10) dependency ;;
  q3 <- py_truediv d3 (PInt 10) ;;
  w3 <- py_mul q3 (PInt 25) ;;
  d4 <- py_sub (PInt 10) power_imbalance ;;
  q4 <- py_truediv d4 (PInt 10) ;;
  w4 <- py_mul q4 (PInt 20) ;;
  s12 <- py_add w1 w2 ;;
  s123 <- py_add s12 w3 ;;
  py_add s123 w4.

(** [add_measurement] has no [return] statement: its value is Python's
    [None], modelled by [None : option MetricRecord].  Its effect is the
    new state of the object. *)
Definition add_measurement (self : LoyaltyTracker)
    (satisfaction dependency manipulation : num)
    : result (option MetricRecord * LoyaltyTracker) :=
  metrics <- calculate_metrics self satisfaction dependency manipulation ;;
  Ok (None,
      {| name := name self;
         history := history self ++ [metrics];
         loyalty_states := loyalty_states self |}).

(** The driver loop
    [for satisfaction, dependency, manipulation in scenarios:
       tracker.add_measurement(satisfaction, dependency, manipulation)]. *)
Fixpoint add_all (self : LoyaltyTracker) (scenarios : list (num * num * num))
    : result LoyaltyTracker :=
  match scenarios with
  | [] => Ok self
  | (s, d, m) :: rest =>
      r <- add_measurement self s d m ;;
      add_all (snd r) rest
  end.

(** ** Rounding as a function on the rationals

    [RQ x] is the rational value of the binary64 number nearest to [x],
    leaving overflow aside.  The float operations are described through it,
    so that properties of the program become properties of rational
    functions built from [RQ]. *)
Module Rounding.

Import Binary64.
Local Open Scope Q_scope.

Definition RQpos (x : Q) : Q :=
  inject_Z (rhe (x / 2 ^ ulp_exp x)) * 2 ^ ulp_exp x.

Definition RQ (x : Q) : Q :=
  match x ?= 0 with
  | Eq => 0
  | Gt => RQpos x
  | Lt => - RQpos (- x)
  end.

End Rounding.

(** ** The metrics as functions of rational numbers

    What [calculate_metrics] computes, read off the values of the numbers
    involved: each Python operation is the exact one followed by [RQ]. *)
Module Abstraction.

Import Binary64 Py Rounding.
Local Open Scope Q_scope.

Definition numval (a : num) : Q :=
  match a with
  | PInt z => inject_Z z
  | PFloat f => val f
  end.

Definition is_fin (a : num) : bool :=
  match a with
  | PInt _ => true
  | PFloat f => finite f
  end.

(** [a] is an [int] or a finite float, and its value lies in [lo, hi]. *)
Definition within (lo hi : Z) (a : num) : Prop :=
  is_fin a = true /\ inject_Z lo <= numval a <= inject_Z hi.

(** [max(0, min(10, x))] *)
Definition clamp (x : num) : num := py_max (PInt 0) (py_min (PInt 10) x).

(** Value of a float literal. *)
Definition lval (q : Q) : Q := val (rnd q).

Definition roundQ (ndigits : nat) (x : Q) : Q :=
  let p := inject_Z (10 ^ Z.of_nat ndigits) in
  RQ (inject_Z (rhe (x * p)) / p).

Definition tsQ (s m : Q) : Q := RQ (s * RQ (1 - RQ (m / 15))).

Definition evQ (d m : Q) : Q :=
  Qmin 10 (RQ (RQ (d * lval (7 # 10)) + RQ (m * lval (3 # 10)))).

Definition auQ (d m : Q) : Q :=
  Qmax 0 (RQ (10 - RQ (RQ (d * lval (5 # 10)) + RQ (m * lval (5 # 10))))).

Definition piQ (d m : Q) : Q :=
  Qmin 10 (RQ (RQ (m * lval (6 # 10)) + RQ (d * lval (4 # 10)))).

Definition hQ (s d m : Q) : Q :=
  let w1 := RQ (RQ (tsQ s m / 10) * 30) in
  let w2 := RQ (RQ (auQ d m / 10) * 25) in
  let w3 := RQ (RQ (RQ (10 - d) / 10) * 25) in
  let w4 := RQ (RQ (RQ (10 - piQ d m) / 10) * 20) in
  RQ (RQ (RQ (w1 + w2) + w3) + w4).

(** The common shape of the four arithmetic lemmas: the operation
    succeeds, its result is finite, lies in the interval that contains the
    exact result, and is worth the rounded exact result. *)
Definition computes (c : result num) (lo hi : Z) (x : Q) : Prop :=
  exists v, c = Ok v /\ within lo hi v /\ numval v == RQ x.

End Abstraction.

(** ** Vocabulary of the properties *)
Module Vocabulary.

Import Binary64 Py.
Local Open Scope list_scope.

(** [lo <= v <= hi], with Python's comparisons. *)
Definition in_range (lo hi : Z) (v : num) : bool :=
  py_le (PInt lo) v && py_le v (PInt hi).

(** State selection as the design words it: the first entry of the table,
    in its order, whose threshold is at most the health score; "Toxic" when
    there is none. *)
Definition matches (h : num) (item : string * StateProps) : bool :=
  py_le (threshold (snd item)) h.

Definition classify_spec (table : list (string * StateProps)) (h : num) : string :=
  match find (matches h) table with
  | Some (state, _) => state
  | None => "Toxic"%string
  end.

Definition selected (table : list (string * StateProps)) (h : num)
    (state : string) : Prop :=
  exists pre props post,
    table = pre ++ (state, props) :: post /\
    forallb (fun item => negb (matches h item)) pre = true /\
    matches h (state, props) = true.

(** The non-finite floats, and what input normalisation makes of them. *)
Inductive nonfinite : Type := NotANumber | PlusInfinity | MinusInfinity.

Definition nonfinite_num (x : nonfinite) : num :=
  match x with
  | NotANumber => PFloat S754_nan
  | PlusInfinity => PFloat (S754_infinity false)
  | MinusInfinity => PFloat (S754_infinity true)
  end.

Definition nonfinite_clamped (x : nonfinite) : num :=
  match x with
  | MinusInfinity => PInt 0
  | NotANumber | PlusInfinity => PInt 10
  end.

(** A record with another sequence number and the same metrics. *)
Definition with_timestamp (r : MetricRecord) (n : Z) : MetricRecord :=
  {| timestamp := n;
     satisfaction := satisfaction r;
     true_satisfaction := true_satisfaction r;
     dependency := dependency r;
     manipulation := manipulation r;
     emotional_vulnerability := emotional_vulnerability r;
     autonomy := autonomy r;
     power_imbalance := power_imbalance r;
     health_score := health_score r;
     loyalty_state := loyalty_state r;
     risk_factors := risk_factors r |}.

(** Floats as the reference implementation of IEEE 754 in [SpecFloat] sees
    them: binary64 has 53 bits of precision and exponents below 1024. *)
Definition valid (f : float) : Prop := valid_binary 53 1024 f = true.

(** The record [mrs] describes [x]: its mantissa is the integer part of [x]
    and its round and sticky bits locate the fractional part of [x] with
    respect to one half. *)
Definition describes (x : Q) (mrs : shr_record) : Prop :=
  let m := inject_Z (shr_m mrs) in
  m <= x < m + 1 /\
  match shr_r mrs, shr_s mrs with
  | false, false => x == m
  | false, true => m < x < m + (1 # 2)
  | true, false => x == m + (1 # 2)
  | true, true => m + (1 # 2) < x
  end.

End Vocabulary.

(** ** Order of the states in the table *)
Module StateOrder.

Local Open Scope list_scope.

(** Index of the entry of [state] in the table, in the order of iteration;
    the length of the table when there is none.  In the constructor's table
    a smaller index is a healthier state. *)
Fixpoint position (state : string) (table : list (string * StateProps)) : nat :=
  match table with
  | [] => 0
  | (key, _) :: rest =>
      if String.eqb key state then 0 else S (position state rest)
  end.

(** The list a test of [calculate_metrics] contributes to [risk_factors]. *)
Definition flag (c : bool) (name : string) : list string :=
  if c then [name] else [].

End StateOrder.

(** ** The data [plot_analysis] draws

    [plot_analysis] prepares numbers, colours and positions and passes them
    to matplotlib and numpy.  The calls into the two libraries are outside
    this development: they are taken to return, and their constant styling
    arguments (colours and markers of the series, opacities, font sizes,
    titles) are left out, as is the text of a marker's label, which formats
    the record's state, health score and risk factors.  What is embedded is
    every number, colour and position the method computes from the tracker
    before it hands it over, in the order of the source, together with the
    exceptions the method's own expressions raise: a missing key, an index
    out of range, [min] or [max] of an empty list, and the arithmetic
    errors.

    The model therefore describes the method on the trackers for which the
    libraries accept what they are given: a history written by
    [add_measurement] from the empty one, whose sequence numbers are 1 to N
    and whose metrics are finite numbers on their scales, and a table whose
    entries are entries of the constructor's table.  On a history edited by
    hand numpy or matplotlib may raise where the model goes on (an [int]
    beyond the range of a float is refused at lines 101 and 170); the
    properties of [plot_analysis] stated in this development are about
    trackers built in this way. *)
Module Plot.

Local Open Scope list_scope.
Local Open Scope string_scope.

Inductive error : Type :=
  | KeyError (key : string)
  | IndexError
  | ValueError
  | ArithmeticError (e : exn).

Inductive attempt (A : Type) : Type :=
  | Value (a : A)
  | Error (e : error).
Arguments Value {A} a.
Arguments Error {A} e.

Definition and_then {A B : Type} (c : attempt A) (k : A -> attempt B) : attempt B :=
  match c with
  | Value a => k a
  | Error e => Error e
  end.

Notation "x <~ c ;; k" := (and_then c (fun x => k))
  (at level 61, c at next level, right associativity).

(** A numeric operation inside the method. *)
Definition arith {A : Type} (c : result A) : attempt A :=
  match c with
  | Ok a => Value a
  | Raise e => Error (ArithmeticError e)
  end.

(** [items[key]] for a [dict]. *)
Fixpoint getitem {V : Type} (items : list (string * V)) (key : string) : attempt V :=
  match items with
  | [] => Error (KeyError key)
  | (k, v) :: rest => if String.eqb k key then Value v else getitem rest key
  end.

(** [l[i]] for a list and [i >= 0]. *)
Definition index {A : Type} (l : list A) (i : nat) : attempt A :=
  match nth_error l i with
  | Some a => Value a
  | None => Error IndexError
  end.

(** [min(l)] and [max(l)] for a list of [int]s. *)
Definition py_min_list (l : list Z) : attempt Z :=
  match l with
  | [] => Error ValueError
  | a :: rest => Value (fold_left (fun m b => if (b <? m)%Z then b else m) rest a)
  end.

Definition py_max_list (l : list Z) : attempt Z :=
  match l with
  | [] => Error ValueError
  | a :: rest => Value (fold_left (fun m b => if (b >? m)%Z then b else m) rest a)
  end.

(** [[f(h) for h in l]] *)
Fixpoint comprehension {A B : Type} (f : A -> attempt B) (l : list A)
    : attempt (list B) :=
  match l with
  | [] => Value []
  | a :: rest =>
      b <~ f a ;;
      bs <~ comprehension f rest ;;
      Value (b :: bs)
  end.

(** [enumerate(l)], counting from [i]. *)
Fixpoint enumerate {A : Type} (i : nat) (l : list A) : list (nat * A) :=
  match l with
  | [] => []
  | a :: rest => (i, a) :: enumerate (S i) rest
  end.

(** What the loop over [enumerate(self.history)] draws for one record: the
    state marker, and the placement of its label. *)
Record StateMarker : Type := mkMarker {
  marker_x : Z;
  marker_y : num;
  state_color : string;
  offset : num;
  va : string
}.

Definition state_marker (self : LoyaltyTracker) (x : list Z)
    (health_scores : list num) (i : nat) (h : MetricRecord) : attempt StateMarker :=
  props <~ getitem (loyalty_states self) (loyalty_state h) ;;
  let state_color := color props in
  xi <~ index x i ;;
  yi <~ index health_scores i ;;
  let offset :=
    if (Z.of_nat i mod 2 =? 0)%Z then lit (8 # 10)
    else PFloat (fneg (rnd (15 # 10))) in
  Value {| marker_x := xi;
           marker_y := yi;
           state_color := state_color;
           offset := offset;
           va := if py_gt offset (PInt 0) then "bottom" else "top" |}.

Record Figure : Type := mkFigure {
  x : list Z;
  metrics : list (string * list num);
  smooth_range : Z * Z;
  health_scores : list num;
  state_markers : list StateMarker;
  ylim : num * num;
  xlim : num * num;
  health_gradient : list num;
  extent : Z * Z * Z * Z;
  timeline : list (Z * string);
  legend_elements : list (string * string)
}.

(** How the method ends when it raises nothing: after [print(text)] and
    [return], or after [plt.show()] with the data of [fig] handed to the
    libraries. *)
Inductive outcome : Type :=
  | Printed (text : string)
  | Drawn (fig : Figure).

Definition plot_analysis (self : LoyaltyTracker) : attempt outcome :=
  match history self with
  | [] => Value (Printed "No data to plot")
  | _ :: _ =>
      (* Get data for plotting *)
      let x := map timestamp (history self) in
      let metrics :=
        [ ("Satisfaction", map satisfaction (history self));
          ("True Satisfaction", map true_satisfaction (history self));
          ("Dependency", map dependency (history self));
          ("Manipulation", map manipulation (history self));
          ("Emotional Vulnerability", map emotional_vulnerability (history self));
          ("Autonomy", map autonomy (history self)) ] in
      (* Plot main metrics with smooth lines *)
      lo <~ py_min_list x ;;
      hi <~ py_max_list x ;;
      (* Plot health score in background *)
      health_scores <~
        comprehension (fun h => arith (py_truediv (health_score h) (PInt 10)))
          (history self) ;;
      (* Add loyalty state indicators *)
      state_markers <~
        comprehension (fun ih => state_marker self x health_scores (fst ih) (snd ih))
          (enumerate 0 (history self)) ;;
      (* Style the main plot *)
      let ylim := (PFloat (fneg (rnd (5 # 10))), PInt 11) in
      xmin <~ py_min_list x ;;
      left <~ arith (py_sub (PInt xmin) (lit (2 # 10))) ;;
      xmax <~ py_max_list x ;;
      right <~ arith (py_add (PInt xmax) (lit (2 # 10))) ;;
      (* Health score timeline *)
      let health_gradient := map health_score (history self) in
      e1 <~ py_min_list x ;;
      e2 <~ py_max_list x ;;
      timeline <~
        comprehension (fun ih => xi <~ index x (fst ih) ;;
                                 Value (xi, loyalty_state (snd ih)))
          (enumerate 0 (history self)) ;;
      (* Legend for loyalty states *)
      let legend_elements :=
        map (fun item => (color (snd item), fst item)) (loyalty_states self) in
      Value (Drawn {| x := x;
                      metrics := metrics;
                      smooth_range := (lo, hi);
                      health_scores := health_scores;
                      state_markers := state_markers;
                      ylim := ylim;
                      xlim := (left, right);
                      health_gradient := health_gradient;
                      extent := (e1, e2, 0%Z, 1%Z);
                      timeline := timeline;
                      legend_elements := legend_elements |})
  end.

(** A record whose plotted numbers are finite and on their scales, and
    whose state is one of [table]. *)
Definition plottable (table : list (string * StateProps)) (r : MetricRecord) : Prop :=
  Abstraction.within 0 10 (satisfaction r) /\
  Abstraction.within 0 10 (true_satisfaction r) /\
  Abstraction.within 0 10 (dependency r) /\
  Abstraction.within 0 10 (manipulation r) /\
  Abstraction.within 0 10 (emotional_vulnerability r) /\
  Abstraction.within 0 10 (autonomy r) /\
  Abstraction.within 0 100 (health_score r) /\
  In (loyalty_state r) (map fst table).

(** [lo < v < hi] for the limits [(lo, hi)] of an axis. *)
Definition inside (lim : num * num) (v : num) : Prop :=
  py_lt (fst lim) v = true /\ py_lt v (snd lim) = true.

(** The script at the end of the module: its scenarios, and the tracker
    after the loop that adds them. *)
Definition scenarios : list (num * num * num) :=
  [ (PInt 7, PInt 3, PInt 2);
    (lit (65 # 10), lit (35 # 10), lit (25 # 10));
    (PInt 6, PInt 4, PInt 3);
    (lit (55 # 10), lit (45 # 10), lit (35 # 10));
    (PInt 5, PInt 5, PInt 4);
    (lit (45 # 10), lit (55 # 10), lit (45 # 10));
    (PInt 4, PInt 6, PInt 5);
    (lit (35 # 10), lit (65 # 10), lit (55 # 10));
    (PInt 3, PInt 7, PInt 6);
    (lit (25 # 10), lit (75 # 10), lit (65 # 10));
    (PInt 2, PInt 8, PInt 7);
    (lit (25 # 10), lit (75 # 10), lit (65 # 10));
    (PInt 3, PInt 7, PInt 6);
    (lit (35 # 10), lit (65 # 10), lit (55 # 10));
    (PInt 4, PInt 6, PInt 5);
    (lit (45 # 10), lit (55 # 10), lit (45 # 10));
    (PInt 5, PInt 5, PInt 4);
    (lit (55 # 10), lit (45 # 10), lit (35 # 10));
    (PInt 6, PInt 4, PInt 3);
    (lit (65 # 10), lit (35 # 10), lit (25 # 10));
    (PInt 7, PInt 3, PInt 2) ].

Definition script : attempt outcome :=
  let tracker := __init__ "Customer Analysis" in
  tracker <~ arith (add_all tracker scenarios) ;;
  plot_analysis tracker.

End Plot.

(** * Properties *)

(** ** Powers of two and integer rounding *)
Module RoundingFacts.

Import Binary64 Rounding.
Local Open Scope Q_scope.

Lemma pow2_pos (e : Z) : 0 < 2 ^ e.
Proof. apply Qpower_0_lt. reflexivity. Qed.

Lemma pow2_add (a b : Z) : 2 ^ (a + b) == 2 ^ a * 2 ^ b.
Proof. apply Qpower_plus. discriminate. Qed.

Lemma pow2_le (a b : Z) : (a <= b)%Z -> 2 ^ a <= 2 ^ b.
Proof. intros H. apply Qpower_le_compat_l; [exact H | discriminate]. Qed.

Lemma pow2_lt_inv (a b : Z) : 2 ^ a < 2 ^ b -> (a < b)%Z.
Proof. intros H. apply (Qpower_lt_compat_l_inv 2); [exact H | reflexivity]. Qed.

Lemma pow2_Z (n : Z) : (0 <= n)%Z -> 2 ^ n == inject_Z (2 ^ n).
Proof. intros H. rewrite Zpower_Qpower by exact H. reflexivity. Qed.

Lemma pow2_succ (a : Z) : 2 ^ (a + 1) == 2 * 2 ^ a.
Proof. rewrite pow2_add. change (2 ^ 1) with 2. ring. Qed.

Lemma div_pow2 (x : Q) (e : Z) : x / 2 ^ e * 2 ^ e == x.
Proof. field. pose proof (pow2_pos e) as H. intros E. rewrite E in H. discriminate. Qed.

(** *** Nearest integer, ties to even *)

Lemma floor_bounds (x : Q) : inject_Z (Qfloor x) <= x < inject_Z (Qfloor x) + 1.
Proof.
  split; [apply Qfloor_le |].
  pose proof (Qlt_floor x) as H. rewrite inject_Z_plus in H. exact H.
Qed.

Lemma rhe_cases (x : Q) :
  (rhe x = Qfloor x /\ x - inject_Z (Qfloor x) <= 1 # 2) \/
  (rhe x = (Qfloor x + 1)%Z /\ 1 # 2 <= x - inject_Z (Qfloor x)).
Proof.
  unfold rhe.
  destruct (Qcompare_spec (x - inject_Z (Qfloor x)) (1 # 2)) as [E | L | G].
  - destruct (Z.even (Qfloor x)); [left | right]; split; try reflexivity;
      rewrite E; apply Qle_refl.
  - left. split; [reflexivity | apply Qlt_le_weak; exact L].
  - right. split; [reflexivity | apply Qlt_le_weak; exact G].
Qed.

Lemma rhe_mono (x y : Q) : x <= y -> (rhe x <= rhe y)%Z.
Proof.
  intros Hxy.
  pose proof (Qfloor_resp_le x y Hxy) as Hf.
  destruct (Z.eq_dec (Qfloor x) (Qfloor y)) as [E | NE].
  - unfold rhe. rewrite <- E.
    destruct (Qcompare_spec (x - inject_Z (Qfloor x)) (1 # 2)) as [Ex | Lx | Gx];
    destruct (Qcompare_spec (y - inject_Z (Qfloor x)) (1 # 2)) as [Ey | Ly | Gy];
    try destruct (Z.even (Qfloor x)); try lia; exfalso; lra.
  - destruct (rhe_cases x) as [[Rx _] | [Rx _]];
    destruct (rhe_cases y) as [[Ry _] | [Ry _]]; lia.
Qed.

Lemma rhe_compat (x y : Q) : x == y -> rhe x = rhe y.
Proof.
  intros E. apply Z.le_antisymm; apply rhe_mono; rewrite E; apply Qle_refl.
Qed.

Lemma rhe_Z (z : Z) : rhe (inject_Z z) = z.
Proof.
  unfold rhe. rewrite Qfloor_Z.
  destruct (Qcompare_spec (inject_Z z - inject_Z z) (1 # 2)) as [E | L | G].
  - exfalso. lra.
  - reflexivity.
  - exfalso. lra.
Qed.

Lemma rhe_ge (a : Z) (x : Q) : inject_Z a <= x -> (a <= rhe x)%Z.
Proof. intros H. rewrite <- (rhe_Z a). apply rhe_mono. exact H. Qed.

Lemma rhe_le (b : Z) (x : Q) : x <= inject_Z b -> (rhe x <= b)%Z.
Proof. intros H. rewrite <- (rhe_Z b). apply rhe_mono. exact H. Qed.

(** *** Rounding to the binary64 grid *)

Lemma ilog2_spec (x : Q) : 0 < x -> 2 ^ ilog2 x <= x < 2 ^ (ilog2 x + 1).
Proof.
  intros Hx. destruct x as [n d]. 
  assert (Hn : (0 < n)%Z) by (unfold Qlt in Hx; simpl in Hx; lia).
  unfold ilog2. cbn [Qnum Qden].
  set (ln := Z.log2 n). set (ld := Z.log2 (Zpos d)).
  destruct (Z.log2_spec n Hn) as [Hn1 Hn2].
  destruct (Z.log2_spec (Zpos d) (eq_refl)) as [Hd1 Hd2].
  fold ln in Hn1, Hn2. fold ld in Hd1, Hd2.
  assert (Hln : (0 <= ln)%Z) by apply Z.log2_nonneg.
  assert (Hld : (0 <= ld)%Z) by apply Z.log2_nonneg.
  rewrite Zle_Qle in Hn1, Hd1. rewrite Zlt_Qlt in Hn2, Hd2.
  rewrite <- (pow2_Z ln) in Hn1 by lia. rewrite <- (pow2_Z ld) in Hd1 by lia.
  rewrite <- (pow2_Z (Z.succ ln)) in Hn2 by lia. rewrite <- (pow2_Z (Z.succ ld)) in Hd2 by lia.
  unfold Z.succ in Hn2, Hd2. rewrite pow2_succ in Hn2, Hd2.
  pose proof (pow2_pos ln) as Pa. pose proof (pow2_pos ld) as Pb.
  assert (Ek : 2 ^ (ln - ld) * 2 ^ ld == 2 ^ ln).
  { rewrite <- pow2_add. replace (ln - ld + ld)%Z with ln by ring. reflexivity. }
  assert (Ek1 : 2 ^ (ln - ld - 1) * 2 == 2 ^ (ln - ld)).
  { replace (ln - ld)%Z with ((ln - ld - 1) + 1)%Z at 2 by ring. rewrite pow2_succ. ring. }
  assert (Ek2 : 2 ^ (ln - ld + 1) == 2 * 2 ^ (ln - ld)) by apply pow2_succ.
  pose proof (pow2_pos (ln - ld)) as Pk. pose proof (pow2_pos (ln - ld - 1)) as Pk1.
  set (N := inject_Z n) in *. set (D := inject_Z (Zpos d)) in *.
  assert (Ex : (n # d) * D == N) by (unfold N, D; rewrite (Qmake_Qdiv n d); field; discriminate).
  assert (PD : 0 < D) by reflexivity.
  set (x := n # d) in *. set (a := 2 ^ ln) in *. set (b := 2 ^ ld) in *.
  set (k := 2 ^ (ln - ld)) in *. set (k1 := 2 ^ (ln - ld - 1)) in *.
  destruct (Qle_bool k x) eqn:Hb.
  - apply Qle_bool_iff in Hb. split; [exact Hb |].
    rewrite Ek2. apply (Qmult_lt_r _ _ D PD). rewrite Ex.
    apply Qlt_le_trans with (2 * a); [exact Hn2 |].
    rewrite <- Ek. nra.
  - assert (Hb' : x < k).
    { apply Qnot_le_lt. intros H. apply Qle_bool_iff in H. congruence. }
    replace (ln - ld - 1 + 1)%Z with (ln - ld)%Z by ring. fold k.
    split; [| exact Hb'].
    apply (Qmult_le_r _ _ D PD). rewrite Ex. 
    apply Qle_trans with a; [| exact Hn1].
    assert (H2 : k1 * D <= k1 * (2 * b)).
    { apply Qmult_le_l; [exact Pk1 | apply Qlt_le_weak; exact Hd2]. }
    fold k1. rewrite <- Ek, <- Ek1. lra.
Qed.

Lemma ilog2_mono (x y : Q) : 0 < x -> x <= y -> (ilog2 x <= ilog2 y)%Z.
Proof.
  intros Hx Hxy.
  assert (Hy : 0 < y) by lra.
  destruct (ilog2_spec x Hx) as [Lx _]. destruct (ilog2_spec y Hy) as [_ Uy].
  assert (H : 2 ^ ilog2 x < 2 ^ (ilog2 y + 1)) by lra.
  apply pow2_lt_inv in H. lia.
Qed.

Lemma ulp_exp_mono (x y : Q) : 0 < x -> x <= y -> (ulp_exp x <= ulp_exp y)%Z.
Proof.
  intros Hx Hxy. pose proof (ilog2_mono x y Hx Hxy). unfold ulp_exp. lia.
Qed.

Lemma scale_le (x : Q) (m e : Z) : x <= inject_Z m * 2 ^ e -> x / 2 ^ e <= inject_Z m.
Proof.
  intros H. apply Qle_shift_div_r; [apply pow2_pos | exact H].
Qed.

Lemma scale_ge (x : Q) (m e : Z) : inject_Z m * 2 ^ e <= x -> inject_Z m <= x / 2 ^ e.
Proof.
  intros H. apply Qle_shift_div_l; [apply pow2_pos | exact H].
Qed.

Lemma scale_mono (x y : Q) (e : Z) : x <= y -> x / 2 ^ e <= y / 2 ^ e.
Proof.
  intros H. apply Qle_shift_div_l; [apply pow2_pos |].
  rewrite div_pow2. exact H.
Qed.

Lemma RQpos_nonneg (x : Q) : 0 <= x -> 0 <= RQpos x.
Proof.
  intros Hx. unfold RQpos.
  apply Qmult_le_0_compat; [| apply Qlt_le_weak, pow2_pos].
  change 0 with (inject_Z 0). rewrite <- Zle_Qle. apply rhe_ge.
  apply scale_ge. change (inject_Z 0) with 0. lra.
Qed.

Lemma RQpos_mono (x y : Q) : 0 < x -> x <= y -> RQpos x <= RQpos y.
Proof.
  intros Hx Hxy. assert (Hy : 0 < y) by lra.
  pose proof (ulp_exp_mono x y Hx Hxy) as He.
  unfold RQpos.
  destruct (Z.eq_dec (ulp_exp x) (ulp_exp y)) as [E | NE].
  - rewrite E. apply Qmult_le_compat_r; [| apply Qlt_le_weak, pow2_pos].
    rewrite <- Zle_Qle. apply rhe_mono. apply scale_mono. exact Hxy.
  - set (ex := ulp_exp x) in *. set (ey := ulp_exp y) in *.
    assert (Hey : ey = (ilog2 y - 52)%Z).
    { unfold ey, ex, ulp_exp, prec in *. lia. }
    assert (Hex : (ilog2 x + 1 <= ex + 53)%Z).
    { unfold ex, ulp_exp, prec. lia. }
    destruct (ilog2_spec x Hx) as [_ Ux]. destruct (ilog2_spec y Hy) as [Ly _].
    apply Qle_trans with (2 ^ (ey + 52)).
    + apply Qle_trans with (inject_Z (2 ^ 53) * 2 ^ ex).
      * apply Qmult_le_compat_r; [| apply Qlt_le_weak, pow2_pos].
        rewrite <- Zle_Qle. apply rhe_le. apply scale_le.
        rewrite <- pow2_Z by lia. rewrite <- pow2_add.
        apply Qle_trans with (2 ^ (ilog2 x + 1)); [lra |].
        apply pow2_le. lia.
      * rewrite <- pow2_Z by lia. rewrite <- pow2_add. apply pow2_le. lia.
    + apply Qle_trans with (inject_Z (2 ^ 52) * 2 ^ ey).
      * rewrite <- pow2_Z by lia. rewrite <- pow2_add.
        apply pow2_le. lia.
      * apply Qmult_le_compat_r; [| apply Qlt_le_weak, pow2_pos].
        rewrite <- Zle_Qle. apply rhe_ge. apply scale_ge.
        rewrite <- pow2_Z by lia. rewrite <- pow2_add.
        replace (52 + ey)%Z with (ilog2 y) by lia. exact Ly.
Qed.

Lemma RQ_nonneg (x : Q) : 0 <= x -> 0 <= RQ x.
Proof.
  intros Hx. unfold RQ.
  destruct (Qcompare_spec x 0) as [E | L | G].
  - apply Qle_refl.
  - exfalso. lra.
  - apply RQpos_nonneg. exact Hx.
Qed.

Lemma RQ_nonpos (x : Q) : x <= 0 -> RQ x <= 0.
Proof.
  intros Hx. unfold RQ.
  destruct (Qcompare_spec x 0) as [E | L | G].
  - apply Qle_refl.
  - pose proof (RQpos_nonneg (- x)). lra.
  - exfalso. lra.
Qed.

Lemma RQ_mono (x y : Q) : x <= y -> RQ x <= RQ y.
Proof.
  intros Hxy.
  destruct (Qlt_le_dec 0 x) as [Px | Nx].
  - unfold RQ.
    destruct (Qcompare_spec x 0) as [E | L | G]; try (exfalso; lra).
    destruct (Qcompare_spec y 0) as [E' | L' | G']; try (exfalso; lra).
    apply RQpos_mono; assumption.
  - destruct (Qlt_le_dec y 0) as [Ny | Py].
    + unfold RQ.
      destruct (Qcompare_spec x 0) as [E | L | G]; try (exfalso; lra).
      destruct (Qcompare_spec y 0) as [E' | L' | G']; try (exfalso; lra).
      apply Qopp_le_compat. apply RQpos_mono; lra.
    + apply Qle_trans with 0; [apply RQ_nonpos | apply RQ_nonneg]; assumption.
Qed.

Lemma RQ_compat (x y : Q) : x == y -> RQ x == RQ y.
Proof.
  intros E. apply Qle_antisym; apply RQ_mono; rewrite E; apply Qle_refl.
Qed.

Lemma ilog2_lt (x : Q) (n : Z) : 0 < x -> x < 2 ^ n -> (ilog2 x < n)%Z.
Proof.
  intros Hx Hn. destruct (ilog2_spec x Hx) as [L _].
  apply pow2_lt_inv. lra.
Qed.

Lemma pow2_opp (e : Z) : / 2 ^ e == 2 ^ (- e).
Proof. rewrite Qpower_opp. reflexivity. Qed.

(** Integers below [2 ^ 53] are representable. *)
Lemma RQpos_Z (z : Z) : (0 < z < 2 ^ 53)%Z -> RQpos (inject_Z z) == inject_Z z.
Proof.
  intros Hz.
  assert (Hx : 0 < inject_Z z).
  { change 0 with (inject_Z 0). rewrite <- Zlt_Qlt. lia. }
  assert (Hl : (ilog2 (inject_Z z) < 53)%Z).
  { apply ilog2_lt; [exact Hx |]. rewrite pow2_Z by lia. rewrite <- Zlt_Qlt. lia. }
  unfold RQpos. set (e := ulp_exp (inject_Z z)).
  assert (He : (e <= 0)%Z) by (unfold e, ulp_exp, prec, emin; lia).
  assert (E : inject_Z z / 2 ^ e == inject_Z (z * 2 ^ (- e))).
  { rewrite inject_Z_mult. rewrite <- pow2_Z by lia. rewrite <- pow2_opp. reflexivity. }
  rewrite (rhe_compat _ _ E), rhe_Z, <- E. apply div_pow2.
Qed.

Lemma RQ_Z (z : Z) : (- 2 ^ 53 < z < 2 ^ 53)%Z -> RQ (inject_Z z) == inject_Z z.
Proof.
  intros Hz. unfold RQ.
  destruct (Qcompare_spec (inject_Z z) 0) as [E | L | G].
  - symmetry. exact E.
  - change 0 with (inject_Z 0) in L. rewrite <- Zlt_Qlt in L.
    rewrite <- inject_Z_opp, RQpos_Z by lia. rewrite inject_Z_opp. ring.
  - change 0 with (inject_Z 0) in G. rewrite <- Zlt_Qlt in G.
    apply RQpos_Z. lia.
Qed.

Lemma RQ_between (a b : Z) (x : Q) :
  (- 2 ^ 53 < a)%Z -> (b < 2 ^ 53)%Z ->
  inject_Z a <= x <= inject_Z b -> inject_Z a <= RQ x <= inject_Z b.
Proof.
  intros Ha Hb [H1 H2].
  assert (Hab : (a <= b)%Z) by (rewrite Zle_Qle; lra).
  split.
  - rewrite <- (RQ_Z a) by lia. apply RQ_mono. exact H1.
  - rewrite <- (RQ_Z b) by lia. apply RQ_mono. exact H2.
Qed.

(** *** From rationals to floats *)

Lemma val_mkfloat (s : bool) (m e : Z) :
  (0 <= m)%Z -> (e <= emax - prec)%Z ->
  finite (mkfloat s (m, e)) = true /\
  val (mkfloat s (m, e)) == (if s then - (inject_Z m * 2 ^ e) else inject_Z m * 2 ^ e).
Proof.
  intros Hm He. unfold mkfloat. cbn [fst snd].
  destruct m as [| p | p]; [| | lia].
  - cbn [finite val]. split; [reflexivity |]. destruct s; ring.
  - apply Z.leb_le in He. rewrite He. cbn [finite val].
    split; [reflexivity |]. destruct s; ring.
Qed.

Lemma round_pos_val (x : Q) :
  0 < x -> x <= 2 ^ 1000 ->
  (0 <= fst (round_pos x))%Z /\ (snd (round_pos x) <= emax - prec)%Z /\
  inject_Z (fst (round_pos x)) * 2 ^ snd (round_pos x) == RQpos x.
Proof.
  intros Hx Hb.
  assert (Hl : (ilog2 x < 1001)%Z).
  { apply ilog2_lt; [exact Hx |]. apply Qle_lt_trans with (2 ^ 1000); [exact Hb |].
    apply Qpower_lt_compat_l; [lia | reflexivity]. }
  assert (He : (ulp_exp x <= 949)%Z) by (unfold ulp_exp, prec, emin; lia).
  assert (Hm : (0 <= rhe (x / 2 ^ ulp_exp x))%Z).
  { apply rhe_ge. apply scale_ge. change (inject_Z 0) with 0. lra. }
  unfold round_pos, RQpos.
  destruct (Z.eqb_spec (rhe (x / 2 ^ ulp_exp x)) (2 ^ prec)) as [E | NE]; cbn [fst snd].
  - split; [unfold prec; lia |]. split; [unfold emax, prec; lia |].
    rewrite E, pow2_succ. unfold prec.
    change (inject_Z (2 ^ 53)) with (2 * inject_Z (2 ^ (53 - 1))). ring.
  - split; [exact Hm |]. split; [unfold emax, prec; lia | reflexivity].
Qed.

Lemma rnd_val (x : Q) :
  - 2 ^ 1000 <= x <= 2 ^ 1000 -> finite (rnd x) = true /\ val (rnd x) == RQ x.
Proof.
  intros [Hl Hu]. unfold rnd, RQ.
  destruct (Qcompare_spec x 0) as [E | L | G].
  - split; reflexivity.
  - assert (H0 : 0 < - x) by lra. assert (H1 : - x <= 2 ^ 1000) by lra.
    destruct (round_pos_val (- x) H0 H1) as (Hm & He & Hv).
    destruct (round_pos (- x)) as [m e]. cbn [fst snd] in *.
    destruct (val_mkfloat true m e Hm He) as [F V].
    split; [exact F |]. rewrite V, Hv. reflexivity.
  - destruct (round_pos_val x G Hu) as (Hm & He & Hv).
    destruct (round_pos x) as [m e]. cbn [fst snd] in *.
    destruct (val_mkfloat false m e Hm He) as [F V].
    split; [exact F |]. rewrite V, Hv. reflexivity.
Qed.

End RoundingFacts.

(** ** Float operations and Python operations on finite numbers *)
Module PyFacts.

Import Binary64 Py Rounding Abstraction RoundingFacts.
Local Open Scope Q_scope.

#[export] Instance RQ_proper : Proper (Qeq ==> Qeq) RQ.
Proof. intros x y E. apply RQ_compat. exact E. Qed.

Lemma RQ_0 (x : Q) : x == 0 -> RQ x == 0.
Proof. intros E. rewrite E. reflexivity. Qed.

Lemma big_bound : inject_Z 1024 <= 2 ^ 1000.
Proof.
  change (inject_Z 1024) with (2 ^ 10). apply pow2_le. lia.
Qed.

Lemma rnd_small (x : Q) :
  - (1024) <= x <= 1024 -> finite (rnd x) = true /\ val (rnd x) == RQ x.
Proof.
  intros H. apply rnd_val. pose proof big_bound as B.
  change (inject_Z 1024) with 1024 in B. lra.
Qed.

Lemma is_zero_spec (f : float) :
  finite f = true -> (is_zero f = true <-> val f == 0).
Proof.
  intros F. unfold is_zero. rewrite F. cbn [andb]. apply Qeq_bool_iff.
Qed.

Lemma is_zero_false (f : float) :
  finite f = true -> ~ val f == 0 -> is_zero f = false.
Proof.
  intros F N. destruct (is_zero f) eqn:E; [| reflexivity].
  apply is_zero_spec in E; [contradiction | exact F].
Qed.

Lemma val_fneg (f : float) : val (fneg f) == - val f.
Proof. destruct f as [s | s | | s m e]; cbn [fneg val]; try ring. destruct s; cbn [negb]; ring. Qed.

Lemma finite_fneg (f : float) : finite (fneg f) = finite f.
Proof. destruct f; reflexivity. Qed.

Lemma fadd_val (x y : float) :
  finite x = true -> finite y = true ->
  - (1024) <= val x + val y <= 1024 ->
  finite (fadd x y) = true /\ val (fadd x y) == RQ (val x + val y).
Proof.
  intros Fx Fy B.
  destruct x as [sx | sx | | sx mx ex]; try discriminate;
  destruct y as [sy | sy | | sy my ey]; try discriminate;
  cbn [fadd]; try (apply rnd_small; exact B).
  split; [reflexivity |]. cbn [val]. symmetry. apply RQ_0. ring.
Qed.

Lemma fsub_val (x y : float) :
  finite x = true -> finite y = true ->
  - (1024) <= val x - val y <= 1024 ->
  finite (fsub x y) = true /\ val (fsub x y) == RQ (val x - val y).
Proof.
  intros Fx Fy B. unfold fsub.
  assert (E : val x + val (fneg y) == val x - val y) by (rewrite val_fneg; ring).
  destruct (fadd_val x (fneg y) Fx) as [F V].
  - rewrite finite_fneg. exact Fy.
  - rewrite E. exact B.
  - split; [exact F |]. rewrite V, E. reflexivity.
Qed.

Lemma fmul_val (x y : float) :
  finite x = true -> finite y = true ->
  - (1024) <= val x * val y <= 1024 ->
  finite (fmul x y) = true /\ val (fmul x y) == RQ (val x * val y).
Proof.
  intros Fx Fy B.
  assert (Z0 : is_zero x || is_zero y = true -> val x * val y == 0).
  { intros H. apply orb_true_iff in H. destruct H as [H | H];
      apply is_zero_spec in H; try assumption; rewrite H; ring. }
  destruct x as [sx | sx | | sx mx ex]; try discriminate;
  destruct y as [sy | sy | | sy my ey]; try discriminate;
  cbn [fmul];
  match goal with
  | |- context [if ?c then _ else _] => destruct c eqn:Ez
  end;
  try (apply rnd_small; exact B);
  (split; [reflexivity |]; cbn [val] in *; symmetry; apply RQ_0; apply Z0; reflexivity).
Qed.

Lemma fdiv_val (x y : float) :
  finite x = true -> finite y = true -> ~ val y == 0 ->
  - (1024) <= val x / val y <= 1024 ->
  finite (fdiv x y) = true /\ val (fdiv x y) == RQ (val x / val y).
Proof.
  intros Fx Fy Ny B.
  pose proof (is_zero_false y Fy Ny) as Zy.
  assert (Z0 : is_zero x = true -> val x / val y == 0).
  { intros H. apply is_zero_spec in H; try assumption. rewrite H. field. exact Ny. }
  destruct x as [sx | sx | | sx mx ex]; try discriminate;
  destruct y as [sy | sy | | sy my ey]; try discriminate;
  cbn [fdiv]; rewrite Zy;
  match goal with
  | |- context [if ?c then _ else _] => destruct c eqn:Ez
  end;
  try (apply rnd_small; exact B);
  (split; [reflexivity |]; symmetry; apply RQ_0; apply Z0; reflexivity).
Qed.

(** ** Python operations on finite numbers *)

Lemma to_float_fin (a : num) :
  is_fin a = true -> - (1024) <= numval a <= 1024 ->
  exists f, to_float a = Ok f /\ finite f = true /\ val f == numval a.
Proof.
  intros F B. destruct a as [z | f]; cbn [to_float numval is_fin] in *.
  - destruct (rnd_small (inject_Z z) B) as [Fr Vr].
    assert (Hz : (- 2 ^ 53 < z < 2 ^ 53)%Z).
    { change (- (1024)) with (inject_Z (- 1024)) in B.
      change 1024 with (inject_Z 1024) in B.
      rewrite <- !Zle_Qle in B. lia. }
    exists (rnd (inject_Z z)). unfold int_to_float.
    split; [| split; [exact Fr | rewrite Vr; apply RQ_Z; exact Hz]].
    destruct (rnd (inject_Z z)); try reflexivity; discriminate.
  - exists f. split; [reflexivity | split; [exact F | reflexivity]].
Qed.

Lemma within_bounds (lo hi : Z) (a : num) :
  (- 1024 <= lo)%Z -> (hi <= 1024)%Z -> within lo hi a ->
  - (1024) <= numval a <= 1024.
Proof.
  intros Hl Hh [_ [B1 B2]].
  rewrite Zle_Qle in Hl, Hh.
  change (inject_Z (- 1024)) with (- (1024)) in Hl.
  change (inject_Z 1024) with 1024 in Hh. lra.
Qed.

Lemma within_RQ (lo hi : Z) (x : Q) :
  (- 1024 <= lo)%Z -> (hi <= 1024)%Z ->
  inject_Z lo <= x <= inject_Z hi ->
  (- (1024) <= x <= 1024) /\ inject_Z lo <= RQ x <= inject_Z hi.
Proof.
  intros Hl Hh B. split.
  - rewrite Zle_Qle in Hl, Hh.
    change (inject_Z (- 1024)) with (- (1024)) in Hl.
    change (inject_Z 1024) with 1024 in Hh. lra.
  - apply RQ_between; [lia | lia | exact B].
Qed.

Lemma float_case (a b : num) (fop : float -> float -> float) (x : Q)
    (lo hi : Z) :
  is_fin a = true -> is_fin b = true ->
  - (1024) <= numval a <= 1024 -> - (1024) <= numval b <= 1024 ->
  (- 1024 <= lo)%Z -> (hi <= 1024)%Z ->
  inject_Z lo <= x <= inject_Z hi ->
  (forall f g, finite f = true -> finite g = true ->
     val f == numval a -> val g == numval b ->
     finite (fop f g) = true /\ val (fop f g) == RQ x) ->
  computes (f <- to_float a ;; g <- to_float b ;; Ok (PFloat (fop f g))) lo hi x.
Proof.
  intros Fa Fb Ba Bb Hl Hh Bx Hop.
  destruct (to_float_fin a Fa Ba) as (f & Ef & Ff & Vf).
  destruct (to_float_fin b Fb Bb) as (g & Eg & Fg & Vg).
  rewrite Ef, Eg. cbn [bind].
  destruct (Hop f g Ff Fg Vf Vg) as [Fr Vr].
  destruct (within_RQ lo hi x Hl Hh Bx) as [_ BR].
  exists (PFloat (fop f g)). split; [reflexivity |].
  split; [| exact Vr].
  split; [exact Fr |]. cbn [numval]. rewrite Vr. exact BR.
Qed.

Lemma int_case (z lo hi : Z) (x : Q) :
  (- 1024 <= lo)%Z -> (hi <= 1024)%Z ->
  inject_Z lo <= x <= inject_Z hi -> inject_Z z == x ->
  computes (Ok (PInt z)) lo hi x.
Proof.
  intros Hl Hh Bx E.
  exists (PInt z). split; [reflexivity |].
  assert (Bz : (lo <= z <= hi)%Z) by (rewrite !Zle_Qle, E; exact Bx).
  split.
  - split; [reflexivity |]. cbn [numval]. rewrite E. exact Bx.
  - cbn [numval]. rewrite <- E. symmetry. apply RQ_Z. lia.
Qed.

Lemma py_add_spec (a b : num) (l1 h1 l2 h2 : Z) :
  within l1 h1 a -> within l2 h2 b ->
  (- 1024 <= l1)%Z -> (h1 <= 1024)%Z -> (- 1024 <= l2)%Z -> (h2 <= 1024)%Z ->
  (- 1024 <= l1 + l2)%Z -> (h1 + h2 <= 1024)%Z ->
  computes (py_add a b) (l1 + l2) (h1 + h2) (numval a + numval b).
Proof.
  intros Wa Wb L1 H1 L2 H2 L H.
  pose proof (within_bounds _ _ _ L1 H1 Wa) as Ba.
  pose proof (within_bounds _ _ _ L2 H2 Wb) as Bb.
  destruct Wa as [Fa [A1 A2]]. destruct Wb as [Fb [B1 B2]].
  assert (Bx : inject_Z (l1 + l2) <= numval a + numval b <= inject_Z (h1 + h2)).
  { rewrite !inject_Z_plus. lra. }
  assert (Hf : computes (f <- to_float a ;; g <- to_float b ;; Ok (PFloat (fadd f g)))
                 (l1 + l2) (h1 + h2) (numval a + numval b)).
  { apply float_case; try assumption.
    intros f g Ff Fg Vf Vg.
    destruct (within_RQ _ _ _ L H Bx) as [Bs _].
    destruct (fadd_val f g Ff Fg) as [F V].
    - rewrite Vf, Vg. exact Bs.
    - split; [exact F |]. rewrite V, Vf, Vg. reflexivity. }
  destruct a as [x | f]; destruct b as [y | g]; try exact Hf.
  cbn [py_add]. apply int_case; try assumption.
  cbn [numval]. rewrite inject_Z_plus. reflexivity.
Qed.

Lemma py_sub_spec (a b : num) (l1 h1 l2 h2 : Z) :
  within l1 h1 a -> within l2 h2 b ->
  (- 1024 <= l1)%Z -> (h1 <= 1024)%Z -> (- 1024 <= l2)%Z -> (h2 <= 1024)%Z ->
  (- 1024 <= l1 - h2)%Z -> (h1 - l2 <= 1024)%Z ->
  computes (py_sub a b) (l1 - h2) (h1 - l2) (numval a - numval b).
Proof.
  intros Wa Wb L1 H1 L2 H2 L H.
  pose proof (within_bounds _ _ _ L1 H1 Wa) as Ba.
  pose proof (within_bounds _ _ _ L2 H2 Wb) as Bb.
  destruct Wa as [Fa [A1 A2]]. destruct Wb as [Fb [B1 B2]].
  assert (Bx : inject_Z (l1 - h2) <= numval a - numval b <= inject_Z (h1 - l2)).
  { unfold Z.sub. rewrite !inject_Z_plus, !inject_Z_opp. lra. }
  assert (Hf : computes (f <- to_float a ;; g <- to_float b ;; Ok (PFloat (fsub f g)))
                 (l1 - h2) (h1 - l2) (numval a - numval b)).
  { apply float_case; try assumption.
    intros f g Ff Fg Vf Vg.
    destruct (within_RQ _ _ _ L H Bx) as [Bs _].
    destruct (fsub_val f g Ff Fg) as [F V].
    - rewrite Vf, Vg. exact Bs.
    - split; [exact F |]. rewrite V, Vf, Vg. reflexivity. }
  destruct a as [x | f]; destruct b as [y | g]; try exact Hf.
  cbn [py_sub]. apply int_case; try assumption.
  cbn [numval]. unfold Z.sub. rewrite inject_Z_plus, inject_Z_opp. reflexivity.
Qed.

Lemma mult_bounds (x y : Q) (h1 h2 : Z) :
  0 <= x <= inject_Z h1 -> 0 <= y <= inject_Z h2 ->
  inject_Z 0 <= x * y <= inject_Z (h1 * h2).
Proof.
  intros Hx Hy. rewrite inject_Z_mult. change (inject_Z 0) with 0. split.
  - apply Qmult_le_0_compat; lra.
  - apply Qmult_le_compat_nonneg; assumption.
Qed.

(** Multiplication, for non-negative operands. *)
Lemma py_mul_spec (a b : num) (h1 h2 : Z) :
  within 0 h1 a -> within 0 h2 b ->
  (h1 <= 1024)%Z -> (h2 <= 1024)%Z -> (h1 * h2 <= 1024)%Z ->
  computes (py_mul a b) 0 (h1 * h2) (numval a * numval b).
Proof.
  intros Wa Wb H1 H2 H.
  pose proof (within_bounds 0 h1 a ltac:(lia) H1 Wa) as Ba.
  pose proof (within_bounds 0 h2 b ltac:(lia) H2 Wb) as Bb.
  destruct Wa as [Fa A]. destruct Wb as [Fb B].
  change (inject_Z 0) with 0 in A, B.
  pose proof (mult_bounds _ _ _ _ A B) as Bx.
  assert (Hf : computes (f <- to_float a ;; g <- to_float b ;; Ok (PFloat (fmul f g)))
                 0 (h1 * h2) (numval a * numval b)).
  { apply float_case; try assumption; try lia.
    intros f g Ff Fg Vf Vg.
    destruct (within_RQ 0 (h1 * h2) _ ltac:(lia) H Bx) as [Bs _].
    destruct (fmul_val f g Ff Fg) as [F V].
    - rewrite Vf, Vg. exact Bs.
    - split; [exact F |]. rewrite V, Vf, Vg. reflexivity. }
  destruct a as [x | f]; destruct b as [y | g]; try exact Hf.
  cbn [py_mul]. apply int_case; try assumption; try lia.
  cbn [numval]. rewrite inject_Z_mult. reflexivity.
Qed.

Lemma div_bounds (x : Q) (k h q : Z) :
  (0 < k)%Z -> (h <= q * k)%Z -> 0 <= x <= inject_Z h ->
  inject_Z 0 <= x / inject_Z k <= inject_Z q.
Proof.
  intros Hk Hq [X1 X2].
  assert (Pk : 0 < inject_Z k).
  { change 0 with (inject_Z 0). rewrite <- Zlt_Qlt. exact Hk. }
  rewrite Zle_Qle, inject_Z_mult in Hq.
  change (inject_Z 0) with 0. split.
  - apply Qle_shift_div_l; [exact Pk | lra].
  - apply Qle_shift_div_r; [exact Pk | lra].
Qed.

(** Division of a non-negative number by a positive [int] constant. *)
Lemma py_truediv_spec (a : num) (k h q : Z) :
  within 0 h a -> (h <= 1024)%Z -> (0 < k <= 1024)%Z ->
  (h <= q * k)%Z -> (q <= 1024)%Z ->
  computes (py_truediv a (PInt k)) 0 q (numval a / inject_Z k).
Proof.
  intros Wa H Hk Hq Q.
  pose proof (within_bounds 0 h a ltac:(lia) H Wa) as Ba.
  destruct Wa as [Fa A]. change (inject_Z 0) with 0 in A.
  pose proof (div_bounds _ k h q ltac:(lia) Hq A) as Bx.
  destruct (within_RQ 0 q _ ltac:(lia) Q Bx) as [Bs BR].
  assert (Nk : ~ inject_Z k == 0).
  { intros E. unfold Qeq in E. cbn in E. lia. }
  destruct a as [x | f].
  - cbn [py_truediv numval] in *.
    destruct (Z.eqb_spec k 0) as [E | _]; [lia |].
    destruct (Z.eqb_spec x 0) as [E | NE].
    + exists (PFloat (S754_zero (k <? 0)%Z)). split; [reflexivity |].
      assert (E0 : RQ (inject_Z x / inject_Z k) == 0).
      { apply RQ_0. rewrite E. field. exact Nk. }
      split; [split; [reflexivity |] |]; cbn [numval val].
      * rewrite <- E0. exact BR.
      * symmetry. exact E0.
    + destruct (rnd_small _ Bs) as [Fr Vr].
      exists (PFloat (rnd (inject_Z x / inject_Z k))).
      split; [destruct (rnd (inject_Z x / inject_Z k)); try reflexivity; discriminate |].
      split; [split; [exact Fr |] |]; cbn [numval].
      * rewrite Vr. exact BR.
      * exact Vr.
  - assert (Bk : - (1024) <= numval (PInt k) <= 1024).
    { cbn [numval]. change (- (1024)) with (inject_Z (- 1024)).
      change 1024 with (inject_Z 1024). rewrite <- !Zle_Qle. lia. }
    destruct (to_float_fin (PInt k) eq_refl Bk) as (g & Eg & Fg & Vg).
    cbn [numval] in *.
    unfold py_truediv. rewrite Eg. cbn [to_float bind].
    assert (Ng : ~ val g == 0) by (rewrite Vg; exact Nk).
    rewrite (is_zero_false g Fg Ng).
    destruct (fdiv_val f g Fa Fg Ng) as [F V].
    + rewrite Vg. exact Bs.
    + exists (PFloat (fdiv f g)). split; [reflexivity |].
      split; [split; [exact F |] |]; cbn [numval]; rewrite V, Vg;
        [exact BR | reflexivity].
Qed.

(** ** Comparisons, [min], [max] and [round] *)

Lemma xv_fin (a : num) : is_fin a = true -> xv a = XFin (numval a).
Proof.
  destruct a as [z | [s | s | | s m e]]; try discriminate; reflexivity.
Qed.

Lemma cmp_fin (a b : num) :
  is_fin a = true -> is_fin b = true ->
  cmp a b = Some (Qcompare (numval a) (numval b)).
Proof.
  intros Fa Fb. unfold cmp. rewrite (xv_fin a Fa), (xv_fin b Fb). reflexivity.
Qed.

Lemma py_lt_fin (a b : num) :
  is_fin a = true -> is_fin b = true ->
  (py_lt a b = true <-> numval a < numval b).
Proof.
  intros Fa Fb. unfold py_lt. rewrite (cmp_fin a b Fa Fb).
  destruct (Qcompare_spec (numval a) (numval b)); split; intros C;
    try reflexivity; try discriminate; lra.
Qed.

Lemma py_gt_fin (a b : num) :
  is_fin a = true -> is_fin b = true ->
  (py_gt a b = true <-> numval b < numval a).
Proof.
  intros Fa Fb. unfold py_gt. rewrite (cmp_fin a b Fa Fb).
  destruct (Qcompare_spec (numval a) (numval b)); split; intros C;
    try reflexivity; try discriminate; lra.
Qed.

Lemma py_le_fin (a b : num) :
  is_fin a = true -> is_fin b = true ->
  (py_le a b = true <-> numval a <= numval b).
Proof.
  intros Fa Fb. unfold py_le. rewrite (cmp_fin a b Fa Fb).
  destruct (Qcompare_spec (numval a) (numval b)); split; intros C;
    try reflexivity; try discriminate; lra.
Qed.

Lemma py_ge_fin (a b : num) :
  is_fin a = true -> is_fin b = true ->
  (py_ge a b = true <-> numval b <= numval a).
Proof.
  intros Fa Fb. unfold py_ge. rewrite (cmp_fin a b Fa Fb).
  destruct (Qcompare_spec (numval a) (numval b)); split; intros C;
    try reflexivity; try discriminate; lra.
Qed.

Lemma py_min_spec (a b : num) (l1 h1 l2 h2 : Z) :
  within l1 h1 a -> within l2 h2 b ->
  within (Z.min l1 l2) (Z.min h1 h2) (py_min a b) /\
  numval (py_min a b) == Qmin (numval a) (numval b).
Proof.
  intros [Fa [A1 A2]] [Fb [B1 B2]].
  assert (L1 : inject_Z (Z.min l1 l2) <= inject_Z l1) by (rewrite <- Zle_Qle; lia).
  assert (L2 : inject_Z (Z.min l1 l2) <= inject_Z l2) by (rewrite <- Zle_Qle; lia).
  assert (H : inject_Z (Z.min h1 h2) == Qmin (inject_Z h1) (inject_Z h2)).
  { destruct (Z.min_spec h1 h2) as [[C E] | [C E]]; rewrite E.
    - symmetry. apply Q.min_l. rewrite <- Zle_Qle. lia.
    - symmetry. apply Q.min_r. rewrite <- Zle_Qle. lia. }
  pose proof (Q.min_le_compat _ _ _ _ A2 B2) as U. rewrite <- H in U.
  unfold py_min. destruct (py_lt b a) eqn:E.
  - apply py_lt_fin in E; try assumption.
    assert (M : Qmin (numval a) (numval b) == numval b) by (apply Q.min_r; lra).
    rewrite M in *. split; [split; [exact Fb | lra] | reflexivity].
  - assert (N : numval a <= numval b).
    { apply Qnot_lt_le. intros C. apply (py_lt_fin b a Fb Fa) in C. congruence. }
    assert (M : Qmin (numval a) (numval b) == numval a) by (apply Q.min_l; lra).
    rewrite M in *. split; [split; [exact Fa | lra] | reflexivity].
Qed.

Lemma py_max_spec (a b : num) (l1 h1 l2 h2 : Z) :
  within l1 h1 a -> within l2 h2 b ->
  within (Z.max l1 l2) (Z.max h1 h2) (py_max a b) /\
  numval (py_max a b) == Qmax (numval a) (numval b).
Proof.
  intros [Fa [A1 A2]] [Fb [B1 B2]].
  assert (L1 : inject_Z h1 <= inject_Z (Z.max h1 h2)) by (rewrite <- Zle_Qle; lia).
  assert (L2 : inject_Z h2 <= inject_Z (Z.max h1 h2)) by (rewrite <- Zle_Qle; lia).
  assert (H : inject_Z (Z.max l1 l2) == Qmax (inject_Z l1) (inject_Z l2)).
  { destruct (Z.max_spec l1 l2) as [[C E] | [C E]]; rewrite E.
    - symmetry. apply Q.max_r. rewrite <- Zle_Qle. lia.
    - symmetry. apply Q.max_l. rewrite <- Zle_Qle. lia. }
  pose proof (Q.max_le_compat _ _ _ _ A1 B1) as U. rewrite <- H in U.
  unfold py_max. destruct (py_gt b a) eqn:E.
  - apply py_gt_fin in E; try assumption.
    assert (M : Qmax (numval a) (numval b) == numval b) by (apply Q.max_r; lra).
    rewrite M in *. split; [split; [exact Fb | lra] | reflexivity].
  - assert (N : numval b <= numval a).
    { apply Qnot_lt_le. intros C. apply (py_gt_fin b a Fb Fa) in C. congruence. }
    assert (M : Qmax (numval a) (numval b) == numval a) by (apply Q.max_l; lra).
    rewrite M in *. split; [split; [exact Fa | lra] | reflexivity].
Qed.

Lemma lit_within (q : Q) : 0 <= q <= 1 -> within 0 1 (lit q).
Proof.
  intros B. unfold lit, within. cbn [is_fin numval].
  assert (B' : inject_Z 0 <= q <= inject_Z 1) by exact B.
  destruct (within_RQ 0 1 q ltac:(lia) ltac:(lia) B') as [Bs BR].
  destruct (rnd_small q Bs) as [F V].
  split; [exact F |]. rewrite V. exact BR.
Qed.

Lemma int_within (z : Z) : within z z (PInt z).
Proof. split; [reflexivity |]. cbn [numval]. split; apply Qle_refl. Qed.

Lemma within_weaken (lo hi lo' hi' : Z) (a : num) :
  within lo hi a -> (lo' <= lo)%Z -> (hi <= hi')%Z -> within lo' hi' a.
Proof.
  intros [F [B1 B2]] Hl Hh. rewrite Zle_Qle in Hl, Hh.
  split; [exact F | lra].
Qed.

(** *** Input normalisation *)

Lemma clamp_fin (a : num) :
  is_fin a = true ->
  within 0 10 (clamp a) /\ numval (clamp a) == Qmax 0 (Qmin 10 (numval a)).
Proof.
  intros Fa. unfold clamp.
  assert (F10 : is_fin (PInt 10) = true) by reflexivity.
  assert (F0 : is_fin (PInt 0) = true) by reflexivity.
  assert (Hmin : is_fin (py_min (PInt 10) a) = true /\
                 numval (py_min (PInt 10) a) == Qmin 10 (numval a)).
  { unfold py_min. destruct (py_lt a (PInt 10)) eqn:E.
    - apply py_lt_fin in E; try assumption. cbn [numval] in E.
      split; [exact Fa |]. symmetry. apply Q.min_r. 
      change (inject_Z 10) with 10 in E. lra.
    - split; [reflexivity |]. cbn [numval]. symmetry. apply Q.min_l.
      apply Qnot_lt_le. intros C. apply (py_lt_fin a (PInt 10) Fa F10) in C. congruence. }
  destruct Hmin as [Fm Vm].
  set (m := py_min (PInt 10) a) in *.
  assert (Um : numval m <= 10) by (rewrite Vm; apply Q.le_min_l).
  unfold py_max. destruct (py_gt m (PInt 0)) eqn:E.
  - apply py_gt_fin in E; try assumption. cbn [numval] in E.
    change (inject_Z 0) with 0 in E.
    assert (M : Qmax 0 (numval m) == numval m) by (apply Q.max_r; lra).
    split.
    + split; [exact Fm |]. change (inject_Z 0) with 0. change (inject_Z 10) with 10. lra.
    + rewrite <- Vm, M. reflexivity.
  - assert (N : numval m <= 0).
    { apply Qnot_lt_le. intros C. apply (py_gt_fin m (PInt 0) Fm F0) in C. congruence. }
    split.
    + apply (within_weaken 0 0); [apply int_within | lia | lia].
    + rewrite <- Vm. cbn [numval]. symmetry. apply Q.max_l. exact N.
Qed.

Lemma clamp_nan : clamp (PFloat S754_nan) = PInt 10.
Proof. reflexivity. Qed.

Lemma clamp_inf (s : bool) :
  clamp (PFloat (S754_infinity s)) = if s then PInt 0 else PInt 10.
Proof. destruct s; reflexivity. Qed.

Lemma num_cases (a : num) :
  is_fin a = true \/ a = PFloat S754_nan \/ exists s, a = PFloat (S754_infinity s).
Proof.
  destruct a as [z | [s | s | | s m e]]; auto.
  right. right. exists s. reflexivity.
Qed.

Lemma clamp_within (a : num) : within 0 10 (clamp a).
Proof.
  destruct (num_cases a) as [F | [E | [s E]]].
  - apply clamp_fin. exact F.
  - rewrite E, clamp_nan. apply (within_weaken 10 10); [apply int_within | lia | lia].
  - rewrite E, clamp_inf. destruct s.
    + apply (within_weaken 0 0); [apply int_within | lia | lia].
    + apply (within_weaken 10 10); [apply int_within | lia | lia].
Qed.

Lemma clamp_mono (a b : num) :
  py_le a b = true -> numval (clamp a) <= numval (clamp b).
Proof.
  intros H.
  destruct (clamp_within a) as [_ [A1 A2]]. destruct (clamp_within b) as [_ [B1 B2]].
  change (inject_Z 0) with 0 in *. change (inject_Z 10) with 10 in *.
  destruct (num_cases a) as [Fa | [Ea | [sa Ea]]].
  - destruct (num_cases b) as [Fb | [Eb | [sb Eb]]].
    + apply py_le_fin in H; try assumption.
      destruct (clamp_fin a Fa) as [_ Va]. destruct (clamp_fin b Fb) as [_ Vb].
      rewrite Va, Vb. apply Q.max_le_compat_l. apply Q.min_le_compat_l. exact H.
    + subst b. unfold py_le, cmp in H. rewrite (xv_fin a Fa) in H. discriminate.
    + subst b. rewrite clamp_inf. unfold py_le, cmp in H. rewrite (xv_fin a Fa) in H.
      destruct sb; [discriminate | exact A2].
  - subst a. discriminate.
  - subst a. rewrite clamp_inf. destruct sa; [exact B1 |].
    destruct (num_cases b) as [Fb | [Eb | [sb Eb]]].
    + unfold py_le, cmp in H. rewrite (xv_fin b Fb) in H. discriminate.
    + subst b. discriminate.
    + subst b. rewrite clamp_inf. destruct sb; [discriminate | apply Qle_refl].
Qed.

(** *** [round] *)

Lemma round_bounds (x : Q) (lo hi : Z) (n : nat) :
  inject_Z lo <= x <= inject_Z hi ->
  inject_Z lo <=
    inject_Z (rhe (x * inject_Z (10 ^ Z.of_nat n))) / inject_Z (10 ^ Z.of_nat n)
  <= inject_Z hi.
Proof.
  intros [B1 B2]. set (P := (10 ^ Z.of_nat n)%Z).
  assert (HP : (0 < P)%Z) by (apply Z.pow_pos_nonneg; lia).
  assert (Pp : 0 < inject_Z P).
  { change 0 with (inject_Z 0). rewrite <- Zlt_Qlt. exact HP. }
  split.
  - apply Qle_shift_div_l; [exact Pp |].
    rewrite <- inject_Z_mult, <- Zle_Qle. apply rhe_ge.
    rewrite inject_Z_mult. apply Qmult_le_compat_r; lra.
  - apply Qle_shift_div_r; [exact Pp |].
    rewrite <- inject_Z_mult, <- Zle_Qle. apply rhe_le.
    rewrite inject_Z_mult. apply Qmult_le_compat_r; lra.
Qed.

Lemma py_round_spec (a : num) (n : nat) (lo hi : Z) :
  within lo hi a -> (- 1024 <= lo)%Z -> (hi <= 1024)%Z ->
  within lo hi (py_round a n) /\ numval (py_round a n) == roundQ n (numval a).
Proof.
  intros [Fa B] Hl Hh.
  pose proof (round_bounds _ lo hi n B) as Bq.
  destruct (within_RQ lo hi _ Hl Hh Bq) as [Bs BR].
  unfold roundQ. set (P := (10 ^ Z.of_nat n)%Z) in *.
  assert (HP : (0 < P)%Z) by (apply Z.pow_pos_nonneg; lia).
  assert (NP : ~ inject_Z P == 0).
  { intros E. unfold Qeq in E. cbn in E. lia. }
  destruct a as [z | f]; cbn [py_round numval is_fin] in *.
  - assert (E : inject_Z (rhe (inject_Z z * inject_Z P)) / inject_Z P == inject_Z z).
    { rewrite <- inject_Z_mult, rhe_Z, inject_Z_mult. field. exact NP. }
    split; [split; [reflexivity | exact B] |].
    rewrite E. symmetry. apply RQ_Z.
    destruct B as [B1 B2]. rewrite <- !Zle_Qle in *. lia.
  - destruct f as [s | s | | s m e]; try discriminate.
    + cbn [val] in *. split; [split; [reflexivity | exact B] |].
      symmetry. apply RQ_0.
      assert (E : rhe (0 * inject_Z P) = 0%Z).
      { rewrite (rhe_compat _ (inject_Z 0)); [apply rhe_Z | ring]. }
      rewrite E. field. exact NP.
    + set (x := val (S754_finite s m e)) in *. fold P.
      destruct (Z.eqb_spec (rhe (x * inject_Z P)) 0) as [E | NE].
      * assert (E0 : RQ (inject_Z (rhe (x * inject_Z P)) / inject_Z P) == 0).
        { apply RQ_0. rewrite E. field. exact NP. }
        cbn [numval val]. split; [split; [reflexivity |] |].
        -- rewrite <- E0. exact BR.
        -- symmetry. exact E0.
      * destruct (rnd_small _ Bs) as [F V].
        cbn [numval]. split; [split; [exact F |] |].
        -- rewrite V. exact BR.
        -- exact V.
Qed.

End PyFacts.

(** ** Agreement with the reference implementation of IEEE 754

    [SpecFloat] implements the operations on mantissas and exponents, by
    shifts with round and sticky bits.  On valid floats they are the
    operations of [Binary64]: the exact result, rounded to nearest, ties to
    even. *)
Module SpecFloatAgreement.

Import Binary64 Py Rounding Abstraction Vocabulary RoundingFacts PyFacts.
Local Open Scope Q_scope.

Lemma iter_pos_nat {A : Type} (f : A -> A) (p : positive) (x : A) :
  iter_pos f p x = Nat.iter (Pos.to_nat p) f x.
Proof.
  revert x. induction p as [p IH | p IH |]; intros x; cbn [iter_pos].
  - rewrite !IH, Pos2Nat.inj_xI. set (n := Pos.to_nat p).
    rewrite Nat.iter_succ_r.
    replace (2 * n)%nat with (n + n)%nat by lia.
    rewrite Nat.iter_add. reflexivity.
  - rewrite !IH, Pos2Nat.inj_xO. set (n := Pos.to_nat p).
    replace (2 * n)%nat with (n + n)%nat by lia.
    rewrite Nat.iter_add. reflexivity.
  - reflexivity.
Qed.

Lemma shr_1_nonneg (m : Z) (r s : bool) :
  (0 <= m)%Z ->
  shr_1 (Build_shr_record m r s) = Build_shr_record (Z.div2 m) (Z.odd m) (r || s).
Proof.
  intros H. destruct m as [| p | p]; [reflexivity | | lia].
  destruct p; reflexivity.
Qed.

Lemma describes_halve (x : Q) (mrs : shr_record) :
  (0 <= shr_m mrs)%Z -> describes x mrs ->
  (0 <= shr_m (shr_1 mrs))%Z /\ describes (x / 2) (shr_1 mrs).
Proof.
  destruct mrs as [m r s]. cbn [shr_m]. intros Hm [B L]. cbn [shr_m shr_r shr_s] in *.
  rewrite (shr_1_nonneg m r s Hm). cbn [shr_m shr_r shr_s].
  pose proof (Z.div2_odd m) as E.
  assert (Eq : inject_Z m == 2 * inject_Z (Z.div2 m) + (if Z.odd m then 1 else 0)).
  { rewrite E at 1. rewrite inject_Z_plus, inject_Z_mult.
    destruct (Z.odd m); reflexivity. }
  split; [apply Z.div2_nonneg; exact Hm |].
  unfold describes. cbn [shr_m shr_r shr_s].
  change (x / 2) with (x * (1 # 2)).
  set (M := inject_Z m) in *. set (M' := inject_Z (Z.div2 m)) in *.
  destruct (Z.odd m); destruct r; destruct s; cbn [orb]; split; lra.
Qed.

Lemma describes_compat (x y : Q) (mrs : shr_record) :
  x == y -> describes x mrs -> describes y mrs.
Proof.
  intros E. unfold describes. destruct (shr_r mrs), (shr_s mrs); cbv zeta; lra.
Qed.

Lemma describes_iter (k : nat) (x : Q) (mrs : shr_record) :
  (0 <= shr_m mrs)%Z -> describes x mrs ->
  (0 <= shr_m (Nat.iter k shr_1 mrs))%Z /\
  describes (x / inject_Z (2 ^ Z.of_nat k)) (Nat.iter k shr_1 mrs).
Proof.
  intros Hm D. induction k as [| k [IHm IHd]].
  - cbn [Nat.iter]. split; [exact Hm |].
    apply (describes_compat x); [| exact D].
    change (inject_Z (2 ^ Z.of_nat 0)) with 1. field.
  - cbn [Nat.iter]. destruct (describes_halve _ _ IHm IHd) as [Hm' D'].
    split; [exact Hm' |].
    apply (describes_compat (x / inject_Z (2 ^ Z.of_nat k) / 2)); [| exact D'].
    rewrite Nat2Z.inj_succ, Z.pow_succ_r by lia. rewrite inject_Z_mult.
    field. intros C.
    assert (P : (0 < 2 ^ Z.of_nat k)%Z) by (apply Z.pow_pos_nonneg; lia).
    rewrite Zlt_Qlt in P. rewrite C in P. discriminate.
Qed.

Lemma Qfloor_unique (x : Q) (m : Z) :
  inject_Z m <= x < inject_Z m + 1 -> Qfloor x = m.
Proof.
  intros [L U]. pose proof (floor_bounds x) as [L' U'].
  assert (A : (m <= Qfloor x)%Z).
  { apply Z.lt_succ_r. rewrite Zlt_Qlt. unfold Z.succ. rewrite inject_Z_plus.
    change (inject_Z 1) with 1. lra. }
  assert (B : (Qfloor x <= m)%Z).
  { apply Z.lt_succ_r. rewrite Zlt_Qlt. unfold Z.succ. rewrite inject_Z_plus.
    change (inject_Z 1) with 1. lra. }
  lia.
Qed.

Lemma describes_rhe (x : Q) (mrs : shr_record) :
  describes x mrs ->
  round_nearest_even (shr_m mrs) (loc_of_shr_record mrs) = rhe x.
Proof.
  destruct mrs as [m r s]. intros [B L]. cbn [shr_m shr_r shr_s] in *.
  unfold rhe. rewrite (Qfloor_unique x m B).
  destruct (Qcompare_spec (x - inject_Z m) (1 # 2)) as [E | Lt | Gt];
    destruct r; destruct s; cbn [loc_of_shr_record round_nearest_even];
    try reflexivity; try (exfalso; lra).
Qed.

Lemma ilog2_unique (x : Q) (k : Z) :
  0 < x -> 2 ^ k <= x -> x < 2 ^ (k + 1) -> ilog2 x = k.
Proof.
  intros Hx L U. destruct (ilog2_spec x Hx) as [L' U'].
  assert (A : 2 ^ ilog2 x < 2 ^ (k + 1)) by lra.
  assert (B : 2 ^ k < 2 ^ (ilog2 x + 1)) by lra.
  apply pow2_lt_inv in A. apply pow2_lt_inv in B. lia.
Qed.

Lemma ilog2_compat (x y : Q) : 0 < x -> x == y -> ilog2 x = ilog2 y.
Proof.
  intros Hx E. assert (Hy : 0 < y) by (rewrite <- E; exact Hx).
  destruct (ilog2_spec y Hy) as [L U].
  apply ilog2_unique; [exact Hx | rewrite E; exact L | rewrite E; exact U].
Qed.

Lemma round_pos_compat (x y : Q) : 0 < x -> x == y -> round_pos x = round_pos y.
Proof.
  intros Hx E. unfold round_pos, ulp_exp. rewrite (ilog2_compat x y Hx E).
  set (u := Z.max (ilog2 y - (prec - 1)) emin).
  assert (R : rhe (x / 2 ^ u) = rhe (y / 2 ^ u)) by (apply rhe_compat; rewrite E; reflexivity).
  rewrite R. reflexivity.
Qed.

Lemma rnd_compat (x y : Q) : x == y -> rnd x = rnd y.
Proof.
  intros E. unfold rnd. rewrite <- (Qcompare_comp x y E 0 0 (Qeq_refl 0)).
  destruct (Qcompare_spec x 0) as [Z | L | G].
  - reflexivity.
  - rewrite (round_pos_compat (- x) (- y)); [reflexivity | lra | rewrite E; reflexivity].
  - rewrite (round_pos_compat x y); [reflexivity | exact G | exact E].
Qed.

Lemma digits2_pos_spec (p : positive) :
  (2 ^ (Zpos (digits2_pos p) - 1) <= Zpos p < 2 ^ Zpos (digits2_pos p))%Z.
Proof.
  induction p as [p IH | p IH |]; cbn [digits2_pos].
  - rewrite Pos2Z.inj_succ. unfold Z.succ.
    replace (Zpos (digits2_pos p) + 1 - 1)%Z with (Zpos (digits2_pos p) - 1 + 1)%Z by ring.
    rewrite !Z.pow_add_r by lia. change (2 ^ 1)%Z with 2%Z.
    rewrite (Pos2Z.inj_xI p). lia.
  - rewrite Pos2Z.inj_succ. unfold Z.succ.
    replace (Zpos (digits2_pos p) + 1 - 1)%Z with (Zpos (digits2_pos p) - 1 + 1)%Z by ring.
    rewrite !Z.pow_add_r by lia. change (2 ^ 1)%Z with 2%Z.
    rewrite (Pos2Z.inj_xO p). lia.
  - cbn. lia.
Qed.

Lemma Zdigits2_spec (m : Z) :
  (0 < m)%Z -> (0 < Zdigits2 m)%Z /\ (2 ^ (Zdigits2 m - 1) <= m < 2 ^ Zdigits2 m)%Z.
Proof.
  intros H. destruct m as [| p | p]; try lia. cbn [Zdigits2].
  split; [lia | apply digits2_pos_spec].
Qed.

Lemma fexp_eq (e : Z) : fexp 53 1024 e = Z.max (e - 53) (-1074).
Proof. reflexivity. Qed.

Lemma ulp_exp_digits (m e : Z) (x : Q) :
  (0 < m)%Z ->
  inject_Z m * 2 ^ e <= x -> x < (inject_Z m + 1) * 2 ^ e ->
  ulp_exp x = fexp 53 1024 (Zdigits2 m + e).
Proof.
  intros Hm L U. destruct (Zdigits2_spec m Hm) as [Hd [D1 D2]].
  set (d := Zdigits2 m) in *.
  pose proof (pow2_pos e) as Pe.
  assert (Hx : 0 < x).
  { apply Qlt_le_trans with (inject_Z m * 2 ^ e); [| exact L].
    apply Qmult_lt_0_compat; [| exact Pe].
    change 0 with (inject_Z 0). rewrite <- Zlt_Qlt. exact Hm. }
  assert (I : ilog2 x = (d - 1 + e)%Z).
  { apply ilog2_unique; [exact Hx | |].
    - rewrite pow2_add, (pow2_Z (d - 1)) by lia.
      apply Qle_trans with (inject_Z m * 2 ^ e); [| exact L].
      apply Qmult_le_compat_r; [| lra]. rewrite <- Zle_Qle. exact D1.
    - replace (d - 1 + e + 1)%Z with (d + e)%Z by ring.
      rewrite pow2_add, (pow2_Z d) by lia.
      apply Qlt_le_trans with ((inject_Z m + 1) * 2 ^ e); [exact U |].
      apply Qmult_le_compat_r; [| lra].
      change 1 with (inject_Z 1). rewrite <- inject_Z_plus, <- Zle_Qle. lia. }
  unfold ulp_exp. rewrite I, fexp_eq. unfold prec, emin. lia.
Qed.

Lemma ulp_exp_ge_emin (x : Q) : (emin <= ulp_exp x)%Z.
Proof. unfold ulp_exp. lia. Qed.

Lemma mantissa_bound (x : Q) :
  0 < x -> (0 <= rhe (x / 2 ^ ulp_exp x) <= 2 ^ 53)%Z.
Proof.
  intros Hx. destruct (ilog2_spec x Hx) as [_ U]. split.
  - apply rhe_ge. apply scale_ge. change (inject_Z 0) with 0. lra.
  - apply rhe_le. apply scale_le. rewrite <- pow2_Z by lia. rewrite <- pow2_add.
    apply Qle_trans with (2 ^ (ilog2 x + 1)); [lra |].
    apply pow2_le. unfold ulp_exp, prec. lia.
Qed.

(** Shifting a record right until its exponent is the unit in the last
    place of [x]. *)
Lemma shr_describes (m e : Z) (l : location) (x : Q) (u : Z) :
  (0 <= m)%Z -> (e <= u)%Z ->
  describes (x / 2 ^ e) (shr_record_of_loc m l) ->
  exists mrs,
    shr (shr_record_of_loc m l) e (u - e) = (mrs, u) /\
    (0 <= shr_m mrs)%Z /\ describes (x / 2 ^ u) mrs.
Proof.
  intros Hm He D.
  assert (Hm0 : (0 <= shr_m (shr_record_of_loc m l))%Z).
  { destruct l as [| []]; exact Hm. }
  unfold shr. destruct (u - e)%Z as [| p | p] eqn:En; [| | lia].
  - assert (u = e) by lia. subst u. eexists. split; [reflexivity |]. split; assumption.
  - rewrite iter_pos_nat.
    destruct (describes_iter (Pos.to_nat p) _ _ Hm0 D) as [H1 H2].
    eexists. split; [f_equal; lia |]. split; [exact H1 |].
    refine (describes_compat _ _ _ _ H2).
    rewrite positive_nat_Z, <- pow2_Z by lia.
    replace u with (e + Z.pos p)%Z by lia. rewrite pow2_add.
    pose proof (pow2_pos e). pose proof (pow2_pos (Z.pos p)).
    field. split; intros C; rewrite C in *; discriminate.
Qed.

Lemma mkfloat_eq (s : bool) (m e : Z) :
  (0 <= m)%Z ->
  mkfloat s (m, e) =
    match m with
    | Z0 => S754_zero s
    | Zpos p => if (e <=? 1024 - 53)%Z then S754_finite s p e else S754_infinity s
    | Zneg _ => S754_nan
    end.
Proof. intros H. destruct m; try lia; reflexivity. Qed.

Lemma round_aux_correct (s : bool) (m e : Z) (l : location) (x : Q) :
  (0 <= m)%Z -> 0 < x ->
  describes (x / 2 ^ e) (shr_record_of_loc m l) ->
  (e <= ulp_exp x)%Z ->
  fexp 53 1024 (Zdigits2 m + e) = ulp_exp x ->
  binary_round_aux 53 1024 s m e l = mkfloat s (round_pos x).
Proof.
  intros Hm Hx D He Hf.
  unfold binary_round_aux, shr_fexp. rewrite Hf.
  destruct (shr_describes m e l x (ulp_exp x) Hm He D) as (mrs & E & Hm1 & D1).
  rewrite E. rewrite (describes_rhe _ _ D1).
  pose proof (mantissa_bound x Hx) as [B0 B1].
  pose proof (ulp_exp_ge_emin x) as Hu. unfold emin in Hu.
  unfold round_pos. set (u := ulp_exp x) in *. set (m1 := rhe (x / 2 ^ u)) in *.
  destruct (Z.eqb_spec m1 (2 ^ prec)) as [C | NC].
  - rewrite C. unfold prec.
    replace (fexp 53 1024 (Zdigits2 (2 ^ 53) + u) - u)%Z with 1%Z
      by (rewrite fexp_eq; change (Zdigits2 (2 ^ 53)) with 54%Z; lia).
    reflexivity.
  - assert (Hlt : (m1 < 2 ^ 53)%Z) by (unfold prec in NC; lia).
    assert (Hn : (fexp 53 1024 (Zdigits2 m1 + u) - u <= 0)%Z).
    { rewrite fexp_eq. destruct (Z.eq_dec m1 0) as [Z0 | NZ].
      - rewrite Z0. cbn [Zdigits2]. lia.
      - destruct (Zdigits2_spec m1 ltac:(lia)) as [Hd [D2 _]].
        assert (Zdigits2 m1 - 1 < 53)%Z.
        { apply (Z.pow_lt_mono_r_iff 2); lia. }
        lia. }
    unfold shr. cbn [shr_record_of_loc].
    destruct (fexp 53 1024 (Zdigits2 m1 + u) - u)%Z as [| p | p] eqn:En; try lia;
      cbn [shr_m]; rewrite mkfloat_eq by exact B0; reflexivity.
Qed.

Lemma val_finite_pos (m : positive) (e : Z) : 0 < inject_Z (Zpos m) * 2 ^ e.
Proof.
  apply Qmult_lt_0_compat; [reflexivity | apply pow2_pos].
Qed.

Lemma val_finite (s : bool) (m : positive) (e : Z) :
  val (S754_finite s m e)
    == (if s then - (inject_Z (Zpos m) * 2 ^ e) else inject_Z (Zpos m) * 2 ^ e).
Proof. cbn [val]. destruct s; ring. Qed.

Lemma is_zero_finite (s : bool) (m : positive) (e : Z) :
  is_zero (S754_finite s m e) = false.
Proof.
  apply is_zero_false; [reflexivity |].
  rewrite val_finite. pose proof (val_finite_pos m e). destruct s; lra.
Qed.

(** Rounding a signed magnitude. *)
Lemma rnd_signed (s : bool) (x a : Q) :
  0 < a -> x == (if s then - a else a) -> rnd x = mkfloat s (round_pos a).
Proof.
  intros Ha E. unfold rnd.
  destruct (Qcompare_spec x 0) as [Z | L | G]; destruct s; try (exfalso; lra).
  - rewrite (round_pos_compat (- x) a); [reflexivity | lra | lra].
  - rewrite (round_pos_compat x a); [reflexivity | lra | lra].
Qed.

Lemma describes_exact (m : Z) (x : Q) :
  x == inject_Z m -> describes x (shr_record_of_loc m loc_Exact).
Proof.
  intros E. unfold describes. cbn [shr_record_of_loc shr_m shr_r shr_s].
  split; lra.
Qed.

(** Rounding an exact dyadic whose exponent is not above its unit in the
    last place. *)
Lemma round_aux_exact (s : bool) (m : positive) (e : Z) :
  (e <= fexp 53 1024 (Zdigits2 (Zpos m) + e))%Z ->
  binary_round_aux 53 1024 s (Zpos m) e loc_Exact
    = mkfloat s (round_pos (inject_Z (Zpos m) * 2 ^ e)).
Proof.
  intros He. set (x := inject_Z (Zpos m) * 2 ^ e).
  pose proof (val_finite_pos m e) as Hx. fold x in Hx.
  assert (Hf : ulp_exp x = fexp 53 1024 (Zdigits2 (Zpos m) + e)).
  { apply ulp_exp_digits; [reflexivity | apply Qle_refl |].
    unfold x. pose proof (pow2_pos e). 
    apply Qmult_lt_compat_r; [assumption | lra]. }
  apply round_aux_correct; try lia; try assumption.
  apply describes_exact. unfold x. field.
  pose proof (pow2_pos e) as P. intros C. rewrite C in P. discriminate.
Qed.

Lemma iter_xO (d m : positive) : Zpos (Pos.iter xO m d) = (Zpos m * 2 ^ Zpos d)%Z.
Proof.
  change (Pos.iter xO m d) with (shift_pos d m).
  rewrite shift_pos_correct. change (Zpower_pos 2 d) with (2 ^ Zpos d)%Z. ring.
Qed.

Lemma shl_align_value (m : positive) (e e' : Z) :
  let r := shl_align m e e' in
  inject_Z (Zpos (fst r)) * 2 ^ snd r == inject_Z (Zpos m) * 2 ^ e /\
  snd r = Z.min e e'.
Proof.
  unfold shl_align. destruct (e' - e)%Z as [| d | d] eqn:E; cbn [fst snd].
  - split; [reflexivity | lia].
  - split; [reflexivity | lia].
  - split; [| lia]. rewrite iter_xO, inject_Z_mult, <- pow2_Z by lia.
    rewrite <- Qmult_assoc, <- pow2_add. replace (Z.pos d + e')%Z with e by lia.
    reflexivity.
Qed.

Lemma binary_round_correct (s : bool) (m : positive) (e : Z) :
  binary_round 53 1024 s m e = mkfloat s (round_pos (inject_Z (Zpos m) * 2 ^ e)).
Proof.
  unfold binary_round.
  set (f := fexp 53 1024 (Z.pos (digits2_pos m) + e)).
  destruct (shl_align_value m e f) as [V S].
  destruct (shl_align m e f) as [mz ez]. cbn [fst snd] in *.
  assert (Hu : ulp_exp (inject_Z (Zpos m) * 2 ^ e) = f).
  { apply (ulp_exp_digits (Zpos m) e); [reflexivity | apply Qle_refl |].
    pose proof (pow2_pos e). apply Qmult_lt_compat_r; [assumption | lra]. }
  assert (Hz : ulp_exp (inject_Z (Zpos m) * 2 ^ e)
               = fexp 53 1024 (Zdigits2 (Zpos mz) + ez)).
  { apply (ulp_exp_digits (Zpos mz) ez); [reflexivity | rewrite V; apply Qle_refl |].
    rewrite <- V. pose proof (pow2_pos ez).
    apply Qmult_lt_compat_r; [assumption | lra]. }
  rewrite round_aux_exact by lia.
  rewrite (round_pos_compat _ _ (val_finite_pos mz ez) V). reflexivity.
Qed.

Lemma binary_normalize_correct (z e : Z) :
  binary_normalize 53 1024 z e false = rnd (inject_Z z * 2 ^ e).
Proof.
  destruct z as [| p | p]; cbn [binary_normalize].
  - symmetry. unfold rnd.
    assert (E : inject_Z 0 * 2 ^ e == 0) by ring.
    rewrite (Qcompare_comp _ _ E 0 0 (Qeq_refl 0)). reflexivity.
  - rewrite binary_round_correct. symmetry.
    apply (rnd_signed false); [apply val_finite_pos | reflexivity].
  - rewrite binary_round_correct. symmetry.
    apply (rnd_signed true); [apply val_finite_pos |].
    change (Z.neg p) with (- Z.pos p)%Z. rewrite inject_Z_opp. ring.
Qed.


Lemma bounded_spec (m : positive) (e : Z) :
  bounded 53 1024 m e = true ->
  (Zdigits2 (Zpos m) <= 53)%Z /\ (-1074 <= e <= 971)%Z /\
  (Zdigits2 (Zpos m) = 53 \/ e = (-1074)%Z)%Z /\
  fexp 53 1024 (Zdigits2 (Zpos m) + e) = e.
Proof.
  unfold bounded, canonical_mantissa. intros H.
  apply andb_true_iff in H. destruct H as [C B].
  apply Z.eqb_eq in C. apply Z.leb_le in B.
  cbn [Zdigits2]. rewrite fexp_eq in *. change (1024 - 53)%Z with 971%Z in B. lia.
Qed.

Lemma round_pos_exact (m : positive) (e : Z) :
  bounded 53 1024 m e = true ->
  round_pos (inject_Z (Zpos m) * 2 ^ e) = (Zpos m, e).
Proof.
  intros H. destruct (bounded_spec m e H) as (D & _ & _ & F).
  set (x := inject_Z (Zpos m) * 2 ^ e).
  assert (Hu : ulp_exp x = e).
  { rewrite <- F. apply (ulp_exp_digits (Zpos m) e); [reflexivity | apply Qle_refl |].
    pose proof (pow2_pos e). apply Qmult_lt_compat_r; [assumption | lra]. }
  unfold round_pos. rewrite Hu.
  assert (R : rhe (x / 2 ^ e) = Zpos m).
  { rewrite (rhe_compat _ (inject_Z (Zpos m))); [apply rhe_Z |].
    unfold x. field. pose proof (pow2_pos e) as P. intros C. rewrite C in P. discriminate. }
  rewrite R.
  destruct (Zdigits2_spec (Zpos m) eq_refl) as [_ [_ U]].
  assert (Zpos m < 2 ^ 53)%Z.
  { apply Z.lt_le_trans with (2 ^ Zdigits2 (Zpos m))%Z; [exact U |].
    apply Z.pow_le_mono_r; lia. }
  destruct (Z.eqb_spec (Zpos m) (2 ^ prec)) as [C | _]; [unfold prec in C; lia |].
  reflexivity.
Qed.

Lemma rnd_exact (f : float) : valid f -> finite f = true -> rnd (val f) = f \/ exists s, f = S754_zero s.
Proof.
  intros V F. destruct f as [s | s | | s m e]; try discriminate.
  - right. exists s. reflexivity.
  - left. unfold valid in V. cbn [valid_binary] in V.
    rewrite (rnd_signed s _ _ (val_finite_pos m e) (val_finite s m e)).
    rewrite (round_pos_exact m e V).
    destruct (bounded_spec m e V) as (_ & B & _).
    unfold mkfloat. cbn [fst snd].
    replace (e <=? emax - prec)%Z with true; [reflexivity |].
    symmetry. apply Z.leb_le. unfold emax, prec. lia.
Qed.

Lemma rnd_finite_exact (s : bool) (m : positive) (e : Z) (x : Q) :
  valid (S754_finite s m e) -> x == val (S754_finite s m e) ->
  rnd x = S754_finite s m e.
Proof.
  intros V E. rewrite (rnd_compat _ _ E).
  destruct (rnd_exact _ V eq_refl) as [H | [t H]]; [exact H | discriminate].
Qed.

Lemma cond_Zopp_inj (s : bool) (a : positive) :
  inject_Z (cond_Zopp s (Zpos a))
    = (if s then - inject_Z (Zpos a) else inject_Z (Zpos a)).
Proof. destruct s; reflexivity. Qed.

Lemma aligned_value (s : bool) (m : positive) (e ez : Z) :
  (ez <= e)%Z ->
  inject_Z (cond_Zopp s (Zpos (fst (shl_align m e ez)))) * 2 ^ ez
    == val (S754_finite s m e).
Proof.
  intros H. destruct (shl_align_value m e ez) as [V S].
  rewrite Z.min_r in S by lia. rewrite S in V.
  rewrite cond_Zopp_inj. cbn [val]. destruct s; lra.
Qed.

Theorem fadd_SFadd (x y : float) :
  valid x -> valid y -> fadd x y = SFadd 53 1024 x y.
Proof.
  intros Vx Vy.
  destruct x as [sx | sx | | sx mx ex]; destruct y as [sy | sy | | sy my ey];
    cbn [fadd SFadd]; try reflexivity;
    try (destruct sx, sy; reflexivity).
  - apply rnd_finite_exact; [exact Vy | cbn [val]; ring].
  - apply rnd_finite_exact; [exact Vx | cbn [val]; ring].
  - rewrite binary_normalize_correct. apply rnd_compat.
    rewrite inject_Z_plus, Qmult_plus_distr_l.
    rewrite !aligned_value by lia. reflexivity.
Qed.

Theorem fsub_SFsub (x y : float) :
  valid x -> valid y -> fsub x y = SFsub 53 1024 x y.
Proof.
  intros Vx Vy. unfold fsub.
  destruct x as [sx | sx | | sx mx ex]; destruct y as [sy | sy | | sy my ey];
    cbn [fadd fneg SFsub]; try reflexivity;
    try (destruct sx, sy; reflexivity).
  - apply rnd_finite_exact; [exact Vy | cbn [val]; ring].
  - apply rnd_finite_exact; [exact Vx | cbn [val]; ring].
  - rewrite binary_normalize_correct. apply rnd_compat.
    unfold Z.sub. rewrite inject_Z_plus, inject_Z_opp, Qmult_plus_distr_l.
    assert (E : - inject_Z (cond_Zopp sy (Zpos (fst (shl_align my ey (Z.min ex ey)))))
                == inject_Z (cond_Zopp (negb sy) (Zpos (fst (shl_align my ey (Z.min ex ey)))))).
    { rewrite !cond_Zopp_inj. destruct sy; cbn [negb]; ring. }
    rewrite E. rewrite !aligned_value by lia. reflexivity.
Qed.

Lemma digits_mul (a b : positive) :
  (Zdigits2 (Zpos a) + Zdigits2 (Zpos b) - 1 <= Zdigits2 (Zpos (a * b)))%Z.
Proof.
  destruct (Zdigits2_spec (Zpos a) eq_refl) as [Pa [La _]].
  destruct (Zdigits2_spec (Zpos b) eq_refl) as [Pb [Lb _]].
  destruct (Zdigits2_spec (Zpos (a * b)) eq_refl) as [Pc [_ Uc]].
  set (da := Zdigits2 (Zpos a)) in *. set (db := Zdigits2 (Zpos b)) in *.
  set (dc := Zdigits2 (Zpos (a * b))) in *.
  assert (H : (2 ^ (da - 1 + (db - 1)) < 2 ^ dc)%Z).
  { rewrite Z.pow_add_r by lia. rewrite Pos2Z.inj_mul in Uc.
    apply Z.le_lt_trans with (Zpos a * Zpos b)%Z; [| exact Uc].
    apply Z.mul_le_mono_nonneg; try lia; apply Z.pow_nonneg; lia. }
  apply Z.pow_lt_mono_r_iff in H; lia.
Qed.

Theorem fmul_SFmul (x y : float) :
  valid x -> valid y -> fmul x y = SFmul 53 1024 x y.
Proof.
  intros Vx Vy.
  destruct x as [sx | sx | | sx mx ex]; destruct y as [sy | sy | | sy my ey];
    cbn [fmul SFmul]; rewrite ?is_zero_finite; cbn [orb sign]; try reflexivity.
  destruct (bounded_spec mx ex Vx) as (Dx & Bx & Cx & _).
  destruct (bounded_spec my ey Vy) as (Dy & By & Cy & _).
  pose proof (digits_mul mx my) as Dm.
  destruct (Zdigits2_spec (Zpos mx) eq_refl) as [Px _].
  destruct (Zdigits2_spec (Zpos my) eq_refl) as [Py _].
  rewrite round_aux_exact by (rewrite fexp_eq; lia).
  apply rnd_signed; [apply val_finite_pos |].
  rewrite Pos2Z.inj_mul, inject_Z_mult. cbn [val].
  destruct sx, sy; cbn [xorb]; rewrite pow2_add; ring.
Qed.

Lemma inject_Z_pos (z : Z) : (0 < z)%Z -> 0 < inject_Z z.
Proof. intros H. change 0 with (inject_Z 0). rewrite <- Zlt_Qlt. exact H. Qed.

Lemma new_location_describes (nb q r : Z) (t : Q) :
  (0 < nb)%Z -> (0 <= r < nb)%Z ->
  t == inject_Z q + inject_Z r / inject_Z nb ->
  describes t (shr_record_of_loc q (new_location nb r)).
Proof.
  intros Hnb Hr Et.
  pose proof (inject_Z_pos nb Hnb) as PN.
  set (f := inject_Z r / inject_Z nb) in *.
  assert (Ef : f * inject_Z nb == inject_Z r).
  { unfold f. field. intros C. rewrite C in PN. discriminate. }
  assert (F0 : 0 <= f < 1).
  { split.
    - apply Qle_shift_div_l; [exact PN |]. rewrite Qmult_0_l.
      change 0 with (inject_Z 0). rewrite <- Zle_Qle. lia.
    - apply Qlt_shift_div_r; [exact PN |]. rewrite Qmult_1_l.
      rewrite <- Zlt_Qlt. lia. }
  assert (Cmp : forall c, (2 * r ?= nb)%Z = c ->
            match c with
            | Lt => f < 1 # 2
            | Eq => f == 1 # 2
            | Gt => 1 # 2 < f
            end).
  { intros c Hc. destruct c.
    - apply Z.compare_eq in Hc.
      assert (E2 : inject_Z r == inject_Z nb * (1 # 2)).
      { rewrite <- Hc, inject_Z_mult. change (inject_Z 2) with 2. ring. }
      unfold f. rewrite E2. field. intros C. rewrite C in PN. discriminate.
    - rewrite Z.compare_lt_iff, Zlt_Qlt, inject_Z_mult in Hc.
      change (inject_Z 2) with 2 in Hc.
      unfold f. apply Qlt_shift_div_r; [exact PN | lra].
    - rewrite Z.compare_gt_iff, Zlt_Qlt, inject_Z_mult in Hc.
      change (inject_Z 2) with 2 in Hc.
      unfold f. apply Qlt_shift_div_l; [exact PN | lra]. }
  assert (R0 : r = 0%Z -> f == 0).
  { intros H. unfold f. rewrite H. field. intros C. rewrite C in PN. discriminate. }
  assert (Rp : r <> 0%Z -> 0 < f).
  { intros H. unfold f. apply Qlt_shift_div_l; [exact PN |]. rewrite Qmult_0_l.
    apply inject_Z_pos. lia. }
  unfold new_location, new_location_even, new_location_odd.
  destruct (Z.even nb) eqn:Ev; destruct (Z.eqb_spec r 0) as [Z0 | NZ];
    try (specialize (R0 Z0); unfold describes;
         cbn [shr_record_of_loc shr_m shr_r shr_s]; split; lra).
  - specialize (Rp NZ). specialize (Cmp _ eq_refl).
    destruct (2 * r ?= nb)%Z; unfold describes;
      cbn [shr_record_of_loc shr_m shr_r shr_s]; split; lra.
  - specialize (Rp NZ). specialize (Cmp _ eq_refl).
    assert (Odd : (2 * r <> nb)%Z).
    { intros C. rewrite <- C, Z.even_mul in Ev. discriminate. }
    destruct (2 * r + 1 ?= nb)%Z eqn:C1;
      [apply Z.compare_eq in C1 | rewrite Z.compare_lt_iff in C1
       | rewrite Z.compare_gt_iff in C1];
      destruct (2 * r ?= nb)%Z eqn:C2;
      try (apply Z.compare_eq in C2); try rewrite Z.compare_lt_iff in C2;
      try rewrite Z.compare_gt_iff in C2; try lia;
      unfold describes; cbn [shr_record_of_loc shr_m shr_r shr_s]; split; lra.
Qed.

Lemma pow2_nz (e : Z) : ~ 2 ^ e == 0.
Proof. pose proof (pow2_pos e) as P. intros C. rewrite C in P. discriminate. Qed.

Lemma div_core_spec (mx my : positive) (ex ey : Z) :
  let X := inject_Z (Zpos mx) / inject_Z (Zpos my) * 2 ^ (ex - ey) in
  exists q e' l,
    SFdiv_core_binary 53 1024 (Zpos mx) ex (Zpos my) ey = (q, e', l) /\
    (0 <= q)%Z /\
    describes (X / 2 ^ e') (shr_record_of_loc q l) /\
    (e' <= ulp_exp X)%Z /\
    fexp 53 1024 (Zdigits2 q + e') = ulp_exp X.
Proof.
  intros X. unfold SFdiv_core_binary.
  set (d1 := Zdigits2 (Zpos mx)). set (d2 := Zdigits2 (Zpos my)).
  set (e' := Z.min (fexp 53 1024 (d1 + ex - (d2 + ey))) (ex - ey)).
  set (s := (ex - ey - e')%Z).
  assert (Hs : (0 <= s)%Z) by (unfold s, e'; lia).
  set (m' := match s with Zpos _ => Z.shiftl (Zpos mx) s | Z0 => Zpos mx | Zneg _ => 0%Z end).
  assert (Hm' : m' = (Zpos mx * 2 ^ s)%Z).
  { unfold m'. destruct s as [| p | p]; [cbn; lia | | lia].
    apply Z.shiftl_mul_pow2. lia. }
  pose proof (Z_div_mod m' (Zpos my) eq_refl) as DM.
  destruct (Z.div_eucl m' (Zpos my)) as [q r]. destruct DM as [Em Hr].
  assert (Pm' : (0 < m')%Z).
  { rewrite Hm'. apply Z.mul_pos_pos; [lia | apply Z.pow_pos_nonneg; lia]. }
  assert (Hq : (0 <= q)%Z) by nia.
  pose proof (pow2_pos e') as Pe. pose proof (pow2_nz e') as Ne.
  assert (PX : 0 < X).
  { unfold X. apply Qmult_lt_0_compat; [| apply pow2_pos].
    apply Qlt_shift_div_l; [reflexivity | rewrite Qmult_0_l; reflexivity]. }
  assert (Et : X / 2 ^ e' == inject_Z q + inject_Z r / inject_Z (Zpos my)).
  { assert (E1 : inject_Z m' == inject_Z (Zpos my) * inject_Z q + inject_Z r).
    { rewrite Em, inject_Z_plus, inject_Z_mult. reflexivity. }
    assert (E2 : inject_Z m' == inject_Z (Zpos mx) * 2 ^ s).
    { rewrite Hm', inject_Z_mult, <- pow2_Z by lia. reflexivity. }
    assert (E3 : 2 ^ (ex - ey) == 2 ^ s * 2 ^ e').
    { rewrite <- pow2_add. unfold s. replace (ex - ey - e' + e')%Z with (ex - ey)%Z by ring.
      reflexivity. }
    unfold X. rewrite E3.
    setoid_replace (inject_Z (Z.pos mx) / inject_Z (Z.pos my) * (2 ^ s * 2 ^ e') / 2 ^ e')
      with (inject_Z (Zpos mx) * 2 ^ s / inject_Z (Zpos my))
      by (field; split; [discriminate | exact Ne]).
    rewrite <- E2, E1. field. discriminate. }
  pose proof (new_location_describes (Zpos my) q r _ eq_refl Hr Et) as D.
  (* the quotient lies at or above 2 ^ (D - 1) *)
  destruct (Zdigits2_spec (Zpos mx) eq_refl) as [P1 [L1 _]].
  destruct (Zdigits2_spec (Zpos my) eq_refl) as [P2 [_ U2]].
  fold d1 in P1, L1. fold d2 in P2, U2.
  assert (LX : 2 ^ (d1 + ex - (d2 + ey) - 1) <= X).
  { unfold X. replace (d1 + ex - (d2 + ey) - 1)%Z with ((d1 - 1) + (- d2) + (ex - ey))%Z by ring.
    rewrite !pow2_add. apply Qmult_le_compat_r; [| apply Qlt_le_weak, pow2_pos].
    rewrite <- pow2_opp. unfold Qdiv.
    apply Qmult_le_compat_nonneg.
    - split; [apply Qlt_le_weak, pow2_pos |].
      rewrite pow2_Z by lia. rewrite <- Zle_Qle. exact L1.
    - split; [apply Qlt_le_weak, Qinv_lt_0_compat, pow2_pos |].
      apply Qlt_le_weak.
      apply (proj1 (Qinv_lt_contravar (inject_Z (Zpos my)) (2 ^ d2) eq_refl (pow2_pos d2))).
      rewrite pow2_Z by lia. rewrite <- Zlt_Qlt. exact U2. }
  assert (IX : (d1 + ex - (d2 + ey) - 1 <= ilog2 X)%Z).
  { destruct (ilog2_spec X PX) as [_ UX].
    assert (H : 2 ^ (d1 + ex - (d2 + ey) - 1) < 2 ^ (ilog2 X + 1)) by lra.
    apply pow2_lt_inv in H. lia. }
  assert (He : (e' <= ulp_exp X)%Z).
  { unfold e', ulp_exp, prec, emin. rewrite fexp_eq. lia. }
  exists q, e', (new_location (Zpos my) r).
  split; [reflexivity |]. split; [exact Hq |]. split; [exact D |]. split; [exact He |].
  destruct D as [[B1 B2] _]. cbn [shr_m] in B1, B2.
  assert (Hsm : shr_m (shr_record_of_loc q (new_location (Zpos my) r)) = q).
  { destruct (new_location (Zpos my) r) as [| []]; reflexivity. }
  rewrite Hsm in B1, B2.
  destruct (Z.eq_dec q 0) as [Q0 | QN].
  - subst q. cbn [Zdigits2]. rewrite fexp_eq.
    assert (HX : X < 2 ^ e').
    { change (inject_Z 0) with 0 in B2.
      apply (Qmult_lt_r _ _ (/ 2 ^ e')); [apply Qinv_lt_0_compat; exact Pe |].
      setoid_replace (2 ^ e' * / 2 ^ e') with 1 by (field; exact Ne).
      change (X * / 2 ^ e') with (X / 2 ^ e'). lra. }
    pose proof (ilog2_lt X e' PX HX) as IL.
    unfold ulp_exp, prec, emin in *. lia.
  - symmetry. apply ulp_exp_digits; [lia | |].
    + apply (Qmult_le_r _ _ (/ 2 ^ e')); [apply Qinv_lt_0_compat; exact Pe |].
      setoid_replace (inject_Z q * 2 ^ e' * / 2 ^ e') with (inject_Z q) by (field; exact Ne).
      exact B1.
    + apply (Qmult_lt_r _ _ (/ 2 ^ e')); [apply Qinv_lt_0_compat; exact Pe |].
      setoid_replace ((inject_Z q + 1) * 2 ^ e' * / 2 ^ e') with (inject_Z q + 1)
        by (field; exact Ne).
      exact B2.
Qed.

Theorem fdiv_SFdiv (x y : float) : fdiv x y = SFdiv 53 1024 x y.
Proof.
  destruct x as [sx | sx | | sx mx ex]; destruct y as [sy | sy | | sy my ey];
    cbn [fdiv SFdiv sign]; rewrite ?is_zero_finite; try reflexivity.
  destruct (div_core_spec mx my ex ey) as (q & e' & l & E & Hq & D & He & Hf).
  rewrite E.
  set (X := inject_Z (Zpos mx) / inject_Z (Zpos my) * 2 ^ (ex - ey)) in *.
  assert (PX : 0 < X).
  { unfold X. apply Qmult_lt_0_compat; [| apply pow2_pos].
    apply Qlt_shift_div_l; [reflexivity | rewrite Qmult_0_l; reflexivity]. }
  rewrite (round_aux_correct _ q e' l X Hq PX D He Hf).
  apply rnd_signed; [exact PX |].
  unfold X. cbn [val]. unfold Z.sub.
  destruct sx, sy; cbn [xorb]; rewrite pow2_add, <- pow2_opp;
    field; split; try discriminate; apply pow2_nz.
Qed.

Theorem rnd_binary_normalize (z : Z) :
  rnd (inject_Z z) = binary_normalize 53 1024 z 0 false.
Proof.
  rewrite binary_normalize_correct. apply rnd_compat.
  change (2 ^ 0) with 1. ring.
Qed.

(** *** Comparison *)

Lemma magnitude_lt (m1 m2 : positive) (e1 e2 : Z) :
  bounded 53 1024 m1 e1 = true -> bounded 53 1024 m2 e2 = true ->
  (e1 < e2)%Z ->
  inject_Z (Zpos m1) * 2 ^ e1 < inject_Z (Zpos m2) * 2 ^ e2.
Proof.
  intros B1 B2 H.
  destruct (bounded_spec m1 e1 B1) as (D1 & R1 & _ & _).
  destruct (bounded_spec m2 e2 B2) as (D2 & R2 & C2 & _).
  destruct (Zdigits2_spec (Zpos m1) eq_refl) as [_ [_ U1]].
  destruct (Zdigits2_spec (Zpos m2) eq_refl) as [_ [L2 _]].
  assert (E2 : Zdigits2 (Zpos m2) = 53%Z) by lia. rewrite E2 in L2.
  assert (U : (Zpos m1 < 2 ^ 53)%Z).
  { apply Z.lt_le_trans with (2 ^ Zdigits2 (Zpos m1))%Z; [exact U1 |].
    apply Z.pow_le_mono_r; lia. }
  apply Qlt_le_trans with (2 ^ (53 + e1)).
  - rewrite pow2_add, (pow2_Z 53) by lia.
    apply Qmult_lt_compat_r; [apply pow2_pos |]. rewrite <- Zlt_Qlt. exact U.
  - apply Qle_trans with (2 ^ (52 + e2)); [apply pow2_le; lia |].
    rewrite pow2_add, (pow2_Z 52) by lia.
    apply Qmult_le_compat_r; [| apply Qlt_le_weak, pow2_pos].
    rewrite <- Zle_Qle. exact L2.
Qed.

Lemma magnitude_compare (m1 m2 : positive) (e1 e2 : Z) :
  bounded 53 1024 m1 e1 = true -> bounded 53 1024 m2 e2 = true ->
  Qcompare (inject_Z (Zpos m1) * 2 ^ e1) (inject_Z (Zpos m2) * 2 ^ e2) =
    match (e1 ?= e2)%Z with
    | Lt => Lt
    | Gt => Gt
    | Eq => Pos.compare_cont Eq m1 m2
    end.
Proof.
  intros B1 B2. destruct (Z.compare_spec e1 e2) as [E | L | G].
  - subst e2. change (Pos.compare_cont Eq m1 m2) with (Zpos m1 ?= Zpos m2)%Z.
    pose proof (pow2_pos e1) as P.
    destruct (Z.compare_spec (Zpos m1) (Zpos m2)) as [E | L | G].
    + apply (proj1 (Qeq_alt _ _)). rewrite E. reflexivity.
    + apply (proj1 (Qlt_alt _ _)). apply Qmult_lt_compat_r; [exact P |]. rewrite <- Zlt_Qlt. exact L.
    + apply (proj1 (Qgt_alt _ _)). apply Qmult_lt_compat_r; [exact P |]. rewrite <- Zlt_Qlt. exact G.
  - apply (proj1 (Qlt_alt _ _)). apply magnitude_lt; assumption.
  - apply (proj1 (Qgt_alt _ _)). apply magnitude_lt; assumption.
Qed.

Lemma Qcompare_opp (a b : Q) : Qcompare (- a) (- b) = CompOpp (Qcompare a b).
Proof.
  rewrite Qcompare_antisym.
  destruct (Qcompare_spec b a) as [E | L | G].
  - apply (proj1 (Qeq_alt _ _)). rewrite E. reflexivity.
  - apply (proj1 (Qlt_alt _ _)). lra.
  - apply (proj1 (Qgt_alt _ _)). lra.
Qed.

Theorem cmp_SFcompare (x y : float) :
  valid x -> valid y -> cmp (PFloat x) (PFloat y) = SFcompare x y.
Proof.
  intros Vx Vy. unfold cmp.
  destruct x as [sx | sx | | sx mx ex]; destruct y as [sy | sy | | sy my ey];
    cbn [xv SFcompare]; try reflexivity;
    try (destruct sx; try destruct sy; reflexivity).
  - pose proof (val_finite_pos my ey) as P. f_equal. cbn [val].
    destruct sy; [apply (proj1 (Qgt_alt _ _)) | apply (proj1 (Qlt_alt _ _))]; lra.
  - pose proof (val_finite_pos mx ex) as P. f_equal. cbn [val].
    destruct sx; [apply (proj1 (Qlt_alt _ _)) | apply (proj1 (Qgt_alt _ _))]; lra.
  - pose proof (val_finite_pos mx ex) as Px. pose proof (val_finite_pos my ey) as Py.
    f_equal. cbn [val]. destruct sx, sy.
    + setoid_replace (- inject_Z (Z.pos mx) * 2 ^ ex) with (- (inject_Z (Z.pos mx) * 2 ^ ex)) by ring.
      setoid_replace (- inject_Z (Z.pos my) * 2 ^ ey) with (- (inject_Z (Z.pos my) * 2 ^ ey)) by ring.
      rewrite Qcompare_opp, (magnitude_compare mx my ex ey Vx Vy).
      destruct (ex ?= ey)%Z; reflexivity.
    + apply (proj1 (Qlt_alt _ _)). lra.
    + apply (proj1 (Qgt_alt _ _)). lra.
    + apply magnitude_compare; assumption.
Qed.

(** *** Results are valid floats *)

Lemma digits_53 (m : Z) : (2 ^ 52 <= m < 2 ^ 53)%Z -> Zdigits2 m = 53%Z.
Proof.
  intros [L U]. assert (P52 : (0 < 2 ^ 52)%Z) by reflexivity.
  assert (Hm : (0 < m)%Z) by lia.
  destruct (Zdigits2_spec m Hm) as [P [L' U']].
  assert (A : (2 ^ 52 < 2 ^ Zdigits2 m)%Z) by lia.
  assert (B : (2 ^ (Zdigits2 m - 1) < 2 ^ 53)%Z) by lia.
  apply Z.pow_lt_mono_r_iff in A; [| lia | lia].
  apply Z.pow_lt_mono_r_iff in B; [| lia | lia]. lia.
Qed.

Lemma round_pos_canonical (x : Q) :
  0 < x ->
  match fst (round_pos x) with
  | Zpos p => canonical_mantissa 53 1024 p (snd (round_pos x)) = true
  | _ => True
  end.
Proof.
  intros Hx. pose proof (mantissa_bound x Hx) as [B0 B1].
  pose proof (ulp_exp_ge_emin x) as Hu. unfold emin in Hu.
  unfold round_pos. set (u := ulp_exp x) in *. set (m := rhe (x / 2 ^ u)) in *.
  destruct (Z.eqb_spec m (2 ^ prec)) as [C | NC]; cbn [fst snd].
  - change (2 ^ (prec - 1))%Z with 4503599627370496%Z. cbv iota.
    unfold canonical_mantissa. apply Z.eqb_eq. rewrite fexp_eq.
    change (Zpos (digits2_pos 4503599627370496)) with 53%Z. lia.
  - destruct m as [| p | p] eqn:Em; [exact I | | exact I].
    unfold canonical_mantissa. apply Z.eqb_eq. rewrite fexp_eq.
    change (Zpos (digits2_pos p)) with (Zdigits2 (Zpos p)).
    unfold prec in NC.
    destruct (Z.eq_dec u (-1074)) as [E | NE].
    + destruct (Zdigits2_spec (Zpos p) eq_refl) as [P [L _]].
      assert (H : (2 ^ (Zdigits2 (Zpos p) - 1) < 2 ^ 53)%Z) by lia.
      apply Z.pow_lt_mono_r_iff in H; lia.
    + assert (Eu : u = ulp_exp x) by reflexivity.
      unfold ulp_exp, prec, emin in Eu.
      assert (Hi : u = (ilog2 x - 52)%Z) by lia.
      destruct (ilog2_spec x Hx) as [L _].
      assert (H : (2 ^ 52 <= Zpos p)%Z).
      { rewrite <- Em. apply rhe_ge. apply scale_ge.
        rewrite <- pow2_Z by lia. rewrite <- pow2_add.
        replace (52 + u)%Z with (ilog2 x) by lia. exact L. }
      rewrite (digits_53 (Zpos p)) by lia. lia.
Qed.

Lemma mkfloat_valid (s : bool) (x : Q) : 0 < x -> valid (mkfloat s (round_pos x)).
Proof.
  intros Hx. pose proof (round_pos_canonical x Hx) as C.
  unfold valid, mkfloat. destruct (fst (round_pos x)) as [| p | p]; try reflexivity.
  destruct (Z.leb_spec (snd (round_pos x)) (emax - prec)) as [L | G]; [| reflexivity].
  cbn [valid_binary]. unfold bounded. rewrite C. apply Z.leb_le. exact L.
Qed.

Theorem rnd_valid (x : Q) : valid (rnd x).
Proof.
  unfold rnd. destruct (Qcompare_spec x 0) as [E | L | G].
  - reflexivity.
  - apply mkfloat_valid. lra.
  - apply mkfloat_valid. exact G.
Qed.

Theorem operations_valid (x y : float) :
  valid x -> valid y ->
  valid (fadd x y) /\ valid (fsub x y) /\ valid (fmul x y) /\ valid (fdiv x y).
Proof.
  intros Vx Vy.
  assert (Vn : valid (fneg y)) by (destruct y; exact Vy).
  assert (A : forall a b, valid a -> valid b -> valid (fadd a b)).
  { intros a b Va Vb. destruct a, b; cbn [fadd]; try apply rnd_valid; try reflexivity;
      try assumption; destruct (Bool.eqb _ _); try reflexivity; assumption. }
  split; [apply A; assumption |]. split; [apply A; assumption |]. split.
  - destruct x, y; cbn [fmul];
      repeat match goal with
      | |- context [if ?c then _ else _] => destruct c
      end; try apply rnd_valid; reflexivity.
  - destruct x, y; cbn [fdiv];
      repeat match goal with
      | |- context [if ?c then _ else _] => destruct c
      end; try apply rnd_valid; reflexivity.
Qed.

End SpecFloatAgreement.

(** ** What [calculate_metrics] computes *)
Module MetricsFacts.

Import Binary64 Py Rounding Abstraction Vocabulary RoundingFacts PyFacts.
Local Open Scope Q_scope.

Lemma int_within' (z lo hi : Z) : (lo <= z <= hi)%Z -> within lo hi (PInt z).
Proof. intros H. apply (within_weaken z z); [apply int_within | lia | lia]. Qed.

Ltac run L :=
  let v := fresh "v" in let E := fresh "E" in
  let W := fresh "W" in let V := fresh "V" in
  destruct L as (v & E & W & V); [try lia; try (apply int_within'; lia) .. |];
  rewrite E; cbn [bind]; cbn [numval] in V.

Lemma calculate_metrics_spec (self : LoyaltyTracker) (s d m : num) :
  exists ts ev au pi h : num,
    (within 0 10 ts /\ within 0 10 ev /\ within 0 10 au /\
     within 0 10 pi /\ within 0 100 h) /\
    (numval ts == tsQ (numval (clamp s)) (numval (clamp m)) /\
     numval ev == evQ (numval (clamp d)) (numval (clamp m)) /\
     numval au == auQ (numval (clamp d)) (numval (clamp m)) /\
     numval pi == piQ (numval (clamp d)) (numval (clamp m)) /\
     numval h == hQ (numval (clamp s)) (numval (clamp d)) (numval (clamp m))) /\
    calculate_metrics self s d m =
      Ok {| timestamp := Z.of_nat (List.length (history self)) + 1;
            satisfaction := clamp s;
            true_satisfaction := py_round ts 2;
            dependency := clamp d;
            manipulation := clamp m;
            emotional_vulnerability := py_round ev 2;
            autonomy := py_round au 2;
            power_imbalance := py_round pi 2;
            health_score := py_round h 1;
            loyalty_state := determine_state (loyalty_states self) h "Toxic";
            risk_factors :=
              append_if (py_lt au (PInt 3)) "Low Autonomy"
                (append_if (py_lt ts (PInt 4)) "Low Satisfaction"
                   (append_if (py_gt (clamp d) (PInt 7)) "High Dependency"
                      (append_if (py_gt (clamp m) (PInt 6)) "High Manipulation" []))) |}.
Proof.
  unfold calculate_metrics. cbv zeta.
  change (py_max (PInt 0) (py_min (PInt 10) s)) with (clamp s).
  change (py_max (PInt 0) (py_min (PInt 10) d)) with (clamp d).
  change (py_max (PInt 0) (py_min (PInt 10) m)) with (clamp m).
  pose proof (clamp_within s) as Ws. pose proof (clamp_within d) as Wd.
  pose proof (clamp_within m) as Wm.
  set (cs := clamp s) in *. set (cd := clamp d) in *. set (cm := clamp m) in *.
  assert (L7 : within 0 1 (lit (7 # 10))) by (apply lit_within; lra).
  assert (L3 : within 0 1 (lit (3 # 10))) by (apply lit_within; lra).
  assert (L5 : within 0 1 (lit (5 # 10))) by (apply lit_within; lra).
  assert (L6 : within 0 1 (lit (6 # 10))) by (apply lit_within; lra).
  assert (L4 : within 0 1 (lit (4 # 10))) by (apply lit_within; lra).
  (* true_satisfaction *)
  run (py_truediv_spec cm 15 10 1 Wm).
  rename v into t1, W into Wt1, V into Vt1.
  run (py_sub_spec (PInt 1) t1 1 1 0 1 (int_within 1) Wt1).
  rename v into t2, W into Wt2, V into Vt2. change (within 0 1 t2) in Wt2.
  run (py_mul_spec cs t2 10 1 Ws Wt2).
  rename v into ts, W into Wts, V into Vts. change (within 0 10 ts) in Wts.
  (* emotional_vulnerability *)
  run (py_mul_spec cd _ 10 1 Wd L7).
  rename v into e1, W into We1, V into Ve1. change (within 0 10 e1) in We1.
  run (py_mul_spec cm _ 10 1 Wm L3).
  rename v into e2, W into We2, V into Ve2. change (within 0 10 e2) in We2.
  run (py_add_spec e1 e2 0 10 0 10 We1 We2).
  rename v into e3, W into We3, V into Ve3. change (within 0 20 e3) in We3.
  destruct (py_min_spec (PInt 10) e3 10 10 0 20 (int_within 10) We3) as [Wev Vev].
  change (within 0 10 (py_min (PInt 10) e3)) in Wev. cbn [numval] in Vev.
  set (ev := py_min (PInt 10) e3) in *.
  (* autonomy *)
  run (py_mul_spec cd _ 10 1 Wd L5).
  rename v into a1, W into Wa1, V into Va1. change (within 0 10 a1) in Wa1.
  run (py_mul_spec cm _ 10 1 Wm L5).
  rename v into a2, W into Wa2, V into Va2. change (within 0 10 a2) in Wa2.
  run (py_add_spec a1 a2 0 10 0 10 Wa1 Wa2).
  rename v into a3, W into Wa3, V into Va3. change (within 0 20 a3) in Wa3.
  run (py_sub_spec (PInt 10) a3 10 10 0 20 (int_within 10) Wa3).
  rename v into a4, W into Wa4, V into Va4. change (within (-10) 10 a4) in Wa4.
  destruct (py_max_spec (PInt 0) a4 0 0 (-10) 10 (int_within 0) Wa4) as [Wau Vau].
  change (within 0 10 (py_max (PInt 0) a4)) in Wau. cbn [numval] in Vau.
  set (au := py_max (PInt 0) a4) in *.
  (* power_imbalance *)
  run (py_mul_spec cm _ 10 1 Wm L6).
  rename v into p1, W into Wp1, V into Vp1. change (within 0 10 p1) in Wp1.
  run (py_mul_spec cd _ 10 1 Wd L4).
  rename v into p2, W into Wp2, V into Vp2. change (within 0 10 p2) in Wp2.
  run (py_add_spec p1 p2 0 10 0 10 Wp1 Wp2).
  rename v into p3, W into Wp3, V into Vp3. change (within 0 20 p3) in Wp3.
  destruct (py_min_spec (PInt 10) p3 10 10 0 20 (int_within 10) Wp3) as [Wpi Vpi].
  change (within 0 10 (py_min (PInt 10) p3)) in Wpi. cbn [numval] in Vpi.
  set (pi := py_min (PInt 10) p3) in *.
  (* health_score *)
  run (py_truediv_spec ts 10 10 1 Wts).
  rename v into q1, W into Wq1, V into Vq1.
  run (py_mul_spec q1 (PInt 30) 1 30 Wq1).
  rename v into w1, W into Ww1, V into Vw1. change (within 0 30 w1) in Ww1.
  run (py_truediv_spec au 10 10 1 Wau).
  rename v into q2, W into Wq2, V into Vq2.
  run (py_mul_spec q2 (PInt 25) 1 25 Wq2).
  rename v into w2, W into Ww2, V into Vw2. change (within 0 25 w2) in Ww2.
  run (py_sub_spec (PInt 10) cd 10 10 0 10 (int_within 10) Wd).
  rename v into d3, W into Wd3, V into Vd3. change (within 0 10 d3) in Wd3.
  run (py_truediv_spec d3 10 10 1 Wd3).
  rename v into q3, W into Wq3, V into Vq3.
  run (py_mul_spec q3 (PInt 25) 1 25 Wq3).
  rename v into w3, W into Ww3, V into Vw3. change (within 0 25 w3) in Ww3.
  run (py_sub_spec (PInt 10) pi 10 10 0 10 (int_within 10) Wpi).
  rename v into d4, W into Wd4, V into Vd4. change (within 0 10 d4) in Wd4.
  run (py_truediv_spec d4 10 10 1 Wd4).
  rename v into q4, W into Wq4, V into Vq4.
  run (py_mul_spec q4 (PInt 20) 1 20 Wq4).
  rename v into w4, W into Ww4, V into Vw4. change (within 0 20 w4) in Ww4.
  run (py_add_spec w1 w2 0 30 0 25 Ww1 Ww2).
  rename v into s12, W into Ws12, V into Vs12. change (within 0 55 s12) in Ws12.
  run (py_add_spec s12 w3 0 55 0 25 Ws12 Ww3).
  rename v into s123, W into Ws123, V into Vs123. change (within 0 80 s123) in Ws123.
  run (py_add_spec s123 w4 0 80 0 20 Ws123 Ww4).
  rename v into h, W into Wh, V into Vh. change (within 0 100 h) in Wh.
  exists ts, ev, au, pi, h.
  split; [repeat split; assumption || apply Wts || apply Wev || apply Wau || apply Wpi || apply Wh |].
  assert (Ets : numval ts == tsQ (numval cs) (numval cm)).
  { unfold tsQ. rewrite Vts, Vt2, Vt1. reflexivity. }
  assert (Eev : numval ev == evQ (numval cd) (numval cm)).
  { unfold evQ, lval. rewrite Vev, Ve3, Ve1, Ve2. reflexivity. }
  assert (Eau : numval au == auQ (numval cd) (numval cm)).
  { unfold auQ, lval. rewrite Vau, Va4, Va3, Va1, Va2. reflexivity. }
  assert (Epi : numval pi == piQ (numval cd) (numval cm)).
  { unfold piQ, lval. rewrite Vpi, Vp3, Vp1, Vp2. reflexivity. }
  split; [| reflexivity].
  repeat split; try assumption.
  unfold hQ. cbv zeta. rewrite <- Ets, <- Eau, <- Epi.
  rewrite Vh, Vs123, Vs12, Vw1, Vq1, Vw2, Vq2, Vw3, Vq3, Vd3, Vw4, Vq4, Vd4.
  reflexivity.
Qed.

(** ** Monotonicity of the rational metrics *)

Lemma Qmult_le_l' (x y z : Q) : 0 <= z -> x <= y -> z * x <= z * y.
Proof.
  intros Hz H. rewrite (Qmult_comm z x), (Qmult_comm z y).
  apply Qmult_le_compat_r; assumption.
Qed.

Lemma roundQ_mono (n : nat) (x y : Q) : x <= y -> roundQ n x <= roundQ n y.
Proof.
  intros H. unfold roundQ. set (P := (10 ^ Z.of_nat n)%Z).
  assert (HP : (0 < P)%Z) by (apply Z.pow_pos_nonneg; lia).
  assert (Pp : 0 < inject_Z P).
  { change 0 with (inject_Z 0). rewrite <- Zlt_Qlt. exact HP. }
  apply RQ_mono. apply Qmult_le_compat_r.
  - rewrite <- Zle_Qle. apply rhe_mono.
    apply Qmult_le_compat_r; [exact H | apply Qlt_le_weak, Pp].
  - apply Qlt_le_weak, Qinv_lt_0_compat, Pp.
Qed.

Lemma lval_nonneg (q : Q) : 0 <= q <= 1 -> 0 <= lval q.
Proof. intros H. destruct (lit_within q H) as [_ [B _]]. exact B. Qed.

Lemma discount_nonneg (m : Q) : 0 <= m <= 10 -> 0 <= RQ (1 - RQ (m / 15)).
Proof.
  intros Hm. apply RQ_nonneg.
  assert (B : inject_Z 0 <= m / 15 <= inject_Z 1).
  { change (inject_Z 0) with 0. change (inject_Z 1) with 1.
    change (m / 15) with (m * (1 # 15)). lra. }
  destruct (RQ_between 0 1 _ ltac:(lia) ltac:(lia) B) as [_ U].
  change (inject_Z 1) with 1 in U. lra.
Qed.

Lemma tsQ_mono_s (s1 s2 m : Q) :
  0 <= m <= 10 -> s1 <= s2 -> tsQ s1 m <= tsQ s2 m.
Proof.
  intros Hm H. unfold tsQ. apply RQ_mono.
  apply Qmult_le_compat_r; [exact H | apply discount_nonneg; exact Hm].
Qed.

Lemma tsQ_anti_m (s m1 m2 : Q) :
  0 <= s -> m1 <= m2 -> tsQ s m2 <= tsQ s m1.
Proof.
  intros Hs H. unfold tsQ. apply RQ_mono.
  apply Qmult_le_l'; [exact Hs |].
  apply RQ_mono.
  assert (M : RQ (m1 / 15) <= RQ (m2 / 15)).
  { apply RQ_mono. change (m1 / 15) with (m1 * (1 # 15)).
    change (m2 / 15) with (m2 * (1 # 15)). lra. }
  lra.
Qed.

Lemma weighted_mono (c x y : Q) :
  0 <= c -> x <= y -> RQ (RQ (x / 10) * c) <= RQ (RQ (y / 10) * c).
Proof.
  intros Hc H. apply RQ_mono. apply Qmult_le_compat_r; [| exact Hc].
  apply RQ_mono. change (x / 10) with (x * (1 # 10)).
  change (y / 10) with (y * (1 # 10)). lra.
Qed.

Lemma blend_mono (d1 d2 m1 m2 c1 c2 : Q) :
  0 <= c1 -> 0 <= c2 -> d1 <= d2 -> m1 <= m2 ->
  RQ (RQ (d1 * c1) + RQ (m1 * c2)) <= RQ (RQ (d2 * c1) + RQ (m2 * c2)).
Proof.
  intros H1 H2 Hd Hm. apply RQ_mono.
  assert (A : RQ (d1 * c1) <= RQ (d2 * c1)).
  { apply RQ_mono. apply Qmult_le_compat_r; assumption. }
  assert (B : RQ (m1 * c2) <= RQ (m2 * c2)).
  { apply RQ_mono. apply Qmult_le_compat_r; assumption. }
  lra.
Qed.

Lemma half_nonneg : 0 <= lval (5 # 10).
Proof. apply lval_nonneg. lra. Qed.

Lemma auQ_anti (d1 d2 m1 m2 : Q) :
  d1 <= d2 -> m1 <= m2 -> auQ d2 m2 <= auQ d1 m1.
Proof.
  intros Hd Hm. unfold auQ. apply Q.max_le_compat_l. apply RQ_mono.
  pose proof (blend_mono d1 d2 m1 m2 _ _ half_nonneg half_nonneg Hd Hm). lra.
Qed.

Lemma piQ_mono (d1 d2 m1 m2 : Q) :
  d1 <= d2 -> m1 <= m2 -> piQ d1 m1 <= piQ d2 m2.
Proof.
  intros Hd Hm. unfold piQ. apply Q.min_le_compat_l.
  apply blend_mono; try assumption; apply lval_nonneg; lra.
Qed.

Lemma hQ_mono (s1 s2 d1 d2 m1 m2 : Q) :
  tsQ s1 m1 <= tsQ s2 m2 -> d2 <= d1 -> m2 <= m1 ->
  hQ s1 d1 m1 <= hQ s2 d2 m2.
Proof.
  intros Hts Hd Hm. unfold hQ. cbv zeta.
  assert (W1 : RQ (RQ (tsQ s1 m1 / 10) * 30) <= RQ (RQ (tsQ s2 m2 / 10) * 30)).
  { apply weighted_mono; [lra | exact Hts]. }
  assert (W2 : RQ (RQ (auQ d1 m1 / 10) * 25) <= RQ (RQ (auQ d2 m2 / 10) * 25)).
  { apply weighted_mono; [lra | apply auQ_anti; assumption]. }
  assert (W3 : RQ (RQ (RQ (10 - d1) / 10) * 25) <= RQ (RQ (RQ (10 - d2) / 10) * 25)).
  { apply weighted_mono; [lra | apply RQ_mono; lra]. }
  assert (W4 : RQ (RQ (RQ (10 - piQ d1 m1) / 10) * 20)
               <= RQ (RQ (RQ (10 - piQ d2 m2) / 10) * 20)).
  { apply weighted_mono; [lra |]. apply RQ_mono.
    pose proof (piQ_mono d2 d1 m2 m1 Hd Hm). lra. }
  apply RQ_mono.
  assert (S12 : RQ (RQ (RQ (tsQ s1 m1 / 10) * 30) + RQ (RQ (auQ d1 m1 / 10) * 25))
                <= RQ (RQ (RQ (tsQ s2 m2 / 10) * 30) + RQ (RQ (auQ d2 m2 / 10) * 25))).
  { apply RQ_mono. lra. }
  assert (S123 :
    RQ (RQ (RQ (RQ (tsQ s1 m1 / 10) * 30) + RQ (RQ (auQ d1 m1 / 10) * 25))
        + RQ (RQ (RQ (10 - d1) / 10) * 25))
    <= RQ (RQ (RQ (RQ (tsQ s2 m2 / 10) * 30) + RQ (RQ (auQ d2 m2 / 10) * 25))
        + RQ (RQ (RQ (10 - d2) / 10) * 25))).
  { apply RQ_mono. lra. }
  lra.
Qed.

End MetricsFacts.

(** ** Facts about the tracker's methods *)
Module TrackerFacts.

Import Binary64 Py Rounding Abstraction Vocabulary RoundingFacts PyFacts MetricsFacts.
Local Open Scope list_scope.
Local Open Scope Q_scope.

(** *** Ranges and the rounded health score *)

Lemma within_in_range (lo hi : Z) (v : num) :
  within lo hi v -> in_range lo hi v = true.
Proof.
  intros [F [B1 B2]]. unfold in_range. apply andb_true_iff. split.
  - apply py_le_fin; [reflexivity | exact F | exact B1].
  - apply py_le_fin; [exact F | reflexivity | exact B2].
Qed.

Lemma health_score_spec (self : LoyaltyTracker) (s d m : num) :
  exists r, calculate_metrics self s d m = Ok r /\
    is_fin (health_score r) = true /\
    numval (health_score r)
      == roundQ 1 (hQ (numval (clamp s)) (numval (clamp d)) (numval (clamp m))).
Proof.
  destruct (calculate_metrics_spec self s d m)
    as (ts & ev & au & pi & h & (_ & _ & _ & _ & Wh) & (_ & _ & _ & _ & Vh) & E).
  eexists. split; [exact E |]. cbn [health_score].
  destruct (py_round_spec h 1 0 100 Wh ltac:(lia) ltac:(lia)) as [[F _] V].
  split; [exact F |]. rewrite V.
  apply Qle_antisym; apply roundQ_mono; rewrite Vh; apply Qle_refl.
Qed.

Lemma health_le (self : LoyaltyTracker) (s1 d1 m1 s2 d2 m2 : num) :
  hQ (numval (clamp s1)) (numval (clamp d1)) (numval (clamp m1))
    <= hQ (numval (clamp s2)) (numval (clamp d2)) (numval (clamp m2)) ->
  exists r1 r2,
    calculate_metrics self s1 d1 m1 = Ok r1 /\
    calculate_metrics self s2 d2 m2 = Ok r2 /\
    py_le (health_score r1) (health_score r2) = true.
Proof.
  intros H.
  destruct (health_score_spec self s1 d1 m1) as (r1 & E1 & F1 & V1).
  destruct (health_score_spec self s2 d2 m2) as (r2 & E2 & F2 & V2).
  exists r1, r2. split; [exact E1 |]. split; [exact E2 |].
  apply py_le_fin; try assumption. rewrite V1, V2. apply roundQ_mono. exact H.
Qed.

Lemma clamp_range (a : num) : 0 <= numval (clamp a) <= 10.
Proof. destruct (clamp_within a) as [_ B]. exact B. Qed.

(** *** State selection *)

Lemma cmp_antisym (a b : num) : cmp b a = option_map CompOpp (cmp a b).
Proof.
  unfold cmp. destruct (xv a) as [| | p |]; destruct (xv b) as [| | q |];
    try reflexivity.
  cbn [option_map]. rewrite <- Qcompare_antisym. reflexivity.
Qed.

Lemma py_ge_le (a b : num) : py_ge a b = py_le b a.
Proof.
  unfold py_ge, py_le. rewrite (cmp_antisym a b).
  destruct (cmp a b) as [[| |] |]; reflexivity.
Qed.

Lemma determine_state_spec (table : list (string * StateProps)) (h : num)
    (default : string) :
  determine_state table h default =
    match find (matches h) table with
    | Some (state, _) => state
    | None => default
    end.
Proof.
  induction table as [| [state props] rest IH]; [reflexivity |].
  cbn [determine_state find]. unfold matches at 1. cbn [snd].
  rewrite py_ge_le. destruct (py_le (threshold props) h); [reflexivity | exact IH].
Qed.

Lemma selected_find (table : list (string * StateProps)) (h : num) (state : string) :
  selected table h state ->
  exists props, find (matches h) table = Some (state, props).
Proof.
  intros (pre & props & post & E & Hpre & Hm). subst table. exists props.
  induction pre as [| q pre IH]; cbn [app find].
  - rewrite Hm. reflexivity.
  - cbn [forallb] in Hpre. apply andb_true_iff in Hpre. destruct Hpre as [Hq Hpre].
    apply negb_true_iff in Hq. rewrite Hq. apply IH. exact Hpre.
Qed.

Lemma find_selected (table : list (string * StateProps)) (h : num)
    (state : string) (props : StateProps) :
  find (matches h) table = Some (state, props) -> selected table h state.
Proof.
  induction table as [| q rest IH]; [discriminate |].
  cbn [find]. destruct (matches h q) eqn:Hq.
  - intros E. injection E as E. subst q.
    exists [], props, rest. repeat split. exact Hq.
  - intros E. destruct (IH E) as (pre & p & post & E' & Hpre & Hm).
    exists (q :: pre), p, post. split; [rewrite E'; reflexivity |].
    split; [| exact Hm]. cbn [forallb]. rewrite Hq, Hpre. reflexivity.
Qed.

(** *** The history log *)

Lemma calculate_metrics_total (self : LoyaltyTracker) (s d m : num) :
  exists r, calculate_metrics self s d m = Ok r /\
    timestamp r = (Z.of_nat (List.length (history self)) + 1)%Z.
Proof.
  destruct (calculate_metrics_spec self s d m)
    as (ts & ev & au & pi & h & _ & _ & E).
  eexists. split; [exact E | reflexivity].
Qed.

Lemma add_measurement_spec (self : LoyaltyTracker) (s d m : num) :
  exists r,
    calculate_metrics self s d m = Ok r /\
    timestamp r = (Z.of_nat (List.length (history self)) + 1)%Z /\
    add_measurement self s d m =
      Ok (None, {| name := name self;
                   history := history self ++ [r];
                   loyalty_states := loyalty_states self |}).
Proof.
  destruct (calculate_metrics_total self s d m) as (r & E & T).
  exists r. split; [exact E |]. split; [exact T |].
  unfold add_measurement. rewrite E. reflexivity.
Qed.

Lemma add_all_spec (scenarios : list (num * num * num)) :
  forall self : LoyaltyTracker,
  exists (t : LoyaltyTracker) (news : list MetricRecord),
    add_all self scenarios = Ok t /\
    history t = history self ++ news /\
    name t = name self /\ loyalty_states t = loyalty_states self /\
    List.length news = List.length scenarios /\
    (forall i r, nth_error news i = Some r ->
       timestamp r = (Z.of_nat (List.length (history self) + i) + 1)%Z) /\
    (forall k, exists tk,
       add_all self (firstn k scenarios) = Ok tk /\
       history tk = history self ++ firstn k news).
Proof.
  induction scenarios as [| [[s d] m] rest IH]; intros self.
  - exists self, []. cbn [add_all]. rewrite app_nil_r.
    repeat split; try reflexivity.
    + intros i r H. destruct i; discriminate.
    + intros k. exists self. rewrite !firstn_nil, app_nil_r. split; reflexivity.
  - destruct (add_measurement_spec self s d m) as (r & _ & T & E).
    set (t1 := {| name := name self; history := history self ++ [r];
                  loyalty_states := loyalty_states self |}) in *.
    destruct (IH t1) as (t & news & Et & Ht & Hn & Hl & Hlen & Hts & Hpre).
    exists t, (r :: news). cbn [add_all]. rewrite E. cbn [bind snd].
    split; [exact Et |].
    split; [rewrite Ht; unfold t1; cbn [history]; rewrite <- app_assoc; reflexivity |].
    split; [exact Hn |]. split; [exact Hl |].
    split; [cbn [List.length]; rewrite Hlen; reflexivity |].
    split.
    + intros i x H. destruct i as [| i].
      * cbn in H. injection H as H. subst x. rewrite T. rewrite Nat.add_0_r. reflexivity.
      * cbn [nth_error] in H. rewrite (Hts i x H). unfold t1. cbn [history].
        rewrite length_app. cbn [List.length]. f_equal. f_equal. lia.
    + intros [| k].
      * exists self. cbn [firstn add_all]. rewrite app_nil_r. split; reflexivity.
      * destruct (Hpre k) as (tk & Ek & Hk). exists tk.
        cbn [firstn add_all]. rewrite E. cbn [bind snd]. split; [exact Ek |].
        rewrite Hk. unfold t1. cbn [history]. rewrite <- app_assoc. reflexivity.
Qed.

Lemma add_measurement_none (self : LoyaltyTracker) (s d m : num)
    (r : MetricRecord) (t : LoyaltyTracker) :
  add_measurement self s d m <> Ok (Some r, t).
Proof.
  intros E. destruct (add_measurement_spec self s d m) as (r' & _ & _ & E').
  rewrite E' in E. discriminate.
Qed.

(** *** Dependence on the object's state *)

Lemma calculate_metrics_history (n1 n2 : string) (h1 h2 : list MetricRecord)
    (table : list (string * StateProps)) (s d m : num) :
  match calculate_metrics (mkTracker n1 h1 table) s d m with
  | Ok r =>
      calculate_metrics (mkTracker n2 h2 table) s d m
        = Ok (with_timestamp r (Z.of_nat (List.length h2) + 1))
  | Raise e => calculate_metrics (mkTracker n2 h2 table) s d m = Raise e
  end.
Proof.
  unfold calculate_metrics. cbv zeta. cbn [loyalty_states history].
  repeat match goal with
  | |- context [bind ?c _] => destruct c; cbn [bind]
  end; reflexivity.
Qed.

(** *** Non-finite inputs *)

Lemma clamp_nonfinite (x : nonfinite) :
  clamp (nonfinite_num x) = nonfinite_clamped x.
Proof. destruct x; reflexivity. Qed.

Lemma clamp_nonfinite_clamped (x : nonfinite) :
  clamp (nonfinite_clamped x) = nonfinite_clamped x.
Proof. destruct x; reflexivity. Qed.

Lemma calculate_metrics_clamp (self : LoyaltyTracker) (s d m s' d' m' : num) :
  clamp s = clamp s' -> clamp d = clamp d' -> clamp m = clamp m' ->
  calculate_metrics self s d m = calculate_metrics self s' d' m'.
Proof.
  intros Hs Hd Hm. unfold calculate_metrics. cbv zeta.
  change (py_max (PInt 0) (py_min (PInt 10) s)) with (clamp s).
  change (py_max (PInt 0) (py_min (PInt 10) d)) with (clamp d).
  change (py_max (PInt 0) (py_min (PInt 10) m)) with (clamp m).
  change (py_max (PInt 0) (py_min (PInt 10) s')) with (clamp s').
  change (py_max (PInt 0) (py_min (PInt 10) d')) with (clamp d').
  change (py_max (PInt 0) (py_min (PInt 10) m')) with (clamp m').
  rewrite Hs, Hd, Hm. reflexivity.
Qed.

Lemma calculate_metrics_inputs (self : LoyaltyTracker) (s d m : num) :
  exists r, calculate_metrics self s d m = Ok r /\
    satisfaction r = clamp s /\ dependency r = clamp d /\ manipulation r = clamp m.
Proof.
  destruct (calculate_metrics_spec self s d m)
    as (ts & ev & au & pi & h & _ & _ & E).
  eexists. split; [exact E |]. repeat split.
Qed.

(** *** The health score before rounding *)

(** [calculate_metrics] classifies and rounds the value of
    [unrounded_health_score]: the two run the same statements. *)
Lemma calculate_metrics_classifies (self : LoyaltyTracker) (s d m : num) :
  match unrounded_health_score s d m with
  | Ok h =>
      exists r,
        calculate_metrics self s d m = Ok r /\
        health_score r = py_round h 1 /\
        loyalty_state r = determine_state (loyalty_states self) h "Toxic"
  | Raise e => calculate_metrics self s d m = Raise e
  end.
Proof.
  unfold unrounded_health_score, calculate_metrics. cbv zeta.
  repeat match goal with
  | |- context [bind ?c _] => destruct c; cbn [bind]; [| reflexivity]
  end.
  eexists. split; [reflexivity |]. split; reflexivity.
Qed.

Lemma unrounded_health_score_spec (s d m : num) :
  exists h, unrounded_health_score s d m = Ok h /\ within 0 100 h.
Proof.
  unfold unrounded_health_score. cbv zeta.
  change (py_max (PInt 0) (py_min (PInt 10) s)) with (clamp s).
  change (py_max (PInt 0) (py_min (PInt 10) d)) with (clamp d).
  change (py_max (PInt 0) (py_min (PInt 10) m)) with (clamp m).
  pose proof (clamp_within s) as Ws. pose proof (clamp_within d) as Wd.
  pose proof (clamp_within m) as Wm.
  set (cs := clamp s) in *. set (cd := clamp d) in *. set (cm := clamp m) in *.
  assert (L7 : within 0 1 (lit (7 # 10))) by (apply lit_within; lra).
  assert (L3 : within 0 1 (lit (3 # 10))) by (apply lit_within; lra).
  assert (L5 : within 0 1 (lit (5 # 10))) by (apply lit_within; lra).
  assert (L6 : within 0 1 (lit (6 # 10))) by (apply lit_within; lra).
  assert (L4 : within 0 1 (lit (4 # 10))) by (apply lit_within; lra).
  (* true_satisfaction *)
  run (py_truediv_spec cm 15 10 1 Wm).
  rename v into t1, W into Wt1, V into Vt1.
  run (py_sub_spec (PInt 1) t1 1 1 0 1 (int_within 1) Wt1).
  rename v into t2, W into Wt2, V into Vt2. change (within 0 1 t2) in Wt2.
  run (py_mul_spec cs t2 10 1 Ws Wt2).
  rename v into ts, W into Wts, V into Vts. change (within 0 10 ts) in Wts.
  (* emotional_vulnerability *)
  run (py_mul_spec cd _ 10 1 Wd L7).
  rename v into e1, W into We1, V into Ve1. change (within 0 10 e1) in We1.
  run (py_mul_spec cm _ 10 1 Wm L3).
  rename v into e2, W into We2, V into Ve2. change (within 0 10 e2) in We2.
  run (py_add_spec e1 e2 0 10 0 10 We1 We2).
  rename v into e3, W into We3, V into Ve3.
  (* autonomy *)
  run (py_mul_spec cd _ 10 1 Wd L5).
  rename v into a1, W into Wa1, V into Va1. change (within 0 10 a1) in Wa1.
  run (py_mul_spec cm _ 10 1 Wm L5).
  rename v into a2, W into Wa2, V into Va2. change (within 0 10 a2) in Wa2.
  run (py_add_spec a1 a2 0 10 0 10 Wa1 Wa2).
  rename v into a3, W into Wa3, V into Va3. change (within 0 20 a3) in Wa3.
  run (py_sub_spec (PInt 10) a3 10 10 0 20 (int_within 10) Wa3).
  rename v into a4, W into Wa4, V into Va4. change (within (-10) 10 a4) in Wa4.
  destruct (py_max_spec (PInt 0) a4 0 0 (-10) 10 (int_within 0) Wa4) as [Wau _].
  change (within 0 10 (py_max (PInt 0) a4)) in Wau.
  set (au := py_max (PInt 0) a4) in *.
  (* power_imbalance *)
  run (py_mul_spec cm _ 10 1 Wm L6).
  rename v into p1, W into Wp1, V into Vp1. change (within 0 10 p1) in Wp1.
  run (py_mul_spec cd _ 10 1 Wd L4).
  rename v into p2, W into Wp2, V into Vp2. change (within 0 10 p2) in Wp2.
  run (py_add_spec p1 p2 0 10 0 10 Wp1 Wp2).
  rename v into p3, W into Wp3, V into Vp3. change (within 0 20 p3) in Wp3.
  destruct (py_min_spec (PInt 10) p3 10 10 0 20 (int_within 10) Wp3) as [Wpi _].
  change (within 0 10 (py_min (PInt 10) p3)) in Wpi.
  set (pi := py_min (PInt 10) p3) in *.
  (* health_score *)
  run (py_truediv_spec ts 10 10 1 Wts).
  rename v into q1, W into Wq1, V into Vq1.
  run (py_mul_spec q1 (PInt 30) 1 30 Wq1).
  rename v into w1, W into Ww1, V into Vw1. change (within 0 30 w1) in Ww1.
  run (py_truediv_spec au 10 10 1 Wau).
  rename v into q2, W into Wq2, V into Vq2.
  run (py_mul_spec q2 (PInt 25) 1 25 Wq2).
  rename v into w2, W into Ww2, V into Vw2. change (within 0 25 w2) in Ww2.
  run (py_sub_spec (PInt 10) cd 10 10 0 10 (int_within 10) Wd).
  rename v into d3, W into Wd3, V into Vd3. change (within 0 10 d3) in Wd3.
  run (py_truediv_spec d3 10 10 1 Wd3).
  rename v into q3, W into Wq3, V into Vq3.
  run (py_mul_spec q3 (PInt 25) 1 25 Wq3).
  rename v into w3, W into Ww3, V into Vw3. change (within 0 25 w3) in Ww3.
  run (py_sub_spec (PInt 10) pi 10 10 0 10 (int_within 10) Wpi).
  rename v into d4, W into Wd4, V into Vd4. change (within 0 10 d4) in Wd4.
  run (py_truediv_spec d4 10 10 1 Wd4).
  rename v into q4, W into Wq4, V into Vq4.
  run (py_mul_spec q4 (PInt 20) 1 20 Wq4).
  rename v into w4, W into Ww4, V into Vw4. change (within 0 20 w4) in Ww4.
  run (py_add_spec w1 w2 0 30 0 25 Ww1 Ww2).
  rename v into s12, W into Ws12, V into Vs12. change (within 0 55 s12) in Ws12.
  run (py_add_spec s12 w3 0 55 0 25 Ws12 Ww3).
  rename v into s123, W into Ws123, V into Vs123. change (within 0 80 s123) in Ws123.
  destruct (py_add_spec s123 w4 0 80 0 20 Ws123 Ww4) as (h & Eh & Wh & _);
    [try lia .. |].
  rewrite Eh. exists h. split; [reflexivity | exact Wh].
Qed.

(** The table of the constructor, read as the chain of tests the loop
    performs. *)
Lemma determine_state_chain (nm : string) (h : num) :
  determine_state (loyalty_states (__init__ nm)) h "Toxic" =
    (if py_le (PInt 75) h then "Healthy"
     else if py_le (PInt 60) h then "Stable"
     else if py_le (PInt 50) h then "At Risk"
     else if py_le (PInt 40) h then "Unstable"
     else "Toxic")%string.
Proof.
  unfold __init__. cbn [loyalty_states determine_state threshold].
  rewrite !py_ge_le. destruct (py_le (PInt 0) h); reflexivity.
Qed.

(** A score in [0, 100] is matched by an entry of the constructor's table,
    and the state of the first such entry is the only selected one. *)
Lemma determine_state_unique (nm : string) (h : num) :
  in_range 0 100 h = true ->
  let table := loyalty_states (__init__ nm) in
  selected table h (determine_state table h "Toxic") /\
  forall state, selected table h state -> state = determine_state table h "Toxic".
Proof.
  intros R table. unfold in_range in R. apply andb_true_iff in R.
  destruct R as [R0 _].
  assert (F : exists state props, find (matches h) table = Some (state, props)).
  { unfold table, __init__. cbn [loyalty_states find]. unfold matches.
    cbn [snd threshold].
    repeat match goal with
    | |- context [if ?c then _ else _] => destruct c eqn:?; [eauto |]
    end. congruence. }
  destruct F as (state & props & F).
  rewrite determine_state_spec, F. split.
  - apply (find_selected _ _ _ props). exact F.
  - intros st Hst. apply selected_find in Hst. destruct Hst as [p Hp].
    congruence.
Qed.

End TrackerFacts.

(** * The claims *)

Import Binary64 Py Rounding Abstraction Vocabulary.
Import RoundingFacts PyFacts MetricsFacts TrackerFacts.
Local Open Scope list_scope.
Local Open Scope Q_scope.

(** C1 (as the code has it).  [calculate_metrics] returns a value and leaves
    the tracker alone, but it reads the length of the history: the record's
    [timestamp] is [len(self.history) + 1].  For identical inputs and an
    identical state table, two calls on trackers with any names and any
    histories succeed and return records that agree in every field except
    [timestamp]; the records are identical when the two histories have the
    same length. *)
Theorem calculate_metrics_reads_history_length (n1 n2 : string)
    (h1 h2 : list MetricRecord) (table : list (string * StateProps))
    (s d m : num) :
  exists r,
    calculate_metrics (mkTracker n1 h1 table) s d m = Ok r /\
    timestamp r = (Z.of_nat (List.length h1) + 1)%Z /\
    calculate_metrics (mkTracker n2 h2 table) s d m
      = Ok (with_timestamp r (Z.of_nat (List.length h2) + 1)) /\
    (List.length h1 = List.length h2 ->
     calculate_metrics (mkTracker n2 h2 table) s d m = Ok r).
Proof.
  destruct (calculate_metrics_total (mkTracker n1 h1 table) s d m) as (r & E & T).
  pose proof (calculate_metrics_history n1 n2 h1 h2 table s d m) as H.
  rewrite E in H. cbn [history] in T.
  exists r. split; [exact E |]. split; [exact T |]. split; [exact H |].
  intros L. rewrite H, <- L, <- T. destruct r. reflexivity.
Qed.

Lemma calculate_metrics_reads_history_length_witness :
  exists r,
    calculate_metrics (mkTracker "a" [] (loyalty_states (__init__ "a")))
      (PInt 7) (PInt 3) (PInt 2) = Ok r /\
    calculate_metrics (mkTracker "b" [] (loyalty_states (__init__ "a")))
      (PInt 7) (PInt 3) (PInt 2) = Ok r.
Proof.
  destruct (calculate_metrics_reads_history_length "a" "b" [] []
              (loyalty_states (__init__ "a")) (PInt 7) (PInt 3) (PInt 2))
    as (r & E & _ & _ & H).
  exists r. split; [exact E | apply H; reflexivity].
Defined.

(** C1, counterexample.  The same inputs give different records before and
    after one measurement has been added: the timestamps are 1 and 2. *)
Lemma calculate_metrics_depends_on_history :
  exists t,
    add_measurement (__init__ "Customer Analysis") (PInt 7) (PInt 3) (PInt 2)
      = Ok (None, t) /\
    calculate_metrics (__init__ "Customer Analysis") (PInt 7) (PInt 3) (PInt 2)
      <> calculate_metrics t (PInt 7) (PInt 3) (PInt 2).
Proof.
  eexists. split; [vm_compute; reflexivity |].
  vm_compute. intros H. discriminate H.
Qed.

(** C2 (as the code has it).  For every input triple [add_measurement]
    succeeds; the record it appends is the one [calculate_metrics] returns,
    with [timestamp] equal to the current length plus one; the history
    grows by exactly that one entry, name and state table are unchanged;
    and the value returned to the caller is [None]. *)
Theorem add_measurement_appends (self : LoyaltyTracker) (s d m : num) :
  exists r t,
    calculate_metrics self s d m = Ok r /\
    add_measurement self s d m = Ok (None, t) /\
    timestamp r = (Z.of_nat (List.length (history self)) + 1)%Z /\
    history t = history self ++ [r] /\
    List.length (history t) = S (List.length (history self)) /\
    name t = name self /\ loyalty_states t = loyalty_states self.
Proof.
  destruct (add_measurement_spec self s d m) as (r & Ec & T & E).
  eexists r, _. split; [exact Ec |]. split; [exact E |].
  cbn [name loyalty_states history]. rewrite length_app. cbn [List.length].
  repeat split; try assumption. lia.
Qed.

(** C2, counterexample.  [add_measurement] does not return the record. *)
Lemma add_measurement_returns_none :
  ~ exists r t,
      add_measurement (__init__ "Customer Analysis") (PInt 7) (PInt 3) (PInt 2)
        = Ok (Some r, t).
Proof.
  intros (r & t & E). exact (add_measurement_none _ _ _ _ _ _ E).
Qed.

(** C3 (as the code has it).  A non-finite argument is not rejected.  In
    each of the three positions, NaN and +infinity are normalised to the
    [int] 10 and -infinity to the [int] 0; the call succeeds and returns
    exactly the record it returns for that integer. *)
Theorem nonfinite_inputs_are_clamped (self : LoyaltyTracker) (x : nonfinite)
    (a b : num) :
  (calculate_metrics self (nonfinite_num x) a b
     = calculate_metrics self (nonfinite_clamped x) a b /\
   exists r, calculate_metrics self (nonfinite_num x) a b = Ok r /\
             satisfaction r = nonfinite_clamped x) /\
  (calculate_metrics self a (nonfinite_num x) b
     = calculate_metrics self a (nonfinite_clamped x) b /\
   exists r, calculate_metrics self a (nonfinite_num x) b = Ok r /\
             dependency r = nonfinite_clamped x) /\
  (calculate_metrics self a b (nonfinite_num x)
     = calculate_metrics self a b (nonfinite_clamped x) /\
   exists r, calculate_metrics self a b (nonfinite_num x) = Ok r /\
             manipulation r = nonfinite_clamped x).
Proof.
  pose proof (clamp_nonfinite x) as C1. pose proof (clamp_nonfinite_clamped x) as C2.
  split; [| split]; (split;
    [apply calculate_metrics_clamp; congruence |]).
  - destruct (calculate_metrics_inputs self (nonfinite_num x) a b) as (r & E & H & _).
    exists r. split; [exact E | congruence].
  - destruct (calculate_metrics_inputs self a (nonfinite_num x) b) as (r & E & _ & H & _).
    exists r. split; [exact E | congruence].
  - destruct (calculate_metrics_inputs self a b (nonfinite_num x)) as (r & E & _ & _ & H).
    exists r. split; [exact E | congruence].
Qed.

(** C3, counterexample.  With NaN as satisfaction no exception is raised. *)
Lemma nan_is_not_rejected :
  ~ exists e,
      calculate_metrics (__init__ "Customer Analysis")
        (PFloat S754_nan) (PInt 3) (PInt 2) = Raise e.
Proof.
  intros (e & E). vm_compute in E. discriminate E.
Qed.

(** C4.  For all inputs (finite or not: they are normalised first) the call
    succeeds and the returned [true_satisfaction], [autonomy],
    [emotional_vulnerability] and [power_imbalance] lie in [0, 10], and
    [health_score] lies in [0, 100]. *)
Theorem range_invariants (self : LoyaltyTracker) (s d m : num) :
  exists r, calculate_metrics self s d m = Ok r /\
    in_range 0 10 (true_satisfaction r) = true /\
    in_range 0 10 (autonomy r) = true /\
    in_range 0 10 (emotional_vulnerability r) = true /\
    in_range 0 10 (power_imbalance r) = true /\
    in_range 0 100 (health_score r) = true.
Proof.
  destruct (calculate_metrics_spec self s d m)
    as (ts & ev & au & pi & h & (Wts & Wev & Wau & Wpi & Wh) & _ & E).
  eexists. split; [exact E |]. cbn [true_satisfaction autonomy
    emotional_vulnerability power_imbalance health_score].
  repeat split; apply within_in_range; apply py_round_spec; try assumption; lia.
Qed.

(** C5.  The returned [health_score] is monotone in each input, the other
    two being fixed: it does not decrease when satisfaction increases, and
    it does not increase when dependency or manipulation increases.  In
    each part [x] is the larger value of the input that varies. *)
Theorem health_score_monotone (self : LoyaltyTracker) (s d m x : num) :
  (py_le s x = true ->
   exists r1 r2,
     calculate_metrics self s d m = Ok r1 /\
     calculate_metrics self x d m = Ok r2 /\
     py_le (health_score r1) (health_score r2) = true) /\
  (py_le d x = true ->
   exists r1 r2,
     calculate_metrics self s x m = Ok r1 /\
     calculate_metrics self s d m = Ok r2 /\
     py_le (health_score r1) (health_score r2) = true) /\
  (py_le m x = true ->
   exists r1 r2,
     calculate_metrics self s d x = Ok r1 /\
     calculate_metrics self s d m = Ok r2 /\
     py_le (health_score r1) (health_score r2) = true).
Proof.
  pose proof (clamp_range s) as Bs. pose proof (clamp_range m) as Bm.
  split; [| split]; intros H; apply clamp_mono in H; apply health_le.
  - apply hQ_mono; [apply tsQ_mono_s; assumption | apply Qle_refl | apply Qle_refl].
  - apply hQ_mono; [apply Qle_refl | exact H | apply Qle_refl].
  - apply hQ_mono; [apply tsQ_anti_m; [apply Bs | exact H] | apply Qle_refl | exact H].
Qed.

Lemma health_score_monotone_witness :
  (exists r1 r2,
     calculate_metrics (__init__ "Customer Analysis") (PInt 2) (PInt 3) (PInt 2) = Ok r1 /\
     calculate_metrics (__init__ "Customer Analysis") (PInt 7) (PInt 3) (PInt 2) = Ok r2 /\
     py_le (health_score r1) (health_score r2) = true) /\
  (exists r1 r2,
     calculate_metrics (__init__ "Customer Analysis") (PInt 7) (lit (65 # 10)) (PInt 2) = Ok r1 /\
     calculate_metrics (__init__ "Customer Analysis") (PInt 7) (PInt 3) (PInt 2) = Ok r2 /\
     py_le (health_score r1) (health_score r2) = true) /\
  (exists r1 r2,
     calculate_metrics (__init__ "Customer Analysis") (PInt 7) (PInt 3)
       (PFloat (S754_infinity false)) = Ok r1 /\
     calculate_metrics (__init__ "Customer Analysis") (PInt 7) (PInt 3) (PInt 2) = Ok r2 /\
     py_le (health_score r1) (health_score r2) = true).
Proof.
  split; [| split].
  - apply (proj1 (health_score_monotone (__init__ "Customer Analysis")
                    (PInt 2) (PInt 3) (PInt 2) (PInt 7))).
    reflexivity.
  - apply (proj1 (proj2 (health_score_monotone (__init__ "Customer Analysis")
                    (PInt 7) (PInt 3) (PInt 2) (lit (65 # 10))))).
    vm_compute. reflexivity.
  - apply (proj2 (proj2 (health_score_monotone (__init__ "Customer Analysis")
                    (PInt 7) (PInt 3) (PInt 2) (PFloat (S754_infinity false))))).
    reflexivity.
Defined.

(** C6.  The state [calculate_metrics] records.  For every tracker and all
    inputs, the statements of lines 21 to 37 produce a health score [h] in
    [0, 100]; the returned record holds [round(h, 1)] as its [health_score],
    and its [loyalty_state] is the state of the first entry of
    [self.loyalty_states], in the order of the table, whose threshold is at
    most [h], the score before rounding; it is the default "Toxic" when no
    threshold is at most [h].  With the table of the constructor, which
    lists Healthy, Stable, At Risk, Unstable, Toxic with the thresholds 75,
    60, 50, 40, 0, the recorded state is Healthy from 75, Stable from 60,
    At Risk from 50, Unstable from 40 and Toxic below; it is selected by a
    threshold, and no other state is the first to match; and for every
    score in [0, 100], computed or not, exactly one state of this table is
    selected. *)
Theorem state_classification (self : LoyaltyTracker) (s d m : num) :
  exists h r,
    unrounded_health_score s d m = Ok h /\
    calculate_metrics self s d m = Ok r /\
    health_score r = py_round h 1 /\
    in_range 0 100 h = true /\
    loyalty_state r = classify_spec (loyalty_states self) h /\
    (find (matches h) (loyalty_states self) = None ->
     loyalty_state r = "Toxic"%string) /\
    (forall nm, loyalty_states self = loyalty_states (__init__ nm) ->
     map fst (loyalty_states self)
       = ["Healthy"; "Stable"; "At Risk"; "Unstable"; "Toxic"]%string /\
     map (fun item => threshold (snd item)) (loyalty_states self)
       = [PInt 75; PInt 60; PInt 50; PInt 40; PInt 0] /\
     loyalty_state r =
       (if py_le (PInt 75) h then "Healthy"
        else if py_le (PInt 60) h then "Stable"
        else if py_le (PInt 50) h then "At Risk"
        else if py_le (PInt 40) h then "Unstable"
        else "Toxic")%string /\
     selected (loyalty_states self) h (loyalty_state r) /\
     (forall state, selected (loyalty_states self) h state ->
        state = loyalty_state r) /\
     forall score, in_range 0 100 score = true ->
       exists state,
         selected (loyalty_states self) score state /\
         forall other, selected (loyalty_states self) score other ->
           other = state).
Proof.
  destruct (unrounded_health_score_spec s d m) as (h & U & Wh).
  pose proof (calculate_metrics_classifies self s d m) as C. rewrite U in C.
  destruct C as (r & E & Hh & Hs).
  pose proof (within_in_range 0 100 h Wh) as R.
  exists h, r.
  split; [exact U |]. split; [exact E |]. split; [exact Hh |].
  split; [exact R |].
  split; [rewrite Hs; apply determine_state_spec |].
  split.
  { intros N. rewrite Hs, determine_state_spec, N. reflexivity. }
  intros nm T. rewrite Hs, T.
  split; [reflexivity |]. split; [reflexivity |].
  split; [apply determine_state_chain |].
  destruct (determine_state_unique nm h R) as [S1 S2].
  split; [exact S1 |]. split; [exact S2 |].
  intros score Rs.
  exists (determine_state (loyalty_states (__init__ nm)) score "Toxic").
  apply determine_state_unique. exact Rs.
Qed.

Lemma state_classification_witness :
  exists h r,
    unrounded_health_score (PInt 7) (PInt 3) (PInt 2) = Ok h /\
    calculate_metrics (__init__ "Customer Analysis") (PInt 7) (PInt 3) (PInt 2)
      = Ok r /\
    selected (loyalty_states (__init__ "Customer Analysis")) h (loyalty_state r) /\
    loyalty_state r = "Stable"%string.
Proof.
  destruct (state_classification (__init__ "Customer Analysis")
              (PInt 7) (PInt 3) (PInt 2)) as (h & r & U & E & _ & _ & _ & _ & T).
  destruct (T "Customer Analysis" eq_refl) as (_ & _ & _ & Sel & _).
  exists h, r. split; [exact U |]. split; [exact E |]. split; [exact Sel |].
  vm_compute in E. injection E as <-. reflexivity.
Defined.

(** C7.  After the measurements of any list of N triples have been added to
    a new tracker, the history has length N and its i-th record (0-based)
    has [timestamp = i + 1]; the history after the first k additions is the
    prefix of length k of the final history, so no entry is changed or
    removed by later additions. *)
Theorem sequence_invariant (nm : string) (scenarios : list (num * num * num)) :
  exists t,
    add_all (__init__ nm) scenarios = Ok t /\
    List.length (history t) = List.length scenarios /\
    (forall i r, nth_error (history t) i = Some r ->
       timestamp r = (Z.of_nat i + 1)%Z) /\
    (forall k, exists tk,
       add_all (__init__ nm) (firstn k scenarios) = Ok tk /\
       history tk = firstn k (history t)).
Proof.
  destruct (add_all_spec scenarios (__init__ nm))
    as (t & news & Et & Ht & _ & _ & Hlen & Hts & Hpre).
  cbn [__init__ history app List.length Nat.add] in *.
  exists t. rewrite Ht. repeat split; assumption.
Qed.

(** C8 (as the code has it).  For the input (0, 0, 0) the record has
    [true_satisfaction = 0.0], [autonomy = 10.0], [power_imbalance = 0.0],
    [health_score = 70.0], state "Stable", and the single risk factor
    "Low Satisfaction" (since [true_satisfaction = 0 < 4]). *)
Theorem metrics_at_zero (nm : string) :
  calculate_metrics (__init__ nm) (PInt 0) (PInt 0) (PInt 0) =
    Ok {| timestamp := 1;
          satisfaction := PInt 0;
          true_satisfaction := lit 0;
          dependency := PInt 0;
          manipulation := PInt 0;
          emotional_vulnerability := lit 0;
          autonomy := lit 10;
          power_imbalance := lit 0;
          health_score := lit 70;
          loyalty_state := "Stable";
          risk_factors := ["Low Satisfaction"%string] |}.
Proof. vm_compute. reflexivity. Qed.

(** C8, counterexample.  The risk factors of (0, 0, 0) are not empty. *)
Lemma risk_factors_at_zero_not_empty :
  ~ exists r,
      calculate_metrics (__init__ "Customer Analysis") (PInt 0) (PInt 0) (PInt 0) = Ok r /\
      risk_factors r = [].
Proof.
  intros (r & E & H). vm_compute in E. injection E as E. subst r. discriminate H.
Qed.

(** C9.  For the input (2, 8, 7) the risk factors include
    "High Manipulation" and "High Dependency", the health score is 19.6,
    below 20 and so well below 40, and the state is "Toxic". *)
Theorem metrics_at_2_8_7 (nm : string) :
  exists r,
    calculate_metrics (__init__ nm) (PInt 2) (PInt 8) (PInt 7) = Ok r /\
    In "High Manipulation"%string (risk_factors r) /\
    In "High Dependency"%string (risk_factors r) /\
    health_score r = lit (196 # 10) /\
    py_lt (health_score r) (PInt 20) = true /\
    py_lt (health_score r) (PInt 40) = true /\
    loyalty_state r = "Toxic"%string.
Proof.
  eexists. split; [vm_compute; reflexivity |].
  cbn [risk_factors health_score loyalty_state In].
  repeat split; try (vm_compute; reflexivity); auto.
Qed.

(** C10.  [add_measurement] changes the history only, by appending one
    record: name and state table are those of the tracker before the call,
    and every record that was in the history is still at its place. *)
Theorem add_measurement_frame (self : LoyaltyTracker) (s d m : num) :
  exists r t,
    add_measurement self s d m = Ok (None, t) /\
    name t = name self /\
    loyalty_states t = loyalty_states self /\
    history t = history self ++ [r] /\
    forall i, (i < List.length (history self))%nat ->
      nth_error (history t) i = nth_error (history self) i.
Proof.
  destruct (add_measurement_spec self s d m) as (r & _ & _ & E).
  eexists r, _. split; [exact E |]. cbn [name loyalty_states history].
  repeat split. intros i Hi. apply nth_error_app1. exact Hi.
Qed.

(** * Further properties *)

(** ** Input normalisation *)
Module NormalisationFacts.

Import Binary64 Py Rounding Abstraction Vocabulary StateOrder Plot.
Import RoundingFacts PyFacts SpecFloatAgreement MetricsFacts TrackerFacts.
Local Open Scope list_scope.
Local Open Scope Q_scope.

Lemma clamp_high (x : num) : py_lt x (PInt 10) = false -> clamp x = PInt 10.
Proof. intros H. unfold clamp, py_min. rewrite H. reflexivity. Qed.

Lemma clamp_inside (x : num) :
  py_gt x (PInt 0) = true -> py_lt x (PInt 10) = true -> clamp x = x.
Proof. intros H0 H10. unfold clamp, py_min, py_max. rewrite H10, H0. reflexivity. Qed.

Lemma clamp_low (x : num) :
  py_lt x (PInt 10) = true -> py_gt x (PInt 0) = false -> clamp x = PInt 0.
Proof. intros H10 H0. unfold clamp, py_min, py_max. rewrite H10, H0. reflexivity. Qed.

Lemma clamp_idem (x : num) : clamp (clamp x) = clamp x.
Proof.
  destruct (py_lt x (PInt 10)) eqn:H10.
  - destruct (py_gt x (PInt 0)) eqn:H0.
    + rewrite !(clamp_inside x H0 H10). reflexivity.
    + rewrite (clamp_low x H10 H0). reflexivity.
  - rewrite (clamp_high x H10). reflexivity.
Qed.

Lemma ge_10_not_lt (x : num) : py_le (PInt 10) x = true -> py_lt x (PInt 10) = false.
Proof.
  unfold py_le, py_lt. rewrite (cmp_antisym (PInt 10) x).
  destruct (cmp (PInt 10) x) as [[| |] |]; cbn; congruence.
Qed.

Lemma le_0_low (x : num) :
  py_le x (PInt 0) = true -> py_lt x (PInt 10) = true /\ py_gt x (PInt 0) = false.
Proof.
  unfold py_le, py_lt, py_gt, cmp. cbn [xv].
  destruct (xv x) as [| | q |]; try discriminate; try (split; reflexivity).
  destruct (Qcompare_spec q (inject_Z 0)) as [E | L | G]; try discriminate; intros _.
  - split; [| reflexivity].
    destruct (Qcompare_spec q (inject_Z 10)) as [E' | L' | G']; try reflexivity;
      exfalso; change (inject_Z 10) with 10 in *; change (inject_Z 0) with 0 in *; lra.
  - split; [| reflexivity].
    destruct (Qcompare_spec q (inject_Z 10)) as [E' | L' | G']; try reflexivity;
      exfalso; change (inject_Z 10) with 10 in *; change (inject_Z 0) with 0 in *; lra.
Qed.

Lemma clamp_ge_10 (x : num) : py_le (PInt 10) x = true -> clamp x = PInt 10.
Proof. intros H. apply clamp_high, ge_10_not_lt, H. Qed.

Lemma clamp_le_0 (x : num) : py_le x (PInt 0) = true -> clamp x = PInt 0.
Proof. intros H. destruct (le_0_low x H) as [A B]. apply clamp_low; assumption. Qed.

End NormalisationFacts.

(** ** The fields of a record *)
Module RecordFacts.

Import Binary64 Py Rounding Abstraction Vocabulary StateOrder Plot.
Import RoundingFacts PyFacts SpecFloatAgreement MetricsFacts TrackerFacts NormalisationFacts.
Local Open Scope list_scope.
Local Open Scope Q_scope.

Lemma roundQ_compat (n : nat) (x y : Q) : x == y -> roundQ n x == roundQ n y.
Proof. intros E. apply Qle_antisym; apply roundQ_mono; rewrite E; apply Qle_refl. Qed.

Lemma rounded_value (a : num) (n : nat) (x : Q) :
  within 0 10 a -> numval a == x ->
  is_fin (py_round a n) = true /\ numval (py_round a n) == roundQ n x.
Proof.
  intros W V. destruct (py_round_spec a n 0 10 W ltac:(lia) ltac:(lia)) as [[F _] R].
  split; [exact F |]. rewrite R. apply roundQ_compat, V.
Qed.

Lemma metric_values (self : LoyaltyTracker) (s d m : num) :
  exists r, calculate_metrics self s d m = Ok r /\
    (is_fin (true_satisfaction r) = true /\
     numval (true_satisfaction r)
       == roundQ 2 (tsQ (numval (clamp s)) (numval (clamp m)))) /\
    (is_fin (emotional_vulnerability r) = true /\
     numval (emotional_vulnerability r)
       == roundQ 2 (evQ (numval (clamp d)) (numval (clamp m)))) /\
    (is_fin (autonomy r) = true /\
     numval (autonomy r)
       == roundQ 2 (auQ (numval (clamp d)) (numval (clamp m)))) /\
    (is_fin (power_imbalance r) = true /\
     numval (power_imbalance r)
       == roundQ 2 (piQ (numval (clamp d)) (numval (clamp m)))).
Proof.
  destruct (calculate_metrics_spec self s d m)
    as (ts & ev & au & pi & h & (Wts & Wev & Wau & Wpi & _) & (Vts & Vev & Vau & Vpi & _) & E).
  eexists. split; [exact E |].
  cbn [true_satisfaction emotional_vulnerability autonomy power_imbalance].
  split; [| split; [| split]]; apply rounded_value; assumption.
Qed.

(** The four core metrics as the source computes them, each from the
    normalised inputs it reads. *)
Lemma metric_formulas (self : LoyaltyTracker) (s d m : num) :
  match calculate_metrics self s d m with
  | Ok r =>
      (t1 <- py_truediv (clamp m) (PInt 15) ;;
       t2 <- py_sub (PInt 1) t1 ;;
       ts <- py_mul (clamp s) t2 ;;
       Ok (py_round ts 2)) = Ok (true_satisfaction r) /\
      (e1 <- py_mul (clamp d) (lit (7 # 10)) ;;
       e2 <- py_mul (clamp m) (lit (3 # 10)) ;;
       e3 <- py_add e1 e2 ;;
       Ok (py_round (py_min (PInt 10) e3) 2)) = Ok (emotional_vulnerability r) /\
      (a1 <- py_mul (clamp d) (lit (5 # 10)) ;;
       a2 <- py_mul (clamp m) (lit (5 # 10)) ;;
       a3 <- py_add a1 a2 ;;
       a4 <- py_sub (PInt 10) a3 ;;
       Ok (py_round (py_max (PInt 0) a4) 2)) = Ok (autonomy r) /\
      (p1 <- py_mul (clamp m) (lit (6 # 10)) ;;
       p2 <- py_mul (clamp d) (lit (4 # 10)) ;;
       p3 <- py_add p1 p2 ;;
       Ok (py_round (py_min (PInt 10) p3) 2)) = Ok (power_imbalance r)
  | Raise _ => True
  end.
Proof.
  unfold calculate_metrics, clamp. cbv zeta.
  repeat match goal with
  | |- context [bind ?c _] => destruct c; cbn [bind]
  end; try exact I.
  cbn [true_satisfaction emotional_vulnerability autonomy power_imbalance].
  repeat split.
Qed.

Lemma calculate_metrics_transfer (n1 n2 : string) (h2 : list MetricRecord)
    (table : list (string * StateProps)) (s d m : num) (r : MetricRecord) :
  calculate_metrics (mkTracker n1 [] table) s d m = Ok r ->
  calculate_metrics (mkTracker n2 h2 table) s d m
    = Ok (with_timestamp r (Z.of_nat (List.length h2) + 1)).
Proof.
  intros E. pose proof (calculate_metrics_history n1 n2 [] h2 table s d m) as H.
  rewrite E in H. exact H.
Qed.

Lemma best_record (nm : string) :
  calculate_metrics (mkTracker nm [] (loyalty_states (__init__ nm)))
      (PInt 10) (PInt 0) (PInt 0) =
    Ok {| timestamp := 1;
          satisfaction := PInt 10;
          true_satisfaction := lit 10;
          dependency := PInt 0;
          manipulation := PInt 0;
          emotional_vulnerability := lit 0;
          autonomy := lit 10;
          power_imbalance := lit 0;
          health_score := lit 100;
          loyalty_state := "Healthy";
          risk_factors := [] |}.
Proof. vm_compute. reflexivity. Qed.

Lemma worst_record (nm : string) :
  calculate_metrics (mkTracker nm [] (loyalty_states (__init__ nm)))
      (PInt 0) (PInt 10) (PInt 10) =
    Ok {| timestamp := 1;
          satisfaction := PInt 0;
          true_satisfaction := lit 0;
          dependency := PInt 10;
          manipulation := PInt 10;
          emotional_vulnerability := PInt 10;
          autonomy := PInt 0;
          power_imbalance := PInt 10;
          health_score := lit 0;
          loyalty_state := "Toxic";
          risk_factors := ["High Manipulation"; "High Dependency";
                           "Low Satisfaction"; "Low Autonomy"]%string |}.
Proof. vm_compute. reflexivity. Qed.

Lemma evQ_mono (d1 d2 m1 m2 : Q) :
  d1 <= d2 -> m1 <= m2 -> evQ d1 m1 <= evQ d2 m2.
Proof.
  intros Hd Hm. unfold evQ. apply Q.min_le_compat_l.
  apply blend_mono; try assumption; apply lval_nonneg; lra.
Qed.

Lemma Ok_inj {A : Type} (a b : A) : Ok a = Ok b -> a = b.
Proof. intros H. injection H as H. exact H. Qed.

Lemma default_state (nm : string) (h : num) :
  determine_state (loyalty_states (__init__ nm)) h "Toxic" =
    (if py_le (PInt 75) h then "Healthy"
     else if py_le (PInt 60) h then "Stable"
     else if py_le (PInt 50) h then "At Risk"
     else if py_le (PInt 40) h then "Unstable"
     else "Toxic")%string.
Proof.
  unfold __init__. cbn [loyalty_states determine_state threshold].
  rewrite !py_ge_le. destruct (py_le (PInt 0) h); reflexivity.
Qed.

Lemma threshold_reflect (T : Z) (h : num) :
  is_fin h = true ->
  (py_le (PInt T) h = true -> inject_Z T <= numval h) /\
  (py_le (PInt T) h = false -> numval h < inject_Z T).
Proof.
  intros F. pose proof (py_le_fin (PInt T) h eq_refl F) as R. cbn [numval] in R.
  split; intros H.
  - apply R, H.
  - apply Qnot_le_lt. intros C. apply R in C. congruence.
Qed.

Lemma roundQ_Z (n : nat) (z : Z) :
  (- 2 ^ 53 < z < 2 ^ 53)%Z -> roundQ n (inject_Z z) == inject_Z z.
Proof.
  intros B. unfold roundQ. set (P := (10 ^ Z.of_nat n)%Z).
  assert (HP : (0 < P)%Z) by (apply Z.pow_pos_nonneg; lia).
  assert (NP : ~ inject_Z P == 0).
  { intros E. unfold Qeq in E. cbn in E. lia. }
  assert (E : inject_Z (rhe (inject_Z z * inject_Z P)) / inject_Z P == inject_Z z).
  { rewrite <- inject_Z_mult, rhe_Z, inject_Z_mult. field. exact NP. }
  rewrite E. apply RQ_Z. exact B.
Qed.

(** Rounding to [n] decimals does not cross an integer. *)
Lemma roundQ_threshold (n : nat) (T : Z) (x : Q) :
  (- 2 ^ 53 < T < 2 ^ 53)%Z ->
  (inject_Z T <= x -> inject_Z T <= roundQ n x) /\
  (x <= inject_Z T -> roundQ n x <= inject_Z T).
Proof.
  intros B. pose proof (roundQ_Z n T B) as E. split; intros H.
  - rewrite <- E. apply roundQ_mono, H.
  - rewrite <- E. apply roundQ_mono, H.
Qed.

Lemma state_of_record (self : LoyaltyTracker) (s d m : num) :
  exists r h,
    calculate_metrics self s d m = Ok r /\
    is_fin h = true /\
    numval h == hQ (numval (clamp s)) (numval (clamp d)) (numval (clamp m)) /\
    loyalty_state r = determine_state (loyalty_states self) h "Toxic" /\
    is_fin (health_score r) = true /\
    numval (health_score r) == roundQ 1 (numval h).
Proof.
  destruct (calculate_metrics_spec self s d m)
    as (ts & ev & au & pi & h & (_ & _ & _ & _ & Wh) & (_ & _ & _ & _ & Vh) & E).
  eexists. exists h. split; [exact E |]. cbn [loyalty_state health_score].
  destruct (py_round_spec h 1 0 100 Wh ltac:(lia) ltac:(lia)) as [[F _] V].
  destruct Wh as [Fh _].
  split; [exact Fh |]. split; [exact Vh |]. split; [reflexivity |].
  split; [exact F | exact V].
Qed.

Ltac levels h F :=
  destruct (threshold_reflect 75 h F) as [?A ?B];
  destruct (threshold_reflect 60 h F) as [?A ?B];
  destruct (threshold_reflect 50 h F) as [?A ?B];
  destruct (threshold_reflect 40 h F) as [?A ?B];
  destruct (py_le (PInt 75) h); destruct (py_le (PInt 60) h);
  destruct (py_le (PInt 50) h); destruct (py_le (PInt 40) h);
  repeat match goal with
  | H : true = true -> _ |- _ => specialize (H eq_refl)
  | H : false = false -> _ |- _ => specialize (H eq_refl)
  | H : true = false -> _ |- _ => clear H
  | H : false = true -> _ |- _ => clear H
  end;
  change (inject_Z 75) with 75 in *; change (inject_Z 60) with 60 in *;
  change (inject_Z 50) with 50 in *; change (inject_Z 40) with 40 in *.

(** *** The selected state and the keys of the table *)
Lemma determine_state_key (table : list (string * StateProps)) (h : num)
    (default : string) :
  In (determine_state table h default) (map fst table) \/
  (determine_state table h default = default /\
   Forall (fun item => py_ge h (threshold (snd item)) = false) table).
Proof.
  induction table as [| [state props] rest IH]; cbn [determine_state map fst In].
  - right. split; [reflexivity | constructor].
  - destruct (py_ge h (threshold props)) eqn:E.
    + left. left. reflexivity.
    + destruct IH as [IH | [IH1 IH2]]; [left; right; exact IH |].
      right. split; [exact IH1 |]. constructor; [exact E | exact IH2].
Qed.

Lemma cmp_eq_fin (a : num) (T : Z) :
  is_fin a = true -> cmp a (PInt T) <> Some Eq -> ~ numval a == inject_Z T.
Proof.
  intros F H E. apply H. rewrite (cmp_fin a (PInt T) F eq_refl). cbn [numval].
  f_equal. apply (proj1 (Qeq_alt _ _)). exact E.
Qed.

Lemma stable_at_displayed_75 (nm : string) :
  exists r,
    calculate_metrics (mkTracker nm [] (loyalty_states (__init__ nm)))
      (lit (166 # 100)) (PInt 0) (PInt 0) = Ok r /\
    health_score r = lit 75 /\ loyalty_state r = "Stable"%string.
Proof.
  eexists. split; [vm_compute; reflexivity |]. split; vm_compute; reflexivity.
Qed.

Lemma append_if_flag (c : bool) (name : string) (l : list string) :
  append_if c name l = l ++ flag c name.
Proof. destruct c; cbn [append_if flag]; [reflexivity | rewrite app_nil_r; reflexivity]. Qed.

Lemma flags_in_order (c1 c2 c3 c4 : bool) :
  append_if c4 "Low Autonomy"
    (append_if c3 "Low Satisfaction"
       (append_if c2 "High Dependency"
          (append_if c1 "High Manipulation" [])))
  = flag c1 "High Manipulation" ++ flag c2 "High Dependency" ++
    flag c3 "Low Satisfaction" ++ flag c4 "Low Autonomy".
Proof. rewrite !append_if_flag. cbn [app]. rewrite <- !app_assoc. reflexivity. Qed.

(** The record, with the unrounded true satisfaction and autonomy the flags
    are computed from. *)
Lemma flags_of_record (self : LoyaltyTracker) (s d m : num) :
  exists r ts au,
    calculate_metrics self s d m = Ok r /\
    within 0 10 ts /\ within 0 10 au /\
    numval ts == tsQ (numval (clamp s)) (numval (clamp m)) /\
    numval au == auQ (numval (clamp d)) (numval (clamp m)) /\
    true_satisfaction r = py_round ts 2 /\
    autonomy r = py_round au 2 /\
    manipulation r = clamp m /\ dependency r = clamp d /\
    risk_factors r =
      flag (py_gt (manipulation r) (PInt 6)) "High Manipulation" ++
      flag (py_gt (dependency r) (PInt 7)) "High Dependency" ++
      flag (py_lt ts (PInt 4)) "Low Satisfaction" ++
      flag (py_lt au (PInt 3)) "Low Autonomy".
Proof.
  destruct (calculate_metrics_spec self s d m)
    as (ts & ev & au & pi & h & (Wts & _ & Wau & _ & _) & (Vts & _ & Vau & _ & _) & E).
  eexists. exists ts, au. split; [exact E |].
  cbn [true_satisfaction autonomy manipulation dependency risk_factors].
  rewrite flags_in_order. repeat (split; [assumption || reflexivity |]). reflexivity.
Qed.

(** A comparison with an integer bound before and after rounding. *)
Lemma rounded_comparison (a : num) (n : nat) (T : Z) :
  within 0 10 a -> (- 2 ^ 53 < T < 2 ^ 53)%Z ->
  (py_lt (py_round a n) (PInt T) = true -> py_lt a (PInt T) = true) /\
  (py_lt a (PInt T) = true -> py_le (py_round a n) (PInt T) = true).
Proof.
  intros W B. destruct (py_round_spec a n 0 10 W ltac:(lia) ltac:(lia)) as [[F _] V].
  destruct W as [Fa _].
  destruct (roundQ_threshold n T (numval a) B) as [U L]. rewrite <- V in U, L.
  split; intros H.
  - apply (py_lt_fin (py_round a n) (PInt T) F eq_refl) in H. cbn [numval] in H.
    apply (py_lt_fin a (PInt T) Fa eq_refl). cbn [numval].
    apply Qnot_le_lt. intros C. apply U in C. lra.
  - apply (py_lt_fin a (PInt T) Fa eq_refl) in H. cbn [numval] in H.
    apply (py_le_fin (py_round a n) (PInt T) F eq_refl). cbn [numval]. apply L. lra.
Qed.

Lemma flagged_at_displayed_4 (self : LoyaltyTracker) :
  exists r,
    calculate_metrics self (lit (3999 # 1000)) (PInt 0) (PInt 0) = Ok r /\
    true_satisfaction r = lit 4 /\
    In "Low Satisfaction"%string (risk_factors r).
Proof.
  destruct (flags_of_record self (lit (3999 # 1000)) (PInt 0) (PInt 0))
    as (r & ts & au & E & Wts & _ & Vts & _ & _ & _ & _ & _ & R).
  exists r. split; [exact E |]. split.
  - pose proof (metric_formulas self (lit (3999 # 1000)) (PInt 0) (PInt 0)) as H.
    destruct (calculate_metrics self (lit (3999 # 1000)) (PInt 0) (PInt 0))
      as [r' | e]; [| discriminate E].
    apply Ok_inj in E. subst r'. destruct H as [H _].
    apply Ok_inj. rewrite <- H. vm_compute. reflexivity.
  - assert (L : py_lt ts (PInt 4) = true).
    { apply py_lt_fin; [apply Wts | reflexivity |]. rewrite Vts.
      vm_compute. reflexivity. }
    rewrite R, L. cbn [flag]. rewrite !in_app_iff.
    right. right. left. left. reflexivity.
Qed.

(** Upper bounds of the health score when one of the flags is raised. *)
Lemma health_at_10_0_6 : hQ 10 0 6 < 75.
Proof. vm_compute. reflexivity. Qed.

Lemma health_at_10_7_0 : hQ 10 7 0 < 75.
Proof. vm_compute. reflexivity. Qed.

Lemma health_at_10_4_4 : hQ 10 4 4 < 75.
Proof. vm_compute. reflexivity. Qed.

Lemma autonomy_at_4_10 : 3 <= auQ 4 10.
Proof. apply Qle_bool_imp_le. vm_compute. reflexivity. Qed.

Lemma autonomy_at_10_4 : 3 <= auQ 10 4.
Proof. apply Qle_bool_imp_le. vm_compute. reflexivity. Qed.

Lemma health_bound (s d m d0 m0 : Q) :
  0 <= s <= 10 -> 0 <= m <= 10 -> d0 <= d -> m0 <= m ->
  hQ s d m <= hQ 10 d0 m0.
Proof.
  intros Hs Hm Hd Hm0. apply hQ_mono; [| exact Hd | exact Hm0].
  apply Qle_trans with (tsQ 10 m).
  - apply tsQ_mono_s; [exact Hm | apply Hs].
  - apply tsQ_anti_m; [lra | exact Hm0].
Qed.

Lemma healthy_at_low_satisfaction (nm : string) :
  exists r,
    calculate_metrics (mkTracker nm [] (loyalty_states (__init__ nm)))
      (lit (17 # 10)) (PInt 0) (PInt 0) = Ok r /\
    loyalty_state r = "Healthy"%string /\
    risk_factors r = ["Low Satisfaction"%string].
Proof.
  eexists. split; [vm_compute; reflexivity |]. split; vm_compute; reflexivity.
Qed.

(** *** The caps of the core metrics *)
Lemma blend_at_10 :
  RQ (RQ (10 * lval (7 # 10)) + RQ (10 * lval (3 # 10))) == 10 /\
  RQ (RQ (10 * lval (5 # 10)) + RQ (10 * lval (5 # 10))) == 10 /\
  RQ (RQ (10 * lval (6 # 10)) + RQ (10 * lval (4 # 10))) == 10.
Proof. repeat split; vm_compute; reflexivity. Qed.

(** A weighted sum [a * c1 + b * c2] of two normalised inputs, as the
    source computes it. *)
Lemma blend_spec (a b : num) (c1 c2 : Q) :
  within 0 10 a -> within 0 10 b -> 0 <= c1 <= 1 -> 0 <= c2 <= 1 ->
  exists v,
    (x <- py_mul a (lit c1) ;; y <- py_mul b (lit c2) ;; py_add x y) = Ok v /\
    within 0 20 v /\
    numval v == RQ (RQ (numval a * lval c1) + RQ (numval b * lval c2)).
Proof.
  intros Wa Wb H1 H2.
  pose proof (lit_within c1 H1) as L1. pose proof (lit_within c2 H2) as L2.
  destruct (py_mul_spec a _ 10 1 Wa L1) as (x & Ex & Wx & Vx); try lia.
  destruct (py_mul_spec b _ 10 1 Wb L2) as (y & Ey & Wy & Vy); try lia.
  rewrite Ex, Ey. cbn [bind]. change (within 0 10 x) in Wx. change (within 0 10 y) in Wy.
  destruct (py_add_spec x y 0 10 0 10 Wx Wy) as (v & Ev & Wv & Vv); try lia.
  exists v. split; [exact Ev |]. split; [exact Wv |].
  rewrite Vv, Vx, Vy. reflexivity.
Qed.

Lemma cap_is_idle (v : num) :
  within 0 20 v -> numval v <= 10 -> cmp (py_min (PInt 10) v) v = Some Eq.
Proof.
  intros [F _] H. unfold py_min. destruct (py_lt v (PInt 10)) eqn:E.
  - rewrite (cmp_fin v v F F). f_equal. apply (proj1 (Qeq_alt _ _)). reflexivity.
  - rewrite (cmp_fin (PInt 10) v eq_refl F). f_equal. cbn [numval].
    apply (proj1 (Qeq_alt _ _)). apply Qle_antisym; [| exact H].
    apply Qnot_lt_le. intros C. apply (py_lt_fin v (PInt 10) F eq_refl) in C.
    congruence.
Qed.

Lemma floor_is_idle (v : num) :
  is_fin v = true -> 0 <= numval v -> cmp (py_max (PInt 0) v) v = Some Eq.
Proof.
  intros F H. unfold py_max. destruct (py_gt v (PInt 0)) eqn:E.
  - rewrite (cmp_fin v v F F). f_equal. apply (proj1 (Qeq_alt _ _)). reflexivity.
  - rewrite (cmp_fin (PInt 0) v eq_refl F). f_equal. cbn [numval].
    apply (proj1 (Qeq_alt _ _)). apply Qle_antisym; [exact H |].
    apply Qnot_lt_le. intros C. apply (py_gt_fin v (PInt 0) F eq_refl) in C.
    congruence.
Qed.

Lemma blend_le_10 (d m c1 c2 : Q) :
  0 <= d <= 10 -> 0 <= m <= 10 -> 0 <= c1 -> 0 <= c2 ->
  RQ (RQ (10 * c1) + RQ (10 * c2)) == 10 ->
  RQ (RQ (d * c1) + RQ (m * c2)) <= 10.
Proof.
  intros Hd Hm H1 H2 E. rewrite <- E. apply blend_mono; try assumption; lra.
Qed.

(** *** True satisfaction and satisfaction *)
Lemma RQ_representable (a : num) :
  within 0 10 a -> (forall f, a = PFloat f -> valid f) -> RQ (numval a) == numval a.
Proof.
  intros [F [B1 B2]] V. destruct a as [z | f]; cbn [numval] in *.
  - apply RQ_Z. rewrite <- !Zle_Qle in *. lia.
  - specialize (V f eq_refl). cbn [is_fin] in F.
    assert (B : - 2 ^ 1000 <= val f <= 2 ^ 1000).
    { pose proof big_bound as G. change (inject_Z 1024) with 1024 in G.
      change (inject_Z 0) with 0 in B1. change (inject_Z 10) with 10 in B2. lra. }
    destruct (rnd_val (val f) B) as [_ R].
    destruct (rnd_exact f V F) as [X | [s X]].
    + rewrite X in R. symmetry. exact R.
    + subst f. cbn [val]. apply RQ_0. reflexivity.
Qed.

Lemma clamp_valid (s : num) :
  (forall f, s = PFloat f -> valid f) -> forall f, clamp s = PFloat f -> valid f.
Proof.
  intros V f. unfold clamp, py_max, py_min.
  destruct (py_lt s (PInt 10)); [| cbn; discriminate].
  destruct (py_gt s (PInt 0)); [apply V | discriminate].
Qed.

Lemma discount_le_1 (m : Q) : 0 <= m -> RQ (1 - RQ (m / 15)) <= 1.
Proof.
  intros Hm.
  assert (E1 : RQ 1 == 1) by (apply (RQ_Z 1); lia).
  rewrite <- E1 at 2. apply RQ_mono.
  assert (P : 0 <= RQ (m / 15)).
  { apply RQ_nonneg. change (m / 15) with (m * (1 # 15)). lra. }
  lra.
Qed.

Lemma discount_at_0 : RQ (1 - RQ (0 / 15)) == 1.
Proof. vm_compute. reflexivity. Qed.

End RecordFacts.

(** ** Sequences of measurements *)
Module HistoryFacts.

Import Binary64 Py Rounding Abstraction Vocabulary StateOrder Plot.
Import RoundingFacts PyFacts SpecFloatAgreement MetricsFacts TrackerFacts NormalisationFacts RecordFacts.
Local Open Scope list_scope.
Local Open Scope Q_scope.

Lemma add_all_app (l1 l2 : list (num * num * num)) :
  forall self : LoyaltyTracker,
  add_all self (l1 ++ l2) = (t <- add_all self l1 ;; add_all t l2).
Proof.
  induction l1 as [| [[s d] m] rest IH]; intros self; [reflexivity |].
  cbn [app add_all]. destruct (add_measurement self s d m) as [r | e]; cbn [bind].
  - apply IH.
  - reflexivity.
Qed.

Lemma add_all_records (scenarios : list (num * num * num)) :
  forall self : LoyaltyTracker,
  exists (t : LoyaltyTracker) (news : list MetricRecord),
    add_all self scenarios = Ok t /\
    history t = history self ++ news /\
    Forall2 (fun sc r =>
               forall (nm : string) (hist : list MetricRecord),
                 calculate_metrics (mkTracker nm hist (loyalty_states self))
                     (fst (fst sc)) (snd (fst sc)) (snd sc)
                   = Ok (with_timestamp r (Z.of_nat (List.length hist) + 1)))
            scenarios news.
Proof.
  induction scenarios as [| [[s d] m] rest IH]; intros self.
  - exists self, []. cbn [add_all]. rewrite app_nil_r.
    split; [reflexivity |]. split; [reflexivity | constructor].
  - destruct (add_measurement_spec self s d m) as (r & Ec & _ & E).
    set (t1 := {| name := name self; history := history self ++ [r];
                  loyalty_states := loyalty_states self |}) in *.
    destruct (IH t1) as (t & news & Et & Ht & Hf).
    exists t, (r :: news). cbn [add_all]. rewrite E. cbn [bind snd].
    split; [exact Et |].
    split; [rewrite Ht; unfold t1; cbn [history]; rewrite <- app_assoc; reflexivity |].
    constructor; [| exact Hf].
    intros nm hist. cbn [fst snd].
    pose proof (calculate_metrics_history (name self) nm (history self) hist
                  (loyalty_states self) s d m) as H.
    destruct self as [n0 h0 table]. cbn [name history loyalty_states] in *.
    rewrite Ec in H. exact H.
Qed.

End HistoryFacts.

(** ** What [plot_analysis] computes *)
Module PlotFacts.

Import Binary64 Py Rounding Abstraction Vocabulary StateOrder Plot.
Import RoundingFacts PyFacts SpecFloatAgreement MetricsFacts TrackerFacts NormalisationFacts RecordFacts HistoryFacts.
Local Open Scope list_scope.
Local Open Scope Q_scope.

(** *** Lists, dictionaries and comprehensions *)
Lemma comprehension_value {A B : Type} (f : A -> attempt B) (R : A -> B -> Prop)
    (l : list A) :
  Forall (fun a => exists b, f a = Value b /\ R a b) l ->
  exists bs, comprehension f l = Value bs /\ Forall2 R l bs.
Proof.
  induction 1 as [| a rest (b & Eb & Rb) _ (bs & Ebs & Rbs)]; cbn [comprehension].
  - exists []. split; [reflexivity | constructor].
  - exists (b :: bs). rewrite Eb, Ebs. split; [reflexivity | constructor; assumption].
Qed.

Lemma enumerate_nth {A : Type} (l : list A) :
  forall (k i : nat) (a : A),
  In (i, a) (enumerate k l) -> (k <= i)%nat /\ nth_error l (i - k) = Some a.
Proof.
  induction l as [| b rest IH]; intros k i a; cbn [enumerate In]; [tauto |].
  intros [H | H].
  - injection H as H1 H2. subst. split; [lia |]. rewrite Nat.sub_diag. reflexivity.
  - destruct (IH _ _ _ H) as [L N]. split; [lia |].
    replace (i - k)%nat with (S (i - S k)) by lia. exact N.
Qed.


Lemma getitem_key {V : Type} (items : list (string * V)) (key : string) :
  In key (map fst items) -> exists v, getitem items key = Value v /\ In (key, v) items.
Proof.
  induction items as [| [k w] rest IH]; cbn [map fst In getitem]; [tauto |].
  intros H. destruct (String.eqb_spec k key) as [E | NE].
  - subst k. exists w. split; [reflexivity | left; reflexivity].
  - destruct H as [H | H]; [contradiction |].
    destruct (IH H) as (v & G & Hin). exists v. split; [exact G | right; exact Hin].
Qed.


Lemma in_enumerate {A : Type} (l : list A) (i : nat) (a : A) :
  In (i, a) (enumerate 0 l) -> nth_error l i = Some a.
Proof.
  intros H. destruct (enumerate_nth l 0 i a H) as [_ N].
  rewrite Nat.sub_0_r in N. exact N.
Qed.


Lemma Forall2_nth {A B : Type} (R : A -> B -> Prop) (l : list A) (l' : list B) :
  Forall2 R l l' ->
  forall (i : nat) (a : A), nth_error l i = Some a ->
  exists b, nth_error l' i = Some b /\ R a b.
Proof.
  induction 1 as [| a0 b0 l l' H0 _ IH]; intros i a N; [destruct i; discriminate |].
  destruct i as [| i].
  - injection N as N. subst a0. exists b0. split; [reflexivity | exact H0].
  - apply (IH i a N).
Qed.

Lemma Forall2_in_r {A B : Type} (R : A -> B -> Prop) (l : list A) (l' : list B)
    (b : B) :
  Forall2 R l l' -> In b l' -> exists a, In a l /\ R a b.
Proof.
  induction 1 as [| a b' l l' Hab _ IH]; cbn [In]; [tauto |].
  intros [E | H].
  - subst b'. exists a. split; [left; reflexivity | exact Hab].
  - destruct (IH H) as (a' & Hin & Ha'). exists a'. split; [right; exact Hin | exact Ha'].
Qed.

(** *** One state marker *)
(** [i % 2 == 0] *)
Lemma index_parity (i : nat) : (Z.of_nat i mod 2 =? 0)%Z = Nat.even i.
Proof.
  assert (G : forall k : nat,
            (Z.of_nat k mod 2 =? 0)%Z = Nat.even k /\
            (Z.of_nat (S k) mod 2 =? 0)%Z = Nat.even (S k)).
  { induction k as [| k [IH1 IH2]].
    - split; reflexivity.
    - split; [exact IH2 |].
      replace (Z.of_nat (S (S k))) with (Z.of_nat k + 1 * 2)%Z by lia.
      rewrite Z.mod_add by lia. exact IH1. }
  apply G.
Qed.

(** The label of a marker is above it for the offset 0.8 and below it for
    the offset -1.5. *)
Lemma offset_signs :
  py_gt (lit (8 # 10)) (PInt 0) = true /\
  py_gt (PFloat (fneg (rnd (15 # 10)))) (PInt 0) = false.
Proof. split; vm_compute; reflexivity. Qed.

Lemma state_marker_value (self : LoyaltyTracker) (hs : list num) (i : nat)
    (h : MetricRecord) (y : num) (props : StateProps) :
  nth_error (history self) i = Some h ->
  nth_error hs i = Some y ->
  getitem (loyalty_states self) (loyalty_state h) = Value props ->
  state_marker self (map timestamp (history self)) hs i h =
    Value {| marker_x := timestamp h;
             marker_y := y;
             state_color := color props;
             offset := if Nat.even i then lit (8 # 10)
                       else PFloat (fneg (rnd (15 # 10)));
             va := if Nat.even i then "bottom"%string else "top"%string |}.
Proof.
  intros N Y G. unfold state_marker. rewrite G. cbn [and_then].
  unfold index. rewrite (map_nth_error timestamp i (history self) N), Y.
  cbn [and_then]. rewrite index_parity. destruct offset_signs as [O1 O2].
  destruct (Nat.even i); [rewrite O1 | rewrite O2]; reflexivity.
Qed.


Lemma timeline_value (l : list MetricRecord) (i : nat) (h : MetricRecord) :
  nth_error l i = Some h ->
  (xi <~ index (map timestamp l) i ;; Value (xi, loyalty_state h))
    = Value (timestamp h, loyalty_state h).
Proof.
  intros N. unfold index. rewrite (map_nth_error timestamp i l N). reflexivity.
Qed.

(** *** The records the tracker's methods produce *)
(** Whatever the table is, the numbers of a record are on their scales, and
    its state is a key of the table or the default "Toxic". *)
Lemma record_measured (self : LoyaltyTracker) (s d m : num) (r : MetricRecord) :
  calculate_metrics self s d m = Ok r ->
  within 0 100 (health_score r) /\
  (In (loyalty_state r) (map fst (loyalty_states self)) \/
   loyalty_state r = "Toxic"%string) /\
  (In (loyalty_state r) (map fst (loyalty_states self)) ->
   plottable (loyalty_states self) r).
Proof.
  intros E.
  destruct (calculate_metrics_spec self s d m)
    as (ts & ev & au & pi & h & (Wts & Wev & Wau & Wpi & Wh) & _ & E').
  rewrite E' in E. apply Ok_inj in E. subst r. unfold plottable.
  cbn [satisfaction true_satisfaction dependency manipulation emotional_vulnerability
       autonomy health_score loyalty_state].
  assert (Rh : within 0 100 (py_round h 1)).
  { apply py_round_spec; [exact Wh | lia | lia]. }
  split; [exact Rh |]. split.
  { destruct (determine_state_key (loyalty_states self) h "Toxic") as [K | [D _]];
      [left; exact K | right; exact D]. }
  intros K.
  split; [apply clamp_within |].
  split; [apply py_round_spec; [exact Wts | lia | lia] |].
  split; [apply clamp_within |].
  split; [apply clamp_within |].
  split; [apply py_round_spec; [exact Wev | lia | lia] |].
  split; [apply py_round_spec; [exact Wau | lia | lia] |].
  split; [exact Rh | exact K].
Qed.

Lemma map_by_index {A B : Type} (f : A -> B) (g : nat -> B) (l : list A) :
  forall k : nat,
  (forall i a, nth_error l i = Some a -> f a = g (k + i)%nat) ->
  map f l = map g (seq k (List.length l)).
Proof.
  induction l as [| a rest IH]; intros k H; [reflexivity |].
  cbn [map List.length seq]. f_equal.
  - rewrite (H 0%nat a eq_refl). f_equal. lia.
  - apply IH. intros i b N. rewrite (H (S i) b N). f_equal. lia.
Qed.

(** A tracker with an empty history and any table, after any number of
    measurements. *)
Lemma built_tracker_with (nm : string) (table : list (string * StateProps))
    (scenarios : list (num * num * num)) :
  exists t,
    add_all (mkTracker nm [] table) scenarios = Ok t /\
    loyalty_states t = table /\
    List.length (history t) = List.length scenarios /\
    map timestamp (history t)
      = map (fun i => (Z.of_nat i + 1)%Z) (seq 0 (List.length scenarios)) /\
    Forall (fun r =>
              within 0 100 (health_score r) /\
              (In (loyalty_state r) (map fst table) \/
               loyalty_state r = "Toxic"%string) /\
              (In (loyalty_state r) (map fst table) -> plottable table r))
           (history t).
Proof.
  destruct (add_all_spec scenarios (mkTracker nm [] table))
    as (t & news & Et & Ht & _ & Hl & Hlen & Hts & _).
  destruct (add_all_records scenarios (mkTracker nm [] table))
    as (t' & news' & Et' & Ht' & F).
  rewrite Et in Et'. apply Ok_inj in Et'. subst t'.
  cbn [history app loyalty_states] in Ht, Ht', Hts, Hl, F. rewrite Ht in Ht'.
  subst news'.
  exists t. split; [exact Et |]. split; [exact Hl |]. rewrite Ht.
  split; [exact Hlen |]. split.
  - rewrite <- Hlen. apply map_by_index. intros i a N. apply (Hts i a N).
  - apply Forall_forall. intros r Hin.
    destruct (Forall2_in_r _ _ _ r F Hin) as ([[s d] m] & _ & Hr).
    specialize (Hr nm []). cbn [fst snd] in Hr.
    exact (record_measured (mkTracker nm [] table) s d m _ Hr).
Qed.

(** A new tracker after any number of measurements. *)
Lemma built_tracker (nm : string) (scenarios : list (num * num * num)) :
  exists t,
    add_all (__init__ nm) scenarios = Ok t /\
    loyalty_states t = loyalty_states (__init__ nm) /\
    List.length (history t) = List.length scenarios /\
    map timestamp (history t)
      = map (fun i => (Z.of_nat i + 1)%Z) (seq 0 (List.length scenarios)) /\
    Forall (plottable (loyalty_states (__init__ nm))) (history t).
Proof.
  destruct (built_tracker_with nm (loyalty_states (__init__ nm)) scenarios)
    as (t & E & Ht & Hl & Hx & F).
  exists t. split; [exact E |]. split; [exact Ht |]. split; [exact Hl |].
  split; [exact Hx |].
  eapply Forall_impl; [| exact F]. cbn beta. intros r (_ & [K | T] & P).
  - apply P, K.
  - apply P. rewrite T. cbn. tauto.
Qed.

(** *** The limits of the x axis *)
Lemma rhe_lower (y : Q) : y - (1 # 2) <= inject_Z (rhe y).
Proof.
  pose proof (floor_bounds y) as [F1 F2].
  destruct (rhe_cases y) as [[E H] | [E H]]; rewrite E.
  - lra.
  - rewrite inject_Z_plus. change (inject_Z 1) with 1. lra.
Qed.

(** Below [2 ^ 51] the spacing of the floats is at most one quarter. *)
Lemma RQ_lower (x : Q) : 0 < x -> x < 2 ^ 51 -> x - (1 # 8) <= RQ x.
Proof.
  intros Hx Hb. unfold RQ.
  destruct (Qcompare_spec x 0) as [E | L | G]; [lra | lra |].
  unfold RQpos. set (e := ulp_exp x).
  assert (He : (e <= -2)%Z).
  { pose proof (ilog2_lt x 51 Hx Hb). unfold e, ulp_exp, prec, emin. lia. }
  assert (P : 0 < 2 ^ e) by apply pow2_pos.
  assert (Q4 : 2 ^ e <= 1 # 4).
  { change (1 # 4) with (2 ^ (-2)). apply pow2_le. exact He. }
  pose proof (rhe_lower (x / 2 ^ e)) as R.
  pose proof (div_pow2 x e) as D. fold e in D.
  assert (M : (x / 2 ^ e - (1 # 2)) * 2 ^ e <= inject_Z (rhe (x / 2 ^ e)) * 2 ^ e).
  { apply Qmult_le_compat_r; [exact R | lra]. }
  assert (S : (x / 2 ^ e - (1 # 2)) * 2 ^ e == x - (1 # 2) * 2 ^ e).
  { rewrite <- D at 2. ring. }
  rewrite S in M. lra.
Qed.

Lemma fifth : rnd (2 # 10) = S754_finite false 7205759403792794 (-55).
Proof. vm_compute. reflexivity. Qed.

Lemma fifth_bounds : 1 # 8 < val (rnd (2 # 10)) /\ val (rnd (2 # 10)) < 1.
Proof. split; vm_compute; reflexivity. Qed.

Lemma pow2_51_1000 : 2 ^ 51 + 1 <= 2 ^ 1000.
Proof.
  apply Qle_trans with (2 ^ 52).
  - apply Qle_bool_imp_le. vm_compute. reflexivity.
  - apply pow2_le. lia.
Qed.

Lemma int_as_float (n : Z) :
  (1 <= n < 2 ^ 51)%Z ->
  exists s m e, rnd (inject_Z n) = S754_finite s m e /\
                val (S754_finite s m e) == inject_Z n.
Proof.
  intros Hn.
  assert (B1 : 1 <= inject_Z n) by (change 1 with (inject_Z 1); rewrite <- Zle_Qle; lia).
  assert (B2 : inject_Z n < 2 ^ 51).
  { rewrite pow2_Z by lia. rewrite <- Zlt_Qlt. lia. }
  pose proof pow2_51_1000 as B3.
  destruct (rnd_val (inject_Z n)) as [F V]; [lra |].
  rewrite (RQ_Z n) in V by lia.
  destruct (rnd (inject_Z n)) as [s | s | | s m e]; try discriminate.
  - cbn [val] in V. lra.
  - exists s, m, e. split; [reflexivity | exact V].
Qed.

Lemma right_limit (n : Z) :
  (1 <= n < 2 ^ 51)%Z ->
  exists v, py_add (PInt n) (lit (2 # 10)) = Ok v /\
            is_fin v = true /\ inject_Z n < numval v.
Proof.
  intros Hn. destruct (int_as_float n Hn) as (s & m & e & E & V).
  assert (B1 : 1 <= inject_Z n) by (change 1 with (inject_Z 1); rewrite <- Zle_Qle; lia).
  assert (B2 : inject_Z n <= 2 ^ 51 - 1).
  { assert (A : inject_Z n <= inject_Z (2 ^ 51 - 1)) by (rewrite <- Zle_Qle; lia).
    assert (A' : inject_Z (2 ^ 51 - 1) == 2 ^ 51 - 1) by (vm_compute; reflexivity).
    rewrite <- A'. exact A. }
  pose proof pow2_51_1000 as B3. destruct fifth_bounds as [L1 L2].
  unfold lit, py_add. cbn [to_float]. unfold int_to_float. rewrite E. cbn [bind].
  rewrite fifth in *. cbn [fadd].
  set (f := S754_finite s m e) in *.
  set (g := S754_finite false 7205759403792794 (-55)) in *.
  destruct (rnd_val (val f + val g)) as [F R]; [rewrite V; lra |].
  exists (PFloat (rnd (val f + val g))). split; [reflexivity |].
  split; [exact F |]. cbn [numval]. rewrite R.
  pose proof (RQ_lower (val f + val g) ltac:(rewrite V; lra) ltac:(rewrite V; lra)) as Lw.
  rewrite V in Lw. rewrite V. lra.
Qed.

Lemma left_limit : py_sub (PInt 1) (lit (2 # 10)) = Ok (lit (8 # 10)).
Proof. vm_compute. reflexivity. Qed.

(** *** [min] and [max] of the timestamps *)
Lemma min_of_increasing (n : nat) :
  forall k : nat,
  fold_left (fun m b => if (b <? m)%Z then b else m)
    (map (fun i => (Z.of_nat i + 1)%Z) (seq (S k) n)) (Z.of_nat k + 1)%Z
  = (Z.of_nat k + 1)%Z.
Proof.
  assert (G : forall (l : list nat) (a : Z),
            Forall (fun i => (a <= Z.of_nat i + 1)%Z) l ->
            fold_left (fun m b => if (b <? m)%Z then b else m)
              (map (fun i => (Z.of_nat i + 1)%Z) l) a = a).
  { induction l as [| i l IH]; intros a H; [reflexivity |].
    inversion H as [| ? ? Hi Hl]; subst. cbn [map fold_left].
    destruct (Z.ltb_spec (Z.of_nat i + 1) a); [lia | apply IH, Hl]. }
  intros k. apply G. apply Forall_forall. intros i Hi. apply in_seq in Hi. lia.
Qed.

Lemma max_of_increasing (n : nat) :
  forall k : nat,
  fold_left (fun m b => if (b >? m)%Z then b else m)
    (map (fun i => (Z.of_nat i + 1)%Z) (seq (S k) n)) (Z.of_nat k + 1)%Z
  = (Z.of_nat (k + n) + 1)%Z.
Proof.
  induction n as [| n IH]; intros k.
  - cbn [seq map fold_left]. rewrite Nat.add_0_r. reflexivity.
  - cbn [seq map fold_left].
    destruct (Z.gtb_spec (Z.of_nat (S k) + 1) (Z.of_nat k + 1)); [| lia].
    rewrite IH. f_equal. f_equal. lia.
Qed.

(** *** The plot of a tracker built by its own methods *)
Lemma min_max_timestamps (l : list MetricRecord) (n : nat) :
  map timestamp l = map (fun i => (Z.of_nat i + 1)%Z) (seq 0 (S n)) ->
  py_min_list (map timestamp l) = Value 1%Z /\
  py_max_list (map timestamp l) = Value (Z.of_nat (S n)).
Proof.
  intros H. rewrite H. cbn [seq map py_min_list py_max_list].
  rewrite (min_of_increasing n 0), (max_of_increasing n 0). split; [reflexivity |].
  f_equal. lia.
Qed.

Lemma health_score_tenth (r : MetricRecord) :
  within 0 100 (health_score r) ->
  exists y, arith (py_truediv (health_score r) (PInt 10)) = Value y /\ within 0 10 y.
Proof.
  intros Wh.
  destruct (py_truediv_spec (health_score r) 10 100 10 Wh) as (y & E & W & _);
    try lia.
  exists y. rewrite E. split; [reflexivity | exact W].
Qed.

Lemma match_nonempty {A B : Type} (l : list A) (a b : B) :
  l <> [] -> match l with [] => a | _ :: _ => b end = b.
Proof. destruct l; [congruence | reflexivity]. Qed.

Lemma numbered_nonempty (l : list MetricRecord) (n : nat) :
  map timestamp l = map (fun i => (Z.of_nat i + 1)%Z) (seq 0 (S n)) -> l <> [].
Proof. intros H C. rewrite C in H. discriminate H. Qed.

Lemma health_scores_value (l : list MetricRecord) :
  Forall (fun r => within 0 100 (health_score r)) l ->
  exists hs,
    comprehension (fun h => arith (py_truediv (health_score h) (PInt 10))) l
      = Value hs /\
    Forall2 (fun r y =>
               arith (py_truediv (health_score r) (PInt 10)) = Value y /\
               within 0 10 y) l hs.
Proof.
  intros F. apply comprehension_value. eapply Forall_impl; [| exact F].
  cbn beta. intros r W. destruct (health_score_tenth r W) as (y & E & Wy).
  exists y. split; [exact E |]. split; [exact E | exact Wy].
Qed.

(** A tracker whose records are numbered from 1, hold a health score in
    [0, 100] and a state of the table. *)
Lemma plot_of_tracker (t : LoyaltyTracker) (n : nat) :
  map timestamp (history t) = map (fun i => (Z.of_nat i + 1)%Z) (seq 0 (S n)) ->
  (Z.of_nat (S n) < 2 ^ 51)%Z ->
  Forall (fun r => within 0 100 (health_score r)) (history t) ->
  Forall (fun r => In (loyalty_state r) (map fst (loyalty_states t))) (history t) ->
  exists hs ms right tl,
    plot_analysis t =
      Value (Drawn
        {| x := map timestamp (history t);
           metrics :=
             [ ("Satisfaction"%string, map satisfaction (history t));
               ("True Satisfaction"%string, map true_satisfaction (history t));
               ("Dependency"%string, map dependency (history t));
               ("Manipulation"%string, map manipulation (history t));
               ("Emotional Vulnerability"%string,
                map emotional_vulnerability (history t));
               ("Autonomy"%string, map autonomy (history t)) ];
           smooth_range := (1%Z, Z.of_nat (S n));
           health_scores := hs;
           state_markers := ms;
           ylim := (PFloat (fneg (rnd (5 # 10))), PInt 11);
           xlim := (lit (8 # 10), right);
           health_gradient := map health_score (history t);
           extent := (1%Z, Z.of_nat (S n), 0%Z, 1%Z);
           timeline := tl;
           legend_elements :=
             map (fun item => (color (snd item), fst item)) (loyalty_states t) |}) /\
    Forall2 (fun r y =>
               arith (py_truediv (health_score r) (PInt 10)) = Value y /\
               within 0 10 y) (history t) hs /\
    Forall2 (fun ih mk =>
               exists y props,
                 arith (py_truediv (health_score (snd ih)) (PInt 10)) = Value y /\
                 getitem (loyalty_states t) (loyalty_state (snd ih)) = Value props /\
                 mk = {| marker_x := timestamp (snd ih);
                         marker_y := y;
                         state_color := color props;
                         offset := if Nat.even (fst ih) then lit (8 # 10)
                                   else PFloat (fneg (rnd (15 # 10)));
                         va := if Nat.even (fst ih) then "bottom"%string
                               else "top"%string |})
            (enumerate 0 (history t)) ms /\
    py_add (PInt (Z.of_nat (S n))) (lit (2 # 10)) = Ok right /\
    is_fin right = true /\
    inject_Z (Z.of_nat (S n)) < numval right /\
    Forall2 (fun ih p => p = (timestamp (snd ih), loyalty_state (snd ih)))
            (enumerate 0 (history t)) tl.
Proof.
  intros Hx Hbig Hh Hk.
  destruct (min_max_timestamps (history t) n Hx) as [Emin Emax].
  (* health scores *)
  destruct (health_scores_value (history t) Hh) as (hs & Ehs & Fhs).
  (* state markers *)
  destruct (comprehension_value
              (fun ih => state_marker t (map timestamp (history t)) hs (fst ih) (snd ih))
              (fun ih mk =>
                 exists y props,
                   arith (py_truediv (health_score (snd ih)) (PInt 10)) = Value y /\
                   getitem (loyalty_states t) (loyalty_state (snd ih)) = Value props /\
                   mk = {| marker_x := timestamp (snd ih);
                           marker_y := y;
                           state_color := color props;
                           offset := if Nat.even (fst ih) then lit (8 # 10)
                                     else PFloat (fneg (rnd (15 # 10)));
                           va := if Nat.even (fst ih) then "bottom"%string
                                 else "top"%string |})
              (enumerate 0 (history t))) as (ms & Ems & Fms).
  { apply Forall_forall. intros [i h] Hin. cbn [fst snd].
    apply in_enumerate in Hin.
    assert (Hi : In h (history t)) by apply (nth_error_In _ _ Hin).
    pose proof (proj1 (Forall_forall _ _) Hk h Hi) as K. cbn beta in K.
    destruct (getitem_key _ _ K) as (props & G & _).
    destruct (Forall2_nth _ _ _ Fhs i h Hin) as (y & Ny & Ey & _).
    eexists. split; [apply (state_marker_value t hs i h y props Hin Ny G) |].
    exists y, props. split; [exact Ey |]. split; [exact G | reflexivity]. }
  (* limits of the x axis *)
  destruct (right_limit (Z.of_nat (S n)) ltac:(lia)) as (right & Er & Fr & Vr).
  (* timeline *)
  destruct (comprehension_value
              (fun ih => xi <~ index (map timestamp (history t)) (fst ih) ;;
                         Value (xi, loyalty_state (snd ih)))
              (fun ih p => p = (timestamp (snd ih), loyalty_state (snd ih)))
              (enumerate 0 (history t))) as (tl & Etl & Ftl).
  { apply Forall_forall. intros [i h] Hin. cbn [fst snd].
    apply in_enumerate in Hin. rewrite (timeline_value _ i h Hin).
    eexists. split; reflexivity. }
  exists hs, ms, right, tl.
  split.
  - unfold plot_analysis. rewrite match_nonempty by apply (numbered_nonempty _ n Hx).
    rewrite Emin, Emax. cbn [and_then]. rewrite Ehs. cbn [and_then].
    rewrite Ems. cbn [and_then]. rewrite left_limit, Er. cbn [arith and_then].
    rewrite Etl. cbn [and_then]. reflexivity.
  - split; [exact Fhs |]. split; [exact Fms |]. split; [exact Er |].
    split; [exact Fr |]. split; [exact Vr | exact Ftl].
Qed.


Lemma plot_of_built_tracker (nm : string) (scenarios : list (num * num * num)) :
  (0 < List.length scenarios)%nat ->
  (Z.of_nat (List.length scenarios) < 2 ^ 51)%Z ->
  exists t hs ms right tl,
    add_all (__init__ nm) scenarios = Ok t /\
    plot_analysis t =
      Value (Drawn
        {| x := map timestamp (history t);
           metrics :=
             [ ("Satisfaction"%string, map satisfaction (history t));
               ("True Satisfaction"%string, map true_satisfaction (history t));
               ("Dependency"%string, map dependency (history t));
               ("Manipulation"%string, map manipulation (history t));
               ("Emotional Vulnerability"%string,
                map emotional_vulnerability (history t));
               ("Autonomy"%string, map autonomy (history t)) ];
           smooth_range := (1%Z, Z.of_nat (List.length scenarios));
           health_scores := hs;
           state_markers := ms;
           ylim := (PFloat (fneg (rnd (5 # 10))), PInt 11);
           xlim := (lit (8 # 10), right);
           health_gradient := map health_score (history t);
           extent := (1%Z, Z.of_nat (List.length scenarios), 0%Z, 1%Z);
           timeline := tl;
           legend_elements :=
             map (fun item => (color (snd item), fst item)) (loyalty_states t) |}) /\
    loyalty_states t = loyalty_states (__init__ nm) /\
    List.length (history t) = List.length scenarios /\
    map timestamp (history t)
      = map (fun i => (Z.of_nat i + 1)%Z) (seq 0 (List.length scenarios)) /\
    Forall (plottable (loyalty_states (__init__ nm))) (history t) /\
    Forall2 (fun r y =>
               arith (py_truediv (health_score r) (PInt 10)) = Value y /\
               within 0 10 y) (history t) hs /\
    Forall2 (fun ih mk =>
               exists y props,
                 arith (py_truediv (health_score (snd ih)) (PInt 10)) = Value y /\
                 getitem (loyalty_states t) (loyalty_state (snd ih)) = Value props /\
                 mk = {| marker_x := timestamp (snd ih);
                         marker_y := y;
                         state_color := color props;
                         offset := if Nat.even (fst ih) then lit (8 # 10)
                                   else PFloat (fneg (rnd (15 # 10)));
                         va := if Nat.even (fst ih) then "bottom"%string
                               else "top"%string |})
            (enumerate 0 (history t)) ms /\
    py_add (PInt (Z.of_nat (List.length scenarios))) (lit (2 # 10)) = Ok right /\
    is_fin right = true /\
    inject_Z (Z.of_nat (List.length scenarios)) < numval right /\
    Forall2 (fun ih p => p = (timestamp (snd ih), loyalty_state (snd ih)))
            (enumerate 0 (history t)) tl.
Proof.
  intros Hpos Hbig.
  destruct (built_tracker nm scenarios) as (t & E & Ht & Hl & Hx & Hp).
  set (N := List.length scenarios) in *.
  destruct N as [| n] eqn:EN; [lia |].
  destruct (plot_of_tracker t n Hx Hbig)
    as (hs & ms & right & tl & P & Fhs & Fms & Er & Fr & Vr & Ftl).
  { eapply Forall_impl; [| exact Hp]. cbn beta.
    intros r (_ & _ & _ & _ & _ & _ & W & _). exact W. }
  { eapply Forall_impl; [| exact Hp]. cbn beta.
    intros r (_ & _ & _ & _ & _ & _ & _ & K). rewrite Ht. exact K. }
  exists t, hs, ms, right, tl.
  split; [exact E |]. split; [exact P |]. split; [exact Ht |].
  split; [exact Hl |]. split; [exact Hx |]. split; [exact Hp |].
  split; [exact Fhs |]. split; [exact Fms |]. split; [exact Er |].
  split; [exact Fr |]. split; [exact Vr | exact Ftl].
Qed.

Lemma Value_inj {A : Type} (a b : A) : Value a = Value b -> a = b.
Proof. intros H. injection H as H. exact H. Qed.

Lemma Forall2_impl_in {A B : Type} (R R' : A -> B -> Prop) (l : list A) (l' : list B) :
  (forall a b, In a l -> R a b -> R' a b) -> Forall2 R l l' -> Forall2 R' l l'.
Proof.
  intros H F. induction F as [| a b l l' Hab _ IH]; constructor.
  - apply H; [left; reflexivity | exact Hab].
  - apply IH. intros a' b' Hin. apply H. right. exact Hin.
Qed.

Lemma within_inside_ylim (v : num) :
  within 0 10 v -> inside (PFloat (fneg (rnd (5 # 10))), PInt 11) v.
Proof.
  intros [F [B1 B2]]. change (inject_Z 0) with 0 in B1. change (inject_Z 10) with 10 in B2.
  unfold inside. cbn [fst snd]. split.
  - apply py_lt_fin; [reflexivity | exact F |].
    assert (L : numval (PFloat (fneg (rnd (5 # 10)))) < 0) by (vm_compute; reflexivity).
    lra.
  - apply py_lt_fin; [exact F | reflexivity |]. cbn [numval].
    change (inject_Z 11) with 11. lra.
Qed.

Lemma inside_xlim (n xi : Z) (right : num) :
  is_fin right = true -> inject_Z n < numval right -> (1 <= xi <= n)%Z ->
  inside (lit (8 # 10), right) (PInt xi).
Proof.
  intros F V [H1 H2]. rewrite Zle_Qle in H1, H2. change (inject_Z 1) with 1 in H1.
  unfold inside. cbn [fst snd]. split.
  - apply py_lt_fin; [reflexivity | reflexivity |].
    assert (L : numval (lit (8 # 10)) < 1) by (vm_compute; reflexivity).
    cbn [numval] in *. lra.
  - apply py_lt_fin; [reflexivity | exact F |]. cbn [numval]. lra.
Qed.

Lemma Forall_map_field (table : list (string * StateProps)) (f : MetricRecord -> num)
    (l : list MetricRecord) :
  (forall r, plottable table r -> within 0 10 (f r)) ->
  Forall (plottable table) l ->
  Forall (inside (PFloat (fneg (rnd (5 # 10))), PInt 11)) (map f l).
Proof.
  intros Hf H. apply Forall_forall. intros v Hv. apply in_map_iff in Hv.
  destruct Hv as (r & <- & Hr). apply within_inside_ylim, Hf.
  apply (proj1 (Forall_forall _ _) H r Hr).
Qed.



End PlotFacts.

(** ** The properties *)

Import StateOrder Plot.
Import SpecFloatAgreement NormalisationFacts RecordFacts HistoryFacts PlotFacts.

(** X1.  Input normalisation is idempotent.  For all inputs the call
    succeeds, the [satisfaction], [dependency] and [manipulation] of the
    returned record lie in [0, 10], and calling [calculate_metrics] again on
    these three returned values gives the same record. *)
Theorem normalised_inputs_round_trip (self : LoyaltyTracker) (s d m : num) :
  exists r, calculate_metrics self s d m = Ok r /\
    in_range 0 10 (satisfaction r) = true /\
    in_range 0 10 (dependency r) = true /\
    in_range 0 10 (manipulation r) = true /\
    calculate_metrics self (satisfaction r) (dependency r) (manipulation r) = Ok r.
Proof.
  destruct (calculate_metrics_inputs self s d m) as (r & E & Hs & Hd & Hm).
  exists r. split; [exact E |]. rewrite Hs, Hd, Hm.
  split; [apply within_in_range, clamp_within |].
  split; [apply within_in_range, clamp_within |].
  split; [apply within_in_range, clamp_within |].
  rewrite <- E. apply calculate_metrics_clamp; apply clamp_idem.
Qed.

(** X2.  Normalisation by cases, in each of the three argument positions.
    An argument that is at least 10 gives exactly the result of the [int]
    10, and an argument that is at most 0 exactly the result of the [int] 0
    (so the floats 10.0, 0.0 and -0.0 are recorded as the ints 10 and 0); an
    argument strictly between 0 and 10 is recorded as it was passed. *)
Theorem normalisation_by_cases (self : LoyaltyTracker) (x a b : num) :
  (py_le (PInt 10) x = true ->
   calculate_metrics self x a b = calculate_metrics self (PInt 10) a b /\
   calculate_metrics self a x b = calculate_metrics self a (PInt 10) b /\
   calculate_metrics self a b x = calculate_metrics self a b (PInt 10)) /\
  (py_le x (PInt 0) = true ->
   calculate_metrics self x a b = calculate_metrics self (PInt 0) a b /\
   calculate_metrics self a x b = calculate_metrics self a (PInt 0) b /\
   calculate_metrics self a b x = calculate_metrics self a b (PInt 0)) /\
  (py_lt (PInt 0) x = true -> py_lt x (PInt 10) = true ->
   (exists r, calculate_metrics self x a b = Ok r /\ satisfaction r = x) /\
   (exists r, calculate_metrics self a x b = Ok r /\ dependency r = x) /\
   (exists r, calculate_metrics self a b x = Ok r /\ manipulation r = x)).
Proof.
  split; [| split].
  - intros H. apply clamp_ge_10 in H.
    split; [| split]; apply calculate_metrics_clamp;
      first [exact H | exact (eq_refl (clamp a)) | exact (eq_refl (clamp b))].
  - intros H. apply clamp_le_0 in H.
    split; [| split]; apply calculate_metrics_clamp;
      first [exact H | exact (eq_refl (clamp a)) | exact (eq_refl (clamp b))].
  - intros H0 H10.
    assert (G : py_gt x (PInt 0) = true).
    { unfold py_gt. unfold py_lt in H0. rewrite (cmp_antisym (PInt 0) x).
      destruct (cmp (PInt 0) x) as [[| |] |]; try discriminate. reflexivity. }
    pose proof (clamp_inside x G H10) as C.
    split; [| split].
    + destruct (calculate_metrics_inputs self x a b) as (r & E & Hs & _).
      exists r. split; [exact E | congruence].
    + destruct (calculate_metrics_inputs self a x b) as (r & E & _ & Hd & _).
      exists r. split; [exact E | congruence].
    + destruct (calculate_metrics_inputs self a b x) as (r & E & _ & _ & Hm).
      exists r. split; [exact E | congruence].
Qed.

Lemma normalisation_by_cases_witness :
  (calculate_metrics (__init__ "a") (lit (125 # 10)) (PInt 3) (PInt 2)
     = calculate_metrics (__init__ "a") (PInt 10) (PInt 3) (PInt 2)) /\
  (calculate_metrics (__init__ "a") (PInt 3) (PInt 2) (PInt (-4))
     = calculate_metrics (__init__ "a") (PInt 3) (PInt 2) (PInt 0)) /\
  (exists r, calculate_metrics (__init__ "a") (PInt 3) (lit (65 # 10)) (PInt 2) = Ok r /\
             dependency r = lit (65 # 10)).
Proof.
  split; [| split].
  - refine (proj1 (proj1 (normalisation_by_cases (__init__ "a")
              (lit (125 # 10)) (PInt 3) (PInt 2)) _)).
    vm_compute. reflexivity.
  - refine (proj2 (proj2 (proj1 (proj2 (normalisation_by_cases (__init__ "a")
              (PInt (-4)) (PInt 3) (PInt 2))) _))).
    vm_compute. reflexivity.
  - refine (proj1 (proj2 (proj2 (proj2 (normalisation_by_cases (__init__ "a")
              (lit (65 # 10)) (PInt 3) (PInt 2))) _ _))).
    + vm_compute. reflexivity.
    + vm_compute. reflexivity.
Defined.

(** X3.  The best case.  On a tracker with the constructor's table and
    any history, satisfaction at least 10 with dependency and manipulation
    at most 0 gives true satisfaction 10.0, autonomy 10.0, no vulnerability
    and no power imbalance, health score 100.0, state "Healthy" and no risk
    factor: the upper end of the health score's range is attained. *)
Theorem best_case (nm : string) (hist : list MetricRecord) (s d m : num) :
  py_le (PInt 10) s = true -> py_le d (PInt 0) = true -> py_le m (PInt 0) = true ->
  calculate_metrics (mkTracker nm hist (loyalty_states (__init__ nm))) s d m =
    Ok {| timestamp := Z.of_nat (List.length hist) + 1;
          satisfaction := PInt 10;
          true_satisfaction := lit 10;
          dependency := PInt 0;
          manipulation := PInt 0;
          emotional_vulnerability := lit 0;
          autonomy := lit 10;
          power_imbalance := lit 0;
          health_score := lit 100;
          loyalty_state := "Healthy";
          risk_factors := [] |}.
Proof.
  intros Hs Hd Hm.
  rewrite (calculate_metrics_clamp _ s d m (PInt 10) (PInt 0) (PInt 0)).
  - exact (calculate_metrics_transfer nm nm hist _ _ _ _ _ (best_record nm)).
  - apply clamp_ge_10, Hs.
  - apply clamp_le_0, Hd.
  - apply clamp_le_0, Hm.
Qed.

Lemma best_case_witness :
  exists r,
    calculate_metrics (mkTracker "a" [] (loyalty_states (__init__ "a")))
      (lit (125 # 10)) (PInt (-1)) (PFloat (S754_zero true)) = Ok r /\
    health_score r = lit 100.
Proof.
  eexists. split.
  - apply (best_case "a" [] (lit (125 # 10)) (PInt (-1)) (PFloat (S754_zero true)));
      vm_compute; reflexivity.
  - reflexivity.
Defined.

(** X4.  The worst case.  On a tracker with the constructor's table and
    any history, satisfaction at most 0 with dependency and manipulation at
    least 10 gives true satisfaction 0.0, autonomy 0, vulnerability and
    power imbalance 10 (the three as [int]s, the caps having replaced the
    floats), health score 0.0, state "Toxic", selected by its threshold 0,
    and all four risk factors in the order of the tests. *)
Theorem worst_case (nm : string) (hist : list MetricRecord) (s d m : num) :
  py_le s (PInt 0) = true -> py_le (PInt 10) d = true -> py_le (PInt 10) m = true ->
  calculate_metrics (mkTracker nm hist (loyalty_states (__init__ nm))) s d m =
    Ok {| timestamp := Z.of_nat (List.length hist) + 1;
          satisfaction := PInt 0;
          true_satisfaction := lit 0;
          dependency := PInt 10;
          manipulation := PInt 10;
          emotional_vulnerability := PInt 10;
          autonomy := PInt 0;
          power_imbalance := PInt 10;
          health_score := lit 0;
          loyalty_state := "Toxic";
          risk_factors := ["High Manipulation"; "High Dependency";
                           "Low Satisfaction"; "Low Autonomy"]%string |}.
Proof.
  intros Hs Hd Hm.
  rewrite (calculate_metrics_clamp _ s d m (PInt 0) (PInt 10) (PInt 10)).
  - exact (calculate_metrics_transfer nm nm hist _ _ _ _ _ (worst_record nm)).
  - apply clamp_le_0, Hs.
  - apply clamp_ge_10, Hd.
  - apply clamp_ge_10, Hm.
Qed.

Lemma worst_case_witness :
  exists r,
    calculate_metrics (mkTracker "a" [] (loyalty_states (__init__ "a")))
      (PInt (-3)) (lit 10) (PFloat (S754_infinity false)) = Ok r /\
    health_score r = lit 0.
Proof.
  eexists. split.
  - apply (worst_case "a" [] (PInt (-3)) (lit 10) (PFloat (S754_infinity false)));
      vm_compute; reflexivity.
  - reflexivity.
Defined.

(** X5.  The returned [true_satisfaction] is monotone: it does not
    decrease when satisfaction increases and manipulation decreases at the
    same time, whatever the dependencies of the two calls are. *)
Theorem true_satisfaction_monotone (self : LoyaltyTracker)
    (s1 s2 d1 d2 m1 m2 : num) :
  py_le s1 s2 = true -> py_le m2 m1 = true ->
  exists r1 r2,
    calculate_metrics self s1 d1 m1 = Ok r1 /\
    calculate_metrics self s2 d2 m2 = Ok r2 /\
    py_le (true_satisfaction r1) (true_satisfaction r2) = true.
Proof.
  intros Hs Hm. apply clamp_mono in Hs. apply clamp_mono in Hm.
  destruct (metric_values self s1 d1 m1) as (r1 & E1 & (F1 & V1) & _).
  destruct (metric_values self s2 d2 m2) as (r2 & E2 & (F2 & V2) & _).
  exists r1, r2. split; [exact E1 |]. split; [exact E2 |].
  apply py_le_fin; try assumption. rewrite V1, V2. apply roundQ_mono.
  apply Qle_trans with (tsQ (numval (clamp s2)) (numval (clamp m1))).
  - apply tsQ_mono_s; [apply clamp_range | exact Hs].
  - apply tsQ_anti_m; [apply clamp_range | exact Hm].
Qed.

Lemma true_satisfaction_monotone_witness :
  exists r1 r2,
    calculate_metrics (__init__ "a") (PInt 3) (PInt 9) (lit (65 # 10)) = Ok r1 /\
    calculate_metrics (__init__ "a") (lit (35 # 10)) (PInt 1) (PInt 6) = Ok r2 /\
    py_le (true_satisfaction r1) (true_satisfaction r2) = true.
Proof.
  apply (true_satisfaction_monotone (__init__ "a")
           (PInt 3) (lit (35 # 10)) (PInt 9) (PInt 1) (lit (65 # 10)) (PInt 6));
    vm_compute; reflexivity.
Defined.

(** X6.  The manipulation discount never raises satisfaction.  When the
    satisfaction argument is an [int] or a binary64 number, the returned
    [true_satisfaction] is at most the returned [satisfaction] rounded to
    the same two decimals, and it equals it when manipulation is at most
    0. *)
Theorem discount_never_raises_satisfaction (self : LoyaltyTracker) (s d m : num) :
  (forall f, s = PFloat f -> valid f) ->
  exists r,
    calculate_metrics self s d m = Ok r /\
    py_le (true_satisfaction r) (py_round (satisfaction r) 2) = true /\
    (py_le m (PInt 0) = true ->
     cmp (true_satisfaction r) (py_round (satisfaction r) 2) = Some Eq).
Proof.
  intros V.
  destruct (metric_values self s d m) as (r & E & (F & Vts) & _).
  destruct (calculate_metrics_inputs self s d m) as (r' & E' & Hs & _).
  rewrite E in E'. apply Ok_inj in E'. subst r'.
  pose proof (clamp_within s) as Ws. pose proof (clamp_range s) as Bs.
  pose proof (clamp_range m) as Bm.
  pose proof (RQ_representable (clamp s) Ws (clamp_valid s V)) as Rs.
  destruct (py_round_spec (clamp s) 2 0 10 Ws ltac:(lia) ltac:(lia)) as [[Fr _] Vr].
  exists r. split; [exact E |]. rewrite Hs. split.
  - apply py_le_fin; [exact F | exact Fr |]. rewrite Vts, Vr. apply roundQ_mono.
    unfold tsQ. rewrite <- Rs at 2. apply RQ_mono.
    pose proof (discount_le_1 (numval (clamp m)) ltac:(apply Bm)) as D.
    assert (M : numval (clamp s) * RQ (1 - RQ (numval (clamp m) / 15))
                <= numval (clamp s) * 1).
    { apply Qmult_le_l'; [apply Bs | exact D]. }
    lra.
  - intros Hm. rewrite (clamp_le_0 m Hm) in Vts. cbn [numval] in Vts.
    rewrite (cmp_fin _ _ F Fr). f_equal. apply (proj1 (Qeq_alt _ _)).
    rewrite Vts, Vr. apply roundQ_compat. unfold tsQ.
    change (inject_Z 0) with 0. rewrite discount_at_0.
    rewrite <- Rs at 2. apply RQ_compat. ring.
Qed.

Lemma discount_never_raises_satisfaction_witness :
  exists r,
    calculate_metrics (__init__ "a") (lit (65 # 10)) (PInt 3) (PInt 0) = Ok r /\
    py_le (true_satisfaction r) (py_round (satisfaction r) 2) = true.
Proof.
  destruct (discount_never_raises_satisfaction (__init__ "a")
              (lit (65 # 10)) (PInt 3) (PInt 0)) as (r & E & H & _).
  - intros f Hf. injection Hf as <-. apply rnd_valid.
  - exists r. split; [exact E | exact H].
Defined.

(** X7.  The returned [autonomy] is antitone: it does not increase when
    dependency and manipulation increase, whatever the satisfactions of the
    two calls are. *)
Theorem autonomy_antitone (self : LoyaltyTracker) (s1 s2 d1 d2 m1 m2 : num) :
  py_le d1 d2 = true -> py_le m1 m2 = true ->
  exists r1 r2,
    calculate_metrics self s1 d1 m1 = Ok r1 /\
    calculate_metrics self s2 d2 m2 = Ok r2 /\
    py_le (autonomy r2) (autonomy r1) = true.
Proof.
  intros Hd Hm. apply clamp_mono in Hd. apply clamp_mono in Hm.
  destruct (metric_values self s1 d1 m1) as (r1 & E1 & _ & _ & (F1 & V1) & _).
  destruct (metric_values self s2 d2 m2) as (r2 & E2 & _ & _ & (F2 & V2) & _).
  exists r1, r2. split; [exact E1 |]. split; [exact E2 |].
  apply py_le_fin; try assumption. rewrite V1, V2. apply roundQ_mono.
  apply auQ_anti; assumption.
Qed.

Lemma autonomy_antitone_witness :
  exists r1 r2,
    calculate_metrics (__init__ "a") (PInt 3) (PInt 4) (lit (25 # 10)) = Ok r1 /\
    calculate_metrics (__init__ "a") (PInt 8) (lit (45 # 10)) (PInt 6) = Ok r2 /\
    py_le (autonomy r2) (autonomy r1) = true.
Proof.
  apply (autonomy_antitone (__init__ "a")
           (PInt 3) (PInt 8) (PInt 4) (lit (45 # 10)) (lit (25 # 10)) (PInt 6));
    vm_compute; reflexivity.
Defined.

(** X8.  The returned [emotional_vulnerability] and [power_imbalance]
    are monotone: neither decreases when dependency and manipulation
    increase, whatever the satisfactions of the two calls are. *)
Theorem vulnerability_and_imbalance_monotone (self : LoyaltyTracker)
    (s1 s2 d1 d2 m1 m2 : num) :
  py_le d1 d2 = true -> py_le m1 m2 = true ->
  exists r1 r2,
    calculate_metrics self s1 d1 m1 = Ok r1 /\
    calculate_metrics self s2 d2 m2 = Ok r2 /\
    py_le (emotional_vulnerability r1) (emotional_vulnerability r2) = true /\
    py_le (power_imbalance r1) (power_imbalance r2) = true.
Proof.
  intros Hd Hm. apply clamp_mono in Hd. apply clamp_mono in Hm.
  destruct (metric_values self s1 d1 m1)
    as (r1 & E1 & _ & (Fe1 & Ve1) & _ & (Fp1 & Vp1)).
  destruct (metric_values self s2 d2 m2)
    as (r2 & E2 & _ & (Fe2 & Ve2) & _ & (Fp2 & Vp2)).
  exists r1, r2. split; [exact E1 |]. split; [exact E2 |]. split.
  - apply py_le_fin; try assumption. rewrite Ve1, Ve2. apply roundQ_mono.
    apply evQ_mono; assumption.
  - apply py_le_fin; try assumption. rewrite Vp1, Vp2. apply roundQ_mono.
    apply piQ_mono; assumption.
Qed.

Lemma vulnerability_and_imbalance_monotone_witness :
  exists r1 r2,
    calculate_metrics (__init__ "a") (PInt 3) (PInt 4) (lit (25 # 10)) = Ok r1 /\
    calculate_metrics (__init__ "a") (PInt 8) (lit (45 # 10)) (PInt 6) = Ok r2 /\
    py_le (emotional_vulnerability r1) (emotional_vulnerability r2) = true /\
    py_le (power_imbalance r1) (power_imbalance r2) = true.
Proof.
  apply (vulnerability_and_imbalance_monotone (__init__ "a")
           (PInt 3) (PInt 8) (PInt 4) (lit (45 # 10)) (lit (25 # 10)) (PInt 6));
    vm_compute; reflexivity.
Defined.

(** X9.  The caps of the core metrics never change a value.  For all
    inputs, the sums [dependency * 0.7 + manipulation * 0.3] and
    [manipulation * 0.6 + dependency * 0.4] and the difference
    [10 - (dependency * 0.5 + manipulation * 0.5)] are computed without
    exception from the normalised inputs, the record holds their capped and
    rounded values, and [min(10, e)], [max(0, a)] and [min(10, p)] compare
    equal to [e], [a] and [p]: in binary64 arithmetic the sums never exceed
    10 and the difference is never negative, so a cap can only replace the
    float 10.0 or 0.0 by the [int]. *)
Theorem caps_never_change_a_value (self : LoyaltyTracker) (s d m : num) :
  let d' := py_max (PInt 0) (py_min (PInt 10) d) in
  let m' := py_max (PInt 0) (py_min (PInt 10) m) in
  exists r e a p,
    calculate_metrics self s d m = Ok r /\
    (x <- py_mul d' (lit (7 # 10)) ;; y <- py_mul m' (lit (3 # 10)) ;; py_add x y)
      = Ok e /\
    (x <- py_mul d' (lit (5 # 10)) ;; y <- py_mul m' (lit (5 # 10)) ;;
     z <- py_add x y ;; py_sub (PInt 10) z) = Ok a /\
    (x <- py_mul m' (lit (6 # 10)) ;; y <- py_mul d' (lit (4 # 10)) ;; py_add x y)
      = Ok p /\
    emotional_vulnerability r = py_round (py_min (PInt 10) e) 2 /\
    autonomy r = py_round (py_max (PInt 0) a) 2 /\
    power_imbalance r = py_round (py_min (PInt 10) p) 2 /\
    cmp (py_min (PInt 10) e) e = Some Eq /\
    cmp (py_max (PInt 0) a) a = Some Eq /\
    cmp (py_min (PInt 10) p) p = Some Eq.
Proof.
  intros d' m'. change d' with (clamp d). change m' with (clamp m). clear d' m'.
  pose proof (clamp_within d) as Wd. pose proof (clamp_within m) as Wm.
  pose proof (clamp_range d) as Bd. pose proof (clamp_range m) as Bm.
  destruct blend_at_10 as (T1 & T2 & T3).
  destruct (blend_spec (clamp d) (clamp m) (7 # 10) (3 # 10) Wd Wm) as (e & Ee & We & Ve);
    [lra | lra |].
  destruct (blend_spec (clamp d) (clamp m) (5 # 10) (5 # 10) Wd Wm) as (z & Ez & Wz & Vz);
    [lra | lra |].
  destruct (blend_spec (clamp m) (clamp d) (6 # 10) (4 # 10) Wm Wd) as (p & Ep & Wp & Vp);
    [lra | lra |].
  assert (Le : numval e <= 10).
  { rewrite Ve. apply blend_le_10; try assumption; apply lval_nonneg; lra. }
  assert (Lz : numval z <= 10).
  { rewrite Vz. apply blend_le_10; try assumption; apply lval_nonneg; lra. }
  assert (Lp : numval p <= 10).
  { rewrite Vp. apply blend_le_10; try assumption; apply lval_nonneg; lra. }
  destruct (py_sub_spec (PInt 10) z 10 10 0 20 (int_within 10) Wz)
    as (a & Ea & Wa & Va); try lia.
  assert (Pa : 0 <= numval a).
  { rewrite Va. apply RQ_nonneg. cbn [numval]. change (inject_Z 10) with 10. lra. }
  destruct (calculate_metrics_total self s d m) as (r & E & _).
  pose proof (metric_formulas self s d m) as H. rewrite E in H.
  destruct H as (_ & He & Ha & Hp).
  exists r, e, a, p. split; [exact E |]. split; [exact Ee |].
  assert (Ea' : (x <- py_mul (clamp d) (lit (5 # 10)) ;;
                 y <- py_mul (clamp m) (lit (5 # 10)) ;;
                 z0 <- py_add x y ;; py_sub (PInt 10) z0) = Ok a).
  { destruct (py_mul (clamp d) (lit (5 # 10))) as [x |]; cbn [bind] in *;
      [| discriminate].
    destruct (py_mul (clamp m) (lit (5 # 10))) as [y |]; cbn [bind] in *;
      [| discriminate].
    rewrite Ez. cbn [bind]. exact Ea. }
  split; [exact Ea' |]. split; [exact Ep |].
  split.
  { apply Ok_inj. rewrite <- He. clear - Ee.
    destruct (py_mul (clamp d) (lit (7 # 10))) as [x |]; cbn [bind] in *;
      [| discriminate].
    destruct (py_mul (clamp m) (lit (3 # 10))) as [y |]; cbn [bind] in *;
      [| discriminate].
    rewrite Ee. reflexivity. }
  split.
  { apply Ok_inj. rewrite <- Ha. clear - Ea'.
    destruct (py_mul (clamp d) (lit (5 # 10))) as [x |]; cbn [bind] in *;
      [| discriminate].
    destruct (py_mul (clamp m) (lit (5 # 10))) as [y |]; cbn [bind] in *;
      [| discriminate].
    destruct (py_add x y) as [z0 |]; cbn [bind] in *; [| discriminate].
    rewrite Ea'. reflexivity. }
  split.
  { apply Ok_inj. rewrite <- Hp. clear - Ep.
    destruct (py_mul (clamp m) (lit (6 # 10))) as [x |]; cbn [bind] in *;
      [| discriminate].
    destruct (py_mul (clamp d) (lit (4 # 10))) as [y |]; cbn [bind] in *;
      [| discriminate].
    rewrite Ep. reflexivity. }
  split; [apply cap_is_idle; assumption |].
  split; [apply floor_is_idle; [apply Wa | exact Pa] |].
  apply cap_is_idle; assumption.
Qed.

(** X10.  Inputs without influence.  Changing dependency alone leaves the
    returned [true_satisfaction] as it is, and changing satisfaction alone
    leaves [emotional_vulnerability], [autonomy] and [power_imbalance] as
    they are; this holds for all inputs, NaN and the infinities
    included. *)
Theorem inputs_without_influence (self : LoyaltyTracker) (s d m s' d' : num) :
  exists r r1 r2,
    calculate_metrics self s d m = Ok r /\
    calculate_metrics self s d' m = Ok r1 /\
    calculate_metrics self s' d m = Ok r2 /\
    true_satisfaction r1 = true_satisfaction r /\
    emotional_vulnerability r2 = emotional_vulnerability r /\
    autonomy r2 = autonomy r /\
    power_imbalance r2 = power_imbalance r.
Proof.
  destruct (calculate_metrics_total self s d m) as (r & E & _).
  destruct (calculate_metrics_total self s d' m) as (r1 & E1 & _).
  destruct (calculate_metrics_total self s' d m) as (r2 & E2 & _).
  pose proof (metric_formulas self s d m) as H. rewrite E in H.
  pose proof (metric_formulas self s d' m) as H1. rewrite E1 in H1.
  pose proof (metric_formulas self s' d m) as H2. rewrite E2 in H2.
  destruct H as (T & V & A & P). destruct H1 as (T1 & _).
  destruct H2 as (_ & V2 & A2 & P2).
  exists r, r1, r2. split; [exact E |]. split; [exact E1 |]. split; [exact E2 |].
  split; [apply Ok_inj; rewrite <- T1; exact T |].
  split; [apply Ok_inj; rewrite <- V2; exact V |].
  split; [apply Ok_inj; rewrite <- A2; exact A |].
  apply Ok_inj; rewrite <- P2; exact P.
Qed.

(** X11.  The loyalty state is monotone in the inputs.  With the
    constructor's table, when satisfaction increases and dependency and
    manipulation decrease, the state of the second record is the same as
    the state of the first or a healthier one: its entry comes no later in
    the table. *)
Theorem loyalty_state_monotone (nm : string) (hist : list MetricRecord)
    (s1 s2 d1 d2 m1 m2 : num) :
  py_le s1 s2 = true -> py_le d2 d1 = true -> py_le m2 m1 = true ->
  let self := mkTracker nm hist (loyalty_states (__init__ nm)) in
  exists r1 r2,
    calculate_metrics self s1 d1 m1 = Ok r1 /\
    calculate_metrics self s2 d2 m2 = Ok r2 /\
    (position (loyalty_state r2) (loyalty_states self)
       <= position (loyalty_state r1) (loyalty_states self))%nat.
Proof.
  intros Hs Hd Hm self.
  apply clamp_mono in Hs. apply clamp_mono in Hd. apply clamp_mono in Hm.
  destruct (state_of_record self s1 d1 m1) as (r1 & h1 & E1 & F1 & V1 & S1 & _).
  destruct (state_of_record self s2 d2 m2) as (r2 & h2 & E2 & F2 & V2 & S2 & _).
  exists r1, r2. split; [exact E1 |]. split; [exact E2 |].
  assert (L : numval h1 <= numval h2).
  { rewrite V1, V2. apply hQ_mono; [| exact Hd | exact Hm].
    apply Qle_trans with (tsQ (numval (clamp s2)) (numval (clamp m1))).
    - apply tsQ_mono_s; [apply clamp_range | exact Hs].
    - apply tsQ_anti_m; [apply clamp_range | exact Hm]. }
  rewrite S1, S2. unfold self. cbn [loyalty_states]. rewrite !default_state.
  levels h1 F1; levels h2 F2; try (exfalso; lra); vm_compute; lia.
Qed.

Lemma loyalty_state_monotone_witness :
  exists r1 r2,
    calculate_metrics (mkTracker "a" [] (loyalty_states (__init__ "a")))
      (PInt 2) (PInt 8) (PInt 7) = Ok r1 /\
    calculate_metrics (mkTracker "a" [] (loyalty_states (__init__ "a")))
      (PInt 7) (PInt 3) (PInt 2) = Ok r2 /\
    (position (loyalty_state r2) (loyalty_states (__init__ "a"))
       <= position (loyalty_state r1) (loyalty_states (__init__ "a")))%nat.
Proof.
  apply (loyalty_state_monotone "a" [] (PInt 2) (PInt 7) (PInt 8) (PInt 3)
           (PInt 7) (PInt 2)); vm_compute; reflexivity.
Defined.

(** X12.  The state and the rounded health score.  The state is selected
    from the health score before it is rounded to one decimal.  With the
    constructor's table, the returned state is the state of the returned
    (rounded) score whenever that score is none of the thresholds 75, 60,
    50, 40; in every case it is that state or the next one down the table.
    The exception occurs: satisfaction 1.66 with dependency 0 and
    manipulation 0 returns health score 75.0, the threshold of "Healthy",
    with state "Stable". *)
Theorem displayed_score_and_state (nm : string) (hist : list MetricRecord)
    (s d m : num) :
  let self := mkTracker nm hist (loyalty_states (__init__ nm)) in
  let state_of h := determine_state (loyalty_states self) h "Toxic" in
  (exists r, calculate_metrics self s d m = Ok r /\
     ((forall T, In T [75; 60; 50; 40]%Z -> cmp (health_score r) (PInt T) <> Some Eq) ->
      loyalty_state r = state_of (health_score r)) /\
     (position (state_of (health_score r)) (loyalty_states self)
        <= position (loyalty_state r) (loyalty_states self)
        <= S (position (state_of (health_score r)) (loyalty_states self)))%nat) /\
  (exists r, calculate_metrics self (lit (166 # 100)) (PInt 0) (PInt 0) = Ok r /\
     health_score r = lit 75 /\
     state_of (health_score r) = "Healthy"%string /\
     loyalty_state r = "Stable"%string).
Proof.
  intros self state_of. split.
  - destruct (state_of_record self s d m) as (r & h & E & F & _ & S & Fd & Vd).
    exists r. split; [exact E |].
    destruct (roundQ_threshold 1 75 (numval h) ltac:(lia)) as [U75 L75].
    destruct (roundQ_threshold 1 60 (numval h) ltac:(lia)) as [U60 L60].
    destruct (roundQ_threshold 1 50 (numval h) ltac:(lia)) as [U50 L50].
    destruct (roundQ_threshold 1 40 (numval h) ltac:(lia)) as [U40 L40].
    rewrite <- Vd in U75, L75, U60, L60, U50, L50, U40, L40.
    change (inject_Z 75) with 75 in *. change (inject_Z 60) with 60 in *.
    change (inject_Z 50) with 50 in *. change (inject_Z 40) with 40 in *.
    clear Vd.
    split.
    + intros NE.
      pose proof (cmp_eq_fin _ 75 Fd (NE 75%Z ltac:(cbn; tauto))) as N75.
      pose proof (cmp_eq_fin _ 60 Fd (NE 60%Z ltac:(cbn; tauto))) as N60.
      pose proof (cmp_eq_fin _ 50 Fd (NE 50%Z ltac:(cbn; tauto))) as N50.
      pose proof (cmp_eq_fin _ 40 Fd (NE 40%Z ltac:(cbn; tauto))) as N40.
      change (inject_Z 75) with 75 in *. change (inject_Z 60) with 60 in *.
      change (inject_Z 50) with 50 in *. change (inject_Z 40) with 40 in *.
      rewrite S. unfold state_of, self. cbn [loyalty_states]. rewrite !default_state.
      levels h F; levels (health_score r) Fd;
        try reflexivity; exfalso; lra.
    + rewrite S. unfold state_of, self. cbn [loyalty_states]. rewrite !default_state.
      levels h F; levels (health_score r) Fd;
        try (exfalso; lra); vm_compute; lia.
  - destruct (stable_at_displayed_75 nm) as (r0 & E0 & H0 & S0).
    eexists. split; [exact (calculate_metrics_transfer nm nm hist _ _ _ _ _ E0) |].
    cbn [with_timestamp health_score loyalty_state].
    split; [exact H0 |]. split; [| exact S0].
    rewrite H0. vm_compute. reflexivity.
Qed.

(** X13.  The risk factors and the returned numbers.  The list holds the
    four flags in the order of the tests, each at most once.  "High
    Manipulation" and "High Dependency" are present exactly when the
    returned [manipulation] exceeds 6 and the returned [dependency] exceeds
    7.  The two other flags are tested on the values before rounding: "Low
    Satisfaction" is present when the returned [true_satisfaction] is below
    4 and then that value is at most 4, and likewise for "Low Autonomy"
    and 3.  The boundary occurs: satisfaction 3.999 without manipulation
    returns [true_satisfaction] 4.0 together with "Low Satisfaction". *)
Theorem risk_flags_and_record (self : LoyaltyTracker) (s d m : num) :
  (exists r low_satisfaction low_autonomy,
     calculate_metrics self s d m = Ok r /\
     risk_factors r =
       flag (py_gt (manipulation r) (PInt 6)) "High Manipulation" ++
       flag (py_gt (dependency r) (PInt 7)) "High Dependency" ++
       flag low_satisfaction "Low Satisfaction" ++
       flag low_autonomy "Low Autonomy" /\
     (py_lt (true_satisfaction r) (PInt 4) = true -> low_satisfaction = true) /\
     (low_satisfaction = true -> py_le (true_satisfaction r) (PInt 4) = true) /\
     (py_lt (autonomy r) (PInt 3) = true -> low_autonomy = true) /\
     (low_autonomy = true -> py_le (autonomy r) (PInt 3) = true)) /\
  (exists r,
     calculate_metrics self (lit (3999 # 1000)) (PInt 0) (PInt 0) = Ok r /\
     true_satisfaction r = lit 4 /\
     In "Low Satisfaction"%string (risk_factors r)).
Proof.
  split; [| apply flagged_at_displayed_4].
  destruct (flags_of_record self s d m)
    as (r & ts & au & E & Wts & Wau & _ & _ & Ets & Eau & _ & _ & R).
  exists r, (py_lt ts (PInt 4)), (py_lt au (PInt 3)).
  split; [exact E |]. split; [exact R |]. rewrite Ets, Eau.
  destruct (rounded_comparison ts 2 4 Wts ltac:(lia)) as [A1 A2].
  destruct (rounded_comparison au 2 3 Wau ltac:(lia)) as [B1 B2].
  repeat split; assumption.
Qed.

(** X14.  The risk factors of a "Healthy" record.  With the constructor's
    table, a record whose state is "Healthy" carries none of "High
    Manipulation", "High Dependency" and "Low Autonomy": each of them keeps
    the health score below 75.  "Low Satisfaction" remains possible:
    satisfaction 1.7 with dependency 0 and manipulation 0 is "Healthy" with
    that flag. *)
Theorem flags_of_a_healthy_record (nm : string) (hist : list MetricRecord)
    (s d m : num) :
  let self := mkTracker nm hist (loyalty_states (__init__ nm)) in
  (exists r, calculate_metrics self s d m = Ok r /\
     (loyalty_state r = "Healthy"%string ->
      forall f, In f (risk_factors r) -> f = "Low Satisfaction"%string)) /\
  (exists r, calculate_metrics self (lit (17 # 10)) (PInt 0) (PInt 0) = Ok r /\
     loyalty_state r = "Healthy"%string /\
     risk_factors r = ["Low Satisfaction"%string]).
Proof.
  intros self. split.
  - destruct (calculate_metrics_spec self s d m)
      as (ts & ev & au & pi & h & (_ & _ & Wau & _ & Wh) & (_ & _ & Vau & _ & Vh) & E).
    eexists. split; [exact E |]. cbn [loyalty_state risk_factors].
    unfold self. cbn [loyalty_states]. rewrite default_state, flags_in_order.
    pose proof (clamp_range s) as Bs. pose proof (clamp_range d) as Bd.
    pose proof (clamp_range m) as Bm.
    pose proof (clamp_within d) as [Fd _]. pose proof (clamp_within m) as [Fm _].
    destruct Wh as [Fh _]. destruct Wau as [Fau _].
    intros Hh.
    assert (G : 75 <= hQ (numval (clamp s)) (numval (clamp d)) (numval (clamp m))).
    { rewrite <- Vh. destruct (threshold_reflect 75 h Fh) as [A _].
      destruct (py_le (PInt 75) h); [apply A; reflexivity |].
      destruct (py_le (PInt 60) h); [discriminate |].
      destruct (py_le (PInt 50) h); [discriminate |].
      destruct (py_le (PInt 40) h); discriminate. }
    clear Hh.
    assert (N1 : py_gt (clamp m) (PInt 6) = false).
    { destruct (py_gt (clamp m) (PInt 6)) eqn:C; [| reflexivity]. exfalso.
      apply (py_gt_fin (clamp m) (PInt 6) Fm eq_refl) in C. cbn [numval] in C.
      change (inject_Z 6) with 6 in C.
      pose proof (health_bound _ (numval (clamp d)) _ 0 6 Bs Bm
                    ltac:(apply Bd) ltac:(lra)) as U.
      pose proof health_at_10_0_6. lra. }
    assert (N2 : py_gt (clamp d) (PInt 7) = false).
    { destruct (py_gt (clamp d) (PInt 7)) eqn:C; [| reflexivity]. exfalso.
      apply (py_gt_fin (clamp d) (PInt 7) Fd eq_refl) in C. cbn [numval] in C.
      change (inject_Z 7) with 7 in C.
      pose proof (health_bound _ (numval (clamp d)) _ 7 0 Bs Bm
                    ltac:(lra) ltac:(apply Bm)) as U.
      pose proof health_at_10_7_0. lra. }
    assert (N4 : py_lt au (PInt 3) = false).
    { destruct (py_lt au (PInt 3)) eqn:C; [| reflexivity]. exfalso.
      apply (py_lt_fin au (PInt 3) Fau eq_refl) in C. cbn [numval] in C.
      change (inject_Z 3) with 3 in C. rewrite Vau in C.
      assert (D4 : 4 <= numval (clamp d)).
      { apply Qnot_lt_le. intros L.
        pose proof (auQ_anti (numval (clamp d)) 4 (numval (clamp m)) 10
                      ltac:(lra) ltac:(apply Bm)) as A.
        pose proof autonomy_at_4_10. lra. }
      assert (M4 : 4 <= numval (clamp m)).
      { apply Qnot_lt_le. intros L.
        pose proof (auQ_anti (numval (clamp d)) 10 (numval (clamp m)) 4
                      ltac:(apply Bd) ltac:(lra)) as A.
        pose proof autonomy_at_10_4. lra. }
      pose proof (health_bound _ (numval (clamp d)) _ 4 4 Bs Bm D4 M4) as U.
      pose proof health_at_10_4_4. lra. }
    rewrite N1, N2, N4. cbn [flag app]. rewrite app_nil_r.
    intros f Hf. destruct (py_lt ts (PInt 4)); cbn [flag In] in Hf.
    + destruct Hf as [Hf | []]. symmetry. exact Hf.
    + destruct Hf.
  - destruct (healthy_at_low_satisfaction nm) as (r0 & E0 & S0 & R0).
    eexists. split; [exact (calculate_metrics_transfer nm nm hist _ _ _ _ _ E0) |].
    cbn [with_timestamp loyalty_state risk_factors]. split; assumption.
Qed.

(** X15.  The selected state and the keys of the table, for any table.
    The returned state is a key of [loyalty_states] or the default "Toxic".
    When some entry has a threshold of at most 0, the loop always finds a
    match, so that the state is a key and the later lookup
    [self.loyalty_states[h['loyalty_state']]] of [plot_analysis] finds
    it. *)
Theorem state_is_a_key_of_the_table (self : LoyaltyTracker) (s d m : num) :
  exists r,
    calculate_metrics self s d m = Ok r /\
    (In (loyalty_state r) (map fst (loyalty_states self)) \/
     loyalty_state r = "Toxic"%string) /\
    (Exists (fun item => py_le (threshold (snd item)) (PInt 0) = true)
            (loyalty_states self) ->
     exists props,
       getitem (loyalty_states self) (loyalty_state r) = Value props).
Proof.
  destruct (calculate_metrics_spec self s d m)
    as (ts & ev & au & pi & h & (_ & _ & _ & _ & Wh) & _ & E).
  eexists. split; [exact E |]. cbn [loyalty_state].
  destruct (determine_state_key (loyalty_states self) h "Toxic") as [K | [D N]].
  - split; [left; exact K |]. intros _.
    destruct (getitem_key _ _ K) as (props & G & _). exists props. exact G.
  - split; [right; exact D |]. intros X. exfalso.
    apply Exists_exists in X. destruct X as (item & Hin & Hle).
    pose proof (proj1 (Forall_forall _ _) N item Hin) as Hge. cbn beta in Hge.
    rewrite py_ge_le in Hge.
    destruct Wh as [Fh [H0 _]]. change (inject_Z 0) with 0 in H0.
    assert (C : py_le (threshold (snd item)) h = true).
    { unfold py_le, cmp in *. cbn [xv] in Hle. rewrite (xv_fin h Fh).
      destruct (xv (threshold (snd item))) as [| | q |]; try discriminate; try reflexivity.
      destruct (Qcompare_spec q (inject_Z 0)) as [A | A | A]; try discriminate;
        change (inject_Z 0) with 0 in A;
        destruct (Qcompare_spec q (numval h)) as [B | B | B]; try reflexivity;
        exfalso; lra. }
    congruence.
Qed.

(** X16.  Measurements added in two batches.  Adding the triples of
    [batch1] and then those of [batch2] succeeds at each stage and leaves
    the tracker in the state that adding the concatenated list leaves it
    in; the history has grown by the number of triples. *)
Theorem add_all_in_two_batches (self : LoyaltyTracker)
    (batch1 batch2 : list (num * num * num)) :
  exists t1 t,
    add_all self batch1 = Ok t1 /\
    add_all t1 batch2 = Ok t /\
    add_all self (batch1 ++ batch2) = Ok t /\
    List.length (history t)
      = (List.length (history self) + List.length batch1 + List.length batch2)%nat.
Proof.
  destruct (add_all_spec batch1 self) as (t1 & n1 & E1 & H1 & _ & _ & L1 & _).
  destruct (add_all_spec batch2 t1) as (t & n2 & E2 & H2 & _ & _ & L2 & _).
  exists t1, t. split; [exact E1 |]. split; [exact E2 |]. split.
  - rewrite add_all_app, E1. exact E2.
  - rewrite H2, H1, !length_app. lia.
Qed.

(** X17.  A record depends on its own triple only.  After any list of
    triples has been added to a new tracker, the history has one record per
    triple, in order, and each record is the one a new tracker computes for
    its triple alone, up to the sequence number: earlier measurements do
    not influence later records. *)
Theorem records_depend_on_their_own_triple (nm : string)
    (scenarios : list (num * num * num)) :
  exists t,
    add_all (__init__ nm) scenarios = Ok t /\
    Forall2 (fun sc r =>
               calculate_metrics (__init__ nm) (fst (fst sc)) (snd (fst sc)) (snd sc)
                 = Ok (with_timestamp r 1))
            scenarios (history t).
Proof.
  destruct (add_all_records scenarios (__init__ nm)) as (t & news & E & H & F).
  exists t. split; [exact E |]. rewrite H. cbn [__init__ history app].
  eapply Forall2_impl; [| exact F].
  intros sc r Hr. exact (Hr nm []).
Qed.



(** X19.  The plot of a tracker built by its own methods.  After
    [1 <= N < 2 ^ 51] measurements have been added to a new tracker,
    [plot_analysis] raises no exception of its own and draws.  [x] holds
    the timestamps of the records, which are [1, 2, ..., N], strictly
    increasing as [np.interp] expects, with [min(x) = 1] and [max(x) = N];
    the six series are the six plotted fields of the records, one value per
    [x]; [health_scores] holds, record by record, the tenth of the record's
    health score.  The state marker number [i], counted from 0, is the one
    of record number [i]: it sits at that record's timestamp and at
    [health_scores[i]], the tenth of that record's health score, has the
    colour the table gives to that record's state, and its label is offset
    by 0.8 and anchored at its bottom when [i] is even, by -1.5 and
    anchored at its top when [i] is odd.  The y axis runs from -0.5 to 11
    and the x axis from 0.8 to the float [N + 0.2]; the lower plot shows
    the health scores of the records over the extent [1, N] by [0, 1]; the
    timeline labels each timestamp with the record's state; the legend
    lists the five states with their colours in the order of the table. *)
Theorem plot_analysis_after_measurements (nm : string)
    (scenarios : list (num * num * num)) :
  (0 < List.length scenarios)%nat ->
  (Z.of_nat (List.length scenarios) < 2 ^ 51)%Z ->
  exists t fig,
    add_all (__init__ nm) scenarios = Ok t /\
    plot_analysis t = Value (Drawn fig) /\
    x fig = map timestamp (history t) /\
    x fig = map (fun i => (Z.of_nat i + 1)%Z) (seq 0 (List.length scenarios)) /\
    metrics fig =
      [ ("Satisfaction"%string, map satisfaction (history t));
        ("True Satisfaction"%string, map true_satisfaction (history t));
        ("Dependency"%string, map dependency (history t));
        ("Manipulation"%string, map manipulation (history t));
        ("Emotional Vulnerability"%string, map emotional_vulnerability (history t));
        ("Autonomy"%string, map autonomy (history t)) ] /\
    Forall (fun series => List.length (snd series) = List.length (x fig))
           (metrics fig) /\
    smooth_range fig = (1%Z, Z.of_nat (List.length scenarios)) /\
    List.length (health_scores fig) = List.length (x fig) /\
    Forall2 (fun r y => arith (py_truediv (health_score r) (PInt 10)) = Value y)
            (history t) (health_scores fig) /\
    Forall2 (fun ih mk =>
               exists y props,
                 nth_error (health_scores fig) (fst ih) = Some y /\
                 arith (py_truediv (health_score (snd ih)) (PInt 10)) = Value y /\
                 getitem (loyalty_states (__init__ nm)) (loyalty_state (snd ih))
                   = Value props /\
                 mk = {| marker_x := timestamp (snd ih);
                         marker_y := y;
                         state_color := color props;
                         offset := if Nat.even (fst ih) then lit (8 # 10)
                                   else PFloat (fneg (rnd (15 # 10)));
                         va := if Nat.even (fst ih) then "bottom"%string
                               else "top"%string |})
            (enumerate 0 (history t)) (state_markers fig) /\
    ylim fig = (PFloat (fneg (rnd (5 # 10))), PInt 11) /\
    fst (xlim fig) = lit (8 # 10) /\
    py_add (PInt (Z.of_nat (List.length scenarios))) (lit (2 # 10))
      = Ok (snd (xlim fig)) /\
    health_gradient fig = map health_score (history t) /\
    extent fig = (1%Z, Z.of_nat (List.length scenarios), 0%Z, 1%Z) /\
    Forall2 (fun ih p => p = (timestamp (snd ih), loyalty_state (snd ih)))
            (enumerate 0 (history t)) (timeline fig) /\
    legend_elements fig =
      [ ("#2ecc71"%string, "Healthy"%string); ("#3498db"%string, "Stable"%string);
        ("#f1c40f"%string, "At Risk"%string); ("#e67e22"%string, "Unstable"%string);
        ("#e74c3c"%string, "Toxic"%string) ].
Proof.
  intros Hpos Hbig.
  destruct (plot_of_built_tracker nm scenarios Hpos Hbig)
    as (t & hs & ms & right & tl & E & P & Ht & Hl & Hx & _ & Fhs & Fms & Er & _ & _ & Ftl).
  eexists t, _. split; [exact E |]. split; [exact P |].
  cbn [x smooth_range metrics health_scores state_markers timeline ylim xlim
       health_gradient extent legend_elements fst snd].
  split; [reflexivity |]. split; [exact Hx |]. split; [reflexivity |].
  split; [repeat constructor; cbn [snd]; rewrite !length_map; reflexivity |].
  split; [reflexivity |].
  split; [rewrite length_map; symmetry; apply (Forall2_length Fhs) |].
  split.
  { eapply Forall2_impl; [| exact Fhs]. cbn beta. intros r y [Ey _]. exact Ey. }
  split.
  { eapply Forall2_impl_in; [| exact Fms]. cbn beta.
    intros [i h] mk Hin (y & props & Ey & G & Hmk). cbn [fst snd] in *.
    apply in_enumerate in Hin.
    destruct (Forall2_nth _ _ _ Fhs i h Hin) as (y' & Ny & Ey' & _).
    rewrite Ey in Ey'. apply Value_inj in Ey'. subst y'.
    exists y, props. split; [exact Ny |]. split; [exact Ey |].
    split; [rewrite <- Ht; exact G | exact Hmk]. }
  split; [reflexivity |]. split; [reflexivity |]. split; [exact Er |].
  split; [reflexivity |]. split; [reflexivity |]. split; [exact Ftl |].
  rewrite Ht. reflexivity.
Qed.

Lemma plot_analysis_after_measurements_witness :
  exists t fig,
    add_all (__init__ "a")
      [(PInt 7, PInt 3, PInt 2); (PInt 2, PInt 8, PInt 7); (PInt 0, PInt 0, PInt 0)]
      = Ok t /\
    plot_analysis t = Value (Drawn fig) /\
    x fig = [1; 2; 3]%Z /\
    map marker_x (state_markers fig) = [1; 2; 3]%Z /\
    map state_color (state_markers fig)
      = ["#3498db"; "#e74c3c"; "#3498db"]%string /\
    map va (state_markers fig) = ["bottom"; "top"; "bottom"]%string.
Proof.
  destruct (plot_analysis_after_measurements "a"
              [(PInt 7, PInt 3, PInt 2); (PInt 2, PInt 8, PInt 7);
               (PInt 0, PInt 0, PInt 0)])
    as (t & fig & E & P & _).
  - cbn [List.length]. lia.
  - cbn [List.length]. lia.
  - exists t, fig. split; [exact E |]. split; [exact P |].
    vm_compute in E. injection E as <-.
    vm_compute in P. injection P as <-.
    repeat split.
Defined.

(** X20.  The axis limits contain the data.  After [1 <= N < 2 ^ 51]
    measurements have been added to a new tracker, every [x] lies strictly
    between the limits [min(x) - 0.2] and [max(x) + 0.2] of the x axis (in
    binary64 arithmetic the sum [N + 0.2] still exceeds [N]), and every
    value of the six series and every tenth of a health score lies
    strictly between the limits -0.5 and 11 of the y axis; so does every
    state marker. *)
Theorem plot_limits_contain_the_data (nm : string)
    (scenarios : list (num * num * num)) :
  (0 < List.length scenarios)%nat ->
  (Z.of_nat (List.length scenarios) < 2 ^ 51)%Z ->
  exists t fig,
    add_all (__init__ nm) scenarios = Ok t /\
    plot_analysis t = Value (Drawn fig) /\
    Forall (fun xi => inside (xlim fig) (PInt xi)) (x fig) /\
    Forall (fun series => Forall (inside (ylim fig)) (snd series)) (metrics fig) /\
    Forall (inside (ylim fig)) (health_scores fig) /\
    Forall (fun mk => inside (xlim fig) (PInt (marker_x mk)) /\
                      inside (ylim fig) (marker_y mk))
           (state_markers fig).
Proof.
  intros Hpos Hbig.
  destruct (plot_of_built_tracker nm scenarios Hpos Hbig)
    as (t & hs & ms & right & tl & E & P & _ & Hl & Hx & Hp & Fhs & Fms & _ & Fr & Vr & _).
  eexists t, _. split; [exact E |]. split; [exact P |].
  cbn [x xlim ylim metrics health_scores state_markers].
  assert (X : forall xi, In xi (map timestamp (history t)) ->
                         inside (lit (8 # 10), right) (PInt xi)).
  { intros xi Hin. rewrite Hx in Hin. apply in_map_iff in Hin.
    destruct Hin as (i & <- & Hi). apply in_seq in Hi.
    apply (inside_xlim (Z.of_nat (List.length scenarios))); [exact Fr | exact Vr | lia]. }
  assert (Y : forall y, In y hs -> inside (PFloat (fneg (rnd (5 # 10))), PInt 11) y).
  { intros y Hin. apply within_inside_ylim.
    destruct (Forall2_in_r _ _ _ y Fhs Hin) as (r & _ & _ & W). exact W. }
  split; [apply Forall_forall; exact X |].
  split.
  { repeat constructor; cbn [snd];
      apply (Forall_map_field (loyalty_states (__init__ nm))); try exact Hp;
      intros r (W1 & W2 & W3 & W4 & W5 & W6 & _); assumption. }
  split; [apply Forall_forall; exact Y |].
  apply Forall_forall. intros mk Hmk.
  destruct (Forall2_in_r _ _ _ mk Fms Hmk) as ([i h] & Hin & y & props & Ey & _ & ->).
  cbn [fst snd marker_x marker_y] in *. apply in_enumerate in Hin. split.
  - apply X. apply in_map. apply (nth_error_In _ _ Hin).
  - destruct (Forall2_nth _ _ _ Fhs i h Hin) as (y' & Ny & Ey' & _).
    rewrite Ey in Ey'. apply Value_inj in Ey'. subst y'.
    apply Y. apply (nth_error_In _ _ Ny).
Qed.

Lemma plot_limits_contain_the_data_witness :
  exists t fig,
    add_all (__init__ "a") [(PInt 7, PInt 3, PInt 2); (PInt 2, PInt 8, PInt 7)] = Ok t /\
    plot_analysis t = Value (Drawn fig) /\
    Forall (fun xi => inside (xlim fig) (PInt xi)) (x fig).
Proof.
  destruct (plot_limits_contain_the_data "a"
              [(PInt 7, PInt 3, PInt 2); (PInt 2, PInt 8, PInt 7)])
    as (t & fig & E & P & X & _).
  - cbn [List.length]. lia.
  - cbn [List.length]. lia.
  - exists t, fig. split; [exact E |]. split; [exact P | exact X].
Defined.

(** X21.  The script at the end of the module.  Its 21 measurements are
    added without exception and [plot_analysis] then draws.  The states
    run "Stable", "Stable", "At Risk", "At Risk", "Unstable", "Unstable",
    nine times "Toxic", and back in the reverse order; the health scores
    fall from 69.7 to 19.6 and rise again, so that no record is "Healthy";
    and the history reads the same backwards, timestamps apart. *)
Theorem script_run :
  exists t fig,
    add_all (__init__ "Customer Analysis") scenarios = Ok t /\
    script = Value (Drawn fig) /\
    plot_analysis t = Value (Drawn fig) /\
    map loyalty_state (history t) =
      [ "Stable"; "Stable"; "At Risk"; "At Risk"; "Unstable"; "Unstable";
        "Toxic"; "Toxic"; "Toxic"; "Toxic"; "Toxic"; "Toxic"; "Toxic"; "Toxic";
        "Toxic"; "Unstable"; "Unstable"; "At Risk"; "At Risk"; "Stable";
        "Stable" ]%string /\
    map health_score (history t) =
      map lit [ 697 # 10; 642 # 10; 589 # 10; 536 # 10; 485 # 10; 434 # 10;
                385 # 10; 336 # 10; 288 # 10; 242 # 10; 196 # 10; 242 # 10;
                288 # 10; 336 # 10; 385 # 10; 434 # 10; 485 # 10; 536 # 10;
                589 # 10; 642 # 10; 697 # 10 ] /\
    map (fun r => with_timestamp r 0) (history t)
      = rev (map (fun r => with_timestamp r 0) (history t)).
Proof.
  eexists. eexists.
  split; [vm_compute; reflexivity |].
  split; [vm_compute; reflexivity |].
  split; [vm_compute; reflexivity |].
  split; [vm_compute; reflexivity |].
  split; vm_compute; reflexivity.
Qed.
